(** * SDL semaphores on Windows: src/thread/windows/SDL_syssem.c

    A shallow embedding of the two semaphore implementations of
    SDL_syssem.c (the WaitOnAddress one, suffix [_atom], and the kernel
    semaphore one, suffix [_kern]) and of the runtime selection between
    them, followed by the properties the specification states about them.

    The build modelled is the desktop one: SDL_THREAD_WINDOWS defined,
    SDL_WINAPI_FAMILY_PHONE and __WINRT__ not defined, so the atom
    implementation exists and reaches WaitOnAddress and WakeByAddressSingle
    through the two function pointers resolved by SDL_CreateSemaphore.

    Every C function is a program: a tree of the calls and memory accesses
    it performs, in source order.  A program is run in three ways:
    - [feed] gives it the result of each call from a list, whatever it is
      (what one thread sees when other threads and the system interfere);
    - [run] runs it alone against a [World] (heap and globals);
    - [sys_exec] runs several of them against one [World], one call at a
      time, in the order a schedule gives. *)

From Stdlib Require Import ZArith Lia List String Bool.
From stdpp Require Import base gmap list strings.

Local Open Scope Z_scope.

(** ** Machine integers *)

(** LONG: 32 bits, signed (two's complement). *)
Definition LONG_MIN : Z := - 2 ^ 31.
Definition LONG_MAX : Z := 2 ^ 31 - 1.
Definition to_LONG (z : Z) : Z := (z + 2 ^ 31) mod 2 ^ 32 - 2 ^ 31.

(** Uint32 and DWORD: 32 bits, unsigned. *)
Definition to_Uint32 (z : Z) : Z := z mod 2 ^ 32.
Definition to_DWORD (z : Z) : Z := z mod 2 ^ 32.

(** Uint64: 64 bits, unsigned. *)
Definition to_Uint64 (z : Z) : Z := z mod 2 ^ 64.

Definition is_Uint32 (z : Z) : Prop := 0 <= z < 2 ^ 32.
Definition is_LONG (z : Z) : Prop := LONG_MIN <= z <= LONG_MAX.
Definition is_Sint64 (z : Z) : Prop := - 2 ^ 63 <= z < 2 ^ 63.

(** ** Constants of the Windows SDK *)

Definition NULL : Z := 0.
Definition FALSE : Z := 0.
Definition TRUE : Z := 1.
Definition INFINITE : Z := 4294967295.      (* 0xFFFFFFFF *)
Definition WAIT_OBJECT_0 : Z := 0.
Definition WAIT_TIMEOUT : Z := 258.
Definition ERROR_TIMEOUT : Z := 1460.
Definition sizeof_LONG : Z := 4.

(** ** Constants and macros of SDL declared outside SDL_syssem.c *)

(** Modelled from the spec: SDL_MUTEX_TIMEDOUT is defined in SDL_mutex.h,
    which is not part of the sources at hand.  The spec makes TimedOut an
    outcome of its own, distinct from Ok (0) and from the negative error
    results; SDL defines it as 1. *)
Definition SDL_MUTEX_TIMEDOUT : Z := 1.

(** Modelled from the spec: SDL_SetError, SDL_InvalidParamError and
    SDL_OutOfMemory (SDL_error.h) record an error for the caller and
    return a negative error result; SDL returns -1 from all three. *)
Definition SDL_ERROR_RESULT : Z := -1.

(** Modelled from the spec: SDL_NS_TO_MS is a macro of SDL_timer.h, which
    is not part of the sources at hand.  The spec has nanoseconds converted
    to whole milliseconds; SDL divides by SDL_NS_PER_MS = 1000000 with C's
    integer division. *)
Definition SDL_NS_PER_MS : Z := 1000000.
Definition SDL_NS_TO_MS (NS : Z) : Z := NS ÷ SDL_NS_PER_MS.

(** ** What a program touches *)

(** The lvalues the file reads and writes: the fields of the two
    semaphore structs, given the address of the struct, and the globals. *)
Inductive lval : Type :=
  | sem_atom_count (sem : Z)        (* ((SDL_sem_atom * )sem)->count *)
  | sem_kern_id (sem : Z)           (* ((SDL_sem_kern * )sem)->id *)
  | sem_kern_count (sem : Z)        (* ((SDL_sem_kern * )sem)->count *)
  | active_Create                   (* SDL_sem_impl_active.Create *)
  | active_Destroy
  | active_WaitTimeoutNS
  | active_Value
  | active_Post
  | var_pWaitOnAddress              (* the global pWaitOnAddress *)
  | var_pWakeByAddressSingle.       (* the global pWakeByAddressSingle *)

Inductive ctype : Type := T_sem_atom | T_sem_kern.

(** The calls and memory accesses of the file.  [pWaitOnAddress] and
    [pWakeByAddressSingle] are the calls through the two function
    pointers; [MemLoad] and [MemStore] are plain accesses. *)
Inductive action : Type :=
  | SDL_malloc (sizeof : ctype)
  | SDL_free (p : Z)
  | SDL_OutOfMemory
  | SDL_InvalidParamError (param : string)
  | SDL_SetError (msg : string)
  | SDL_GetTicksNS
  | SDL_GetHintBoolean (name : string) (default_value : Z)
  | MemLoad (l : lval)
  | MemStore (l : lval) (v : Z)
  | InterlockedCompareExchange (l : lval) (exchange comparand : Z)
  | InterlockedIncrement (l : lval)
  | InterlockedDecrement (l : lval)
  | pWaitOnAddress (l : lval) (compare size timeout : Z)
  | pWakeByAddressSingle (l : lval)
  | GetLastError
  | CreateSemaphore (lInitialCount lMaximumCount : Z)
  | CloseHandle (h : Z)
  | WaitForSingleObjectEx (h dwMilliseconds bAlertable : Z)
  | ReleaseSemaphore (h lReleaseCount : Z)
  | GetModuleHandle (name : string)
  | GetProcAddress (module : Z) (name : string).

Global Instance lval_eq_dec : EqDecision lval.
Proof. solve_decision. Defined.
Global Instance ctype_eq_dec : EqDecision ctype.
Proof. solve_decision. Defined.
Global Instance action_eq_dec : EqDecision action.
Proof. solve_decision. Defined.

(** An event: a call or access together with what it returned. *)
Definition event : Type := action * Z.

(** ** Programs *)

Inductive prog : Type :=
  | Ret (v : Z)                         (* return v *)
  | Act (a : action) (k : Z -> prog)    (* perform a, go on with its result *)
  | Spin                                (* still inside for (;;): fuel is out *)
  | Crash.                              (* call through a bad function pointer *)

Fixpoint bind (p : prog) (f : Z -> prog) : prog :=
  match p with
  | Ret v => f v
  | Act a k => Act a (fun r => bind (k r) f)
  | Spin => Spin
  | Crash => Crash
  end.

Definition call (a : action) : prog := Act a Ret.

Notation "x <- p ;; q" := (bind p (fun x => q))
  (at level 100, p at next level, right associativity).
Notation "p ;;; q" := (bind p (fun _ => q))
  (at level 100, right associativity).

(** ** Atomic + WaitOnAddress implementation *)

Definition SDL_CreateSemaphore_atom (initial_value : Z) : prog :=
  sem <- call (SDL_malloc T_sem_atom) ;;
  if negb (sem =? NULL) then
    call (MemStore (sem_atom_count sem) (to_LONG initial_value)) ;;;
    Ret sem
  else
    call SDL_OutOfMemory ;;;
    Ret sem.

Definition SDL_DestroySemaphore_atom (sem : Z) : prog :=
  if negb (sem =? NULL) then
    call (SDL_free sem) ;;; Ret 0
  else Ret 0.

(** [while (count == 0) { ... }] of the infinite wait, then [k count]. *)
Fixpoint wait_zero_infinite (fuel : nat) (sem count : Z) (k : Z -> prog) : prog :=
  if count =? 0 then
    match fuel with
    | O => Spin
    | S fuel' =>
        ok <- call (pWaitOnAddress (sem_atom_count sem) count sizeof_LONG INFINITE) ;;
        if ok =? FALSE then
          call (SDL_SetError "WaitOnAddress() failed")
        else
          count <- call (MemLoad (sem_atom_count sem)) ;;
          wait_zero_infinite fuel' sem count k
    end
  else k count.

(** [for (;;) { ... }] of the infinite wait. *)
Fixpoint wait_loop_infinite (fuel : nat) (sem : Z) : prog :=
  match fuel with
  | O => Spin
  | S fuel' =>
      count <- call (MemLoad (sem_atom_count sem)) ;;
      wait_zero_infinite fuel' sem count (fun count =>
        old <- call (InterlockedCompareExchange (sem_atom_count sem)
                       (to_LONG (count - 1)) count) ;;
        if old =? count then Ret 0
        else wait_loop_infinite fuel' sem)
  end.

(** [while (count == 0) { ... }] of the timed wait, then [k count]. *)
Fixpoint wait_zero_timed (fuel : nat) (sem deadline count : Z) (k : Z -> prog) : prog :=
  if count =? 0 then
    match fuel with
    | O => Spin
    | S fuel' =>
        now <- call SDL_GetTicksNS ;;
        if deadline >? now then
          let timeout_eff := to_DWORD (SDL_NS_TO_MS (deadline - now)) in
          ok <- call (pWaitOnAddress (sem_atom_count sem) count sizeof_LONG timeout_eff) ;;
          if ok =? FALSE then
            err <- call GetLastError ;;
            if err =? ERROR_TIMEOUT then Ret SDL_MUTEX_TIMEDOUT
            else call (SDL_SetError "WaitOnAddress() failed")
          else
            count <- call (MemLoad (sem_atom_count sem)) ;;
            wait_zero_timed fuel' sem deadline count k
        else Ret SDL_MUTEX_TIMEDOUT
    end
  else k count.

(** [for (;;) { ... }] of the timed wait. *)
Fixpoint wait_loop_timed (fuel : nat) (sem deadline : Z) : prog :=
  match fuel with
  | O => Spin
  | S fuel' =>
      count <- call (MemLoad (sem_atom_count sem)) ;;
      wait_zero_timed fuel' sem deadline count (fun count =>
        old <- call (InterlockedCompareExchange (sem_atom_count sem)
                       (to_LONG (count - 1)) count) ;;
        if old =? count then Ret 0
        else wait_loop_timed fuel' sem deadline)
  end.

Definition SDL_WaitSemaphoreTimeoutNS_atom (fuel : nat) (sem timeoutNS : Z) : prog :=
  if sem =? NULL then call (SDL_InvalidParamError "sem")
  else if timeoutNS =? 0 then
    count <- call (MemLoad (sem_atom_count sem)) ;;
    if count =? 0 then Ret SDL_MUTEX_TIMEDOUT
    else
      old <- call (InterlockedCompareExchange (sem_atom_count sem)
                     (to_LONG (count - 1)) count) ;;
      if old =? count then Ret 0
      else Ret SDL_MUTEX_TIMEDOUT
  else if timeoutNS <? 0 then wait_loop_infinite fuel sem
  else
    now <- call SDL_GetTicksNS ;;
    let deadline := to_Uint64 (now + timeoutNS) in
    wait_loop_timed fuel sem deadline.

Definition SDL_GetSemaphoreValue_atom (sem : Z) : prog :=
  if sem =? NULL then
    call (SDL_InvalidParamError "sem") ;;;
    Ret 0
  else
    count <- call (MemLoad (sem_atom_count sem)) ;;
    Ret (to_Uint32 count).

Definition SDL_PostSemaphore_atom (sem : Z) : prog :=
  if sem =? NULL then call (SDL_InvalidParamError "sem")
  else
    call (InterlockedIncrement (sem_atom_count sem)) ;;;
    call (pWakeByAddressSingle (sem_atom_count sem)) ;;;
    Ret 0.

(** ** Fallback implementation using kernel semaphores *)

Definition SDL_CreateSemaphore_kern (initial_value : Z) : prog :=
  sem <- call (SDL_malloc T_sem_kern) ;;
  if negb (sem =? NULL) then
    (* Create the semaphore, with max value 32K *)
    id <- call (CreateSemaphore (to_LONG initial_value) (32 * 1024)) ;;
    call (MemStore (sem_kern_id sem) id) ;;;
    call (MemStore (sem_kern_count sem) (to_LONG initial_value)) ;;;
    id <- call (MemLoad (sem_kern_id sem)) ;;
    if id =? NULL then
      call (SDL_SetError "Couldn't create semaphore") ;;;
      call (SDL_free sem) ;;;
      Ret NULL
    else Ret sem
  else
    call SDL_OutOfMemory ;;;
    Ret sem.

Definition SDL_DestroySemaphore_kern (sem : Z) : prog :=
  if negb (sem =? NULL) then
    id <- call (MemLoad (sem_kern_id sem)) ;;
    (if negb (id =? NULL) then
       id <- call (MemLoad (sem_kern_id sem)) ;;
       call (CloseHandle id) ;;;
       call (MemStore (sem_kern_id sem) 0)
     else Ret 0) ;;;
    call (SDL_free sem) ;;;
    Ret 0
  else Ret 0.

Definition SDL_WaitSemaphoreTimeoutNS_kern (sem timeoutNS : Z) : prog :=
  if sem =? NULL then call (SDL_InvalidParamError "sem")
  else
    let dwMilliseconds :=
      if timeoutNS <? 0 then INFINITE
      else to_DWORD (SDL_NS_TO_MS timeoutNS) in
    id <- call (MemLoad (sem_kern_id sem)) ;;
    r <- call (WaitForSingleObjectEx id dwMilliseconds FALSE) ;;
    if r =? WAIT_OBJECT_0 then
      call (InterlockedDecrement (sem_kern_count sem)) ;;;
      Ret 0
    else if r =? WAIT_TIMEOUT then
      Ret SDL_MUTEX_TIMEDOUT
    else
      call (SDL_SetError "WaitForSingleObject() failed").

Definition SDL_GetSemaphoreValue_kern (sem : Z) : prog :=
  if sem =? NULL then
    call (SDL_InvalidParamError "sem") ;;;
    Ret 0
  else
    count <- call (MemLoad (sem_kern_count sem)) ;;
    Ret (to_Uint32 count).

Definition SDL_PostSemaphore_kern (sem : Z) : prog :=
  if sem =? NULL then call (SDL_InvalidParamError "sem")
  else
    (* Increase the counter in the first place *)
    call (InterlockedIncrement (sem_kern_count sem)) ;;;
    id <- call (MemLoad (sem_kern_id sem)) ;;
    ok <- call (ReleaseSemaphore id 1) ;;
    if ok =? FALSE then
      call (InterlockedDecrement (sem_kern_count sem)) ;;;   (* restore *)
      call (SDL_SetError "ReleaseSemaphore() failed")
    else Ret 0.

(** ** Runtime selection and redirection *)

(** The ten static functions, and the addresses the tables hold for them
    (any ten distinct non-null values). *)
Inductive func : Type :=
  | fn_CreateSemaphore_atom | fn_DestroySemaphore_atom
  | fn_WaitSemaphoreTimeoutNS_atom | fn_GetSemaphoreValue_atom
  | fn_PostSemaphore_atom
  | fn_CreateSemaphore_kern | fn_DestroySemaphore_kern
  | fn_WaitSemaphoreTimeoutNS_kern | fn_GetSemaphoreValue_kern
  | fn_PostSemaphore_kern.

Definition addr_of (f : func) : Z :=
  match f with
  | fn_CreateSemaphore_atom => 101 | fn_DestroySemaphore_atom => 102
  | fn_WaitSemaphoreTimeoutNS_atom => 103 | fn_GetSemaphoreValue_atom => 104
  | fn_PostSemaphore_atom => 105
  | fn_CreateSemaphore_kern => 201 | fn_DestroySemaphore_kern => 202
  | fn_WaitSemaphoreTimeoutNS_kern => 203 | fn_GetSemaphoreValue_kern => 204
  | fn_PostSemaphore_kern => 205
  end.

Definition func_at (p : Z) : option func :=
  List.find (fun f => addr_of f =? p)
    [fn_CreateSemaphore_atom; fn_DestroySemaphore_atom;
     fn_WaitSemaphoreTimeoutNS_atom; fn_GetSemaphoreValue_atom;
     fn_PostSemaphore_atom;
     fn_CreateSemaphore_kern; fn_DestroySemaphore_kern;
     fn_WaitSemaphoreTimeoutNS_kern; fn_GetSemaphoreValue_kern;
     fn_PostSemaphore_kern].

Record SDL_sem_impl_t : Type := {
  Create : Z;
  Destroy : Z;
  WaitTimeoutNS : Z;
  Value : Z;
  Post : Z;
}.

Definition SDL_sem_impl_atom : SDL_sem_impl_t := {|
  Create := addr_of fn_CreateSemaphore_atom;
  Destroy := addr_of fn_DestroySemaphore_atom;
  WaitTimeoutNS := addr_of fn_WaitSemaphoreTimeoutNS_atom;
  Value := addr_of fn_GetSemaphoreValue_atom;
  Post := addr_of fn_PostSemaphore_atom;
|}.

Definition SDL_sem_impl_kern : SDL_sem_impl_t := {|
  Create := addr_of fn_CreateSemaphore_kern;
  Destroy := addr_of fn_DestroySemaphore_kern;
  WaitTimeoutNS := addr_of fn_WaitSemaphoreTimeoutNS_kern;
  Value := addr_of fn_GetSemaphoreValue_kern;
  Post := addr_of fn_PostSemaphore_kern;
|}.

(** The all-zero table [SDL_sem_impl_active] starts as. *)
Definition SDL_sem_impl_zero : SDL_sem_impl_t := {|
  Create := 0; Destroy := 0; WaitTimeoutNS := 0; Value := 0; Post := 0;
|}.

(** [impl] in SDL_CreateSemaphore points to one of the two constant tables. *)
Definition addr_SDL_sem_impl_atom : Z := 100.
Definition addr_SDL_sem_impl_kern : Z := 200.

Definition table_at (p : Z) : option SDL_sem_impl_t :=
  if p =? addr_SDL_sem_impl_atom then Some SDL_sem_impl_atom
  else if p =? addr_SDL_sem_impl_kern then Some SDL_sem_impl_kern
  else None.

(** Modelled from the spec: SDL_copyp is a macro of SDL_stdinc.h, which
    is not part of the sources at hand; the spec has the full operation
    table copied into the process-wide singleton, and the source calls it
    a copy ("Copy instead of using pointer ...").  It is the memory copy
    it is in SDL, SDL_memcpy over sizeof( *src): a run of plain stores,
    here one per field of the table, in the order of the fields. *)
Definition SDL_copyp_active (src : Z) : prog :=
  match table_at src with
  | Some t =>
      call (MemStore active_Create (Create t)) ;;;
      call (MemStore active_Destroy (Destroy t)) ;;;
      call (MemStore active_WaitTimeoutNS (WaitTimeoutNS t)) ;;;
      call (MemStore active_Value (Value t)) ;;;
      call (MemStore active_Post (Post t))
  | None => Crash
  end.

(** Calls through the pointers of the active table. *)
Definition call_Create (fp : Z) (initial_value : Z) : prog :=
  match func_at fp with
  | Some fn_CreateSemaphore_atom => SDL_CreateSemaphore_atom initial_value
  | Some fn_CreateSemaphore_kern => SDL_CreateSemaphore_kern initial_value
  | _ => Crash
  end.

Definition call_Destroy (fp : Z) (sem : Z) : prog :=
  match func_at fp with
  | Some fn_DestroySemaphore_atom => SDL_DestroySemaphore_atom sem
  | Some fn_DestroySemaphore_kern => SDL_DestroySemaphore_kern sem
  | _ => Crash
  end.

Definition call_WaitTimeoutNS (fuel : nat) (fp : Z) (sem timeoutNS : Z) : prog :=
  match func_at fp with
  | Some fn_WaitSemaphoreTimeoutNS_atom => SDL_WaitSemaphoreTimeoutNS_atom fuel sem timeoutNS
  | Some fn_WaitSemaphoreTimeoutNS_kern => SDL_WaitSemaphoreTimeoutNS_kern sem timeoutNS
  | _ => Crash
  end.

Definition call_Value (fp : Z) (sem : Z) : prog :=
  match func_at fp with
  | Some fn_GetSemaphoreValue_atom => SDL_GetSemaphoreValue_atom sem
  | Some fn_GetSemaphoreValue_kern => SDL_GetSemaphoreValue_kern sem
  | _ => Crash
  end.

Definition call_Post (fp : Z) (sem : Z) : prog :=
  match func_at fp with
  | Some fn_PostSemaphore_atom => SDL_PostSemaphore_atom sem
  | Some fn_PostSemaphore_kern => SDL_PostSemaphore_kern sem
  | _ => Crash
  end.

Definition SDL_FALSE : Z := 0.
Definition SDL_HINT_WINDOWS_FORCE_SEMAPHORE_KERNEL : string :=
  "SDL_WINDOWS_FORCE_SEMAPHORE_KERNEL".

(** The body of [if (SDL_sem_impl_active.Create == NULL) { ... }] up to
    the copy: it returns [impl]. *)
Definition choose_impl : prog :=
  (* Default to fallback implementation *)
  let impl := addr_SDL_sem_impl_kern in
  force <- call (SDL_GetHintBoolean SDL_HINT_WINDOWS_FORCE_SEMAPHORE_KERNEL SDL_FALSE) ;;
  if force =? 0 then
    synch120 <- call (GetModuleHandle "api-ms-win-core-synch-l1-2-0.dll") ;;
    if negb (synch120 =? NULL) then
      (* Try to load required functions provided by Win 8 or newer *)
      p <- call (GetProcAddress synch120 "WaitOnAddress") ;;
      call (MemStore var_pWaitOnAddress p) ;;;
      p <- call (GetProcAddress synch120 "WakeByAddressSingle") ;;
      call (MemStore var_pWakeByAddressSingle p) ;;;
      p <- call (MemLoad var_pWaitOnAddress) ;;
      if negb (p =? NULL) then
        p <- call (MemLoad var_pWakeByAddressSingle) ;;
        if negb (p =? NULL) then Ret addr_SDL_sem_impl_atom
        else Ret impl
      else Ret impl
    else Ret impl
  else Ret impl.

(** [if (SDL_sem_impl_active.Create == NULL) { ... }], the first
    statement of SDL_CreateSemaphore. *)
Definition install_impl : prog :=
  f <- call (MemLoad active_Create) ;;
  if f =? NULL then
    impl <- choose_impl ;;
    (* Copy instead of using pointer to save one level of indirection *)
    SDL_copyp_active impl
  else Ret 0.

Definition SDL_CreateSemaphore (initial_value : Z) : prog :=
  install_impl ;;;
  f <- call (MemLoad active_Create) ;;
  call_Create f initial_value.

Definition SDL_DestroySemaphore (sem : Z) : prog :=
  f <- call (MemLoad active_Destroy) ;;
  call_Destroy f sem.

Definition SDL_WaitSemaphoreTimeoutNS (fuel : nat) (sem timeoutNS : Z) : prog :=
  f <- call (MemLoad active_WaitTimeoutNS) ;;
  call_WaitTimeoutNS fuel f sem timeoutNS.

Definition SDL_GetSemaphoreValue (sem : Z) : prog :=
  f <- call (MemLoad active_Value) ;;
  call_Value f sem.

Definition SDL_PostSemaphore (sem : Z) : prog :=
  f <- call (MemLoad active_Post) ;;
  call_Post f sem.

(** ** The world a program runs in *)

(** The two structs.  A field of a block fresh from SDL_malloc holds no
    value yet ([None]). *)
Record SDL_sem_atom : Type := { atom_count : option Z }.
Record SDL_sem_kern : Type := { kern_id : option Z; kern_count : option Z }.

Inductive block : Type :=
  | BAtom (s : SDL_sem_atom)
  | BKern (s : SDL_sem_kern).

Definition fresh_block (t : ctype) : block :=
  match t with
  | T_sem_atom => BAtom {| atom_count := None |}
  | T_sem_kern => BKern {| kern_id := None; kern_count := None |}
  end.

Record World : Type := {
  heap : gmap Z block;                     (* the live SDL_malloc blocks *)
  SDL_sem_impl_active : SDL_sem_impl_t;
  g_pWaitOnAddress : Z;
  g_pWakeByAddressSingle : Z;
}.

Definition set_heap (w : World) (h : gmap Z block) : World :=
  {| heap := h;
     SDL_sem_impl_active := SDL_sem_impl_active w;
     g_pWaitOnAddress := g_pWaitOnAddress w;
     g_pWakeByAddressSingle := g_pWakeByAddressSingle w |}.

Definition set_active (w : World) (t : SDL_sem_impl_t) : World :=
  {| heap := heap w;
     SDL_sem_impl_active := t;
     g_pWaitOnAddress := g_pWaitOnAddress w;
     g_pWakeByAddressSingle := g_pWakeByAddressSingle w |}.

(** The world of a process that has not touched semaphores yet: statics
    are zero. *)
Definition World0 : World :=
  {| heap := ∅;
     SDL_sem_impl_active := SDL_sem_impl_zero;
     g_pWaitOnAddress := NULL;
     g_pWakeByAddressSingle := NULL |}.

Definition read_lval (w : World) (l : lval) : option Z :=
  match l with
  | sem_atom_count p =>
      match heap w !! p with Some (BAtom s) => atom_count s | _ => None end
  | sem_kern_id p =>
      match heap w !! p with Some (BKern s) => kern_id s | _ => None end
  | sem_kern_count p =>
      match heap w !! p with Some (BKern s) => kern_count s | _ => None end
  | active_Create => Some (Create (SDL_sem_impl_active w))
  | active_Destroy => Some (Destroy (SDL_sem_impl_active w))
  | active_WaitTimeoutNS => Some (WaitTimeoutNS (SDL_sem_impl_active w))
  | active_Value => Some (Value (SDL_sem_impl_active w))
  | active_Post => Some (Post (SDL_sem_impl_active w))
  | var_pWaitOnAddress => Some (g_pWaitOnAddress w)
  | var_pWakeByAddressSingle => Some (g_pWakeByAddressSingle w)
  end.

Definition write_lval (w : World) (l : lval) (v : Z) : option World :=
  let t := SDL_sem_impl_active w in
  match l with
  | sem_atom_count p =>
      match heap w !! p with
      | Some (BAtom s) =>
          Some (set_heap w (<[p := BAtom {| atom_count := Some v |}]> (heap w)))
      | _ => None
      end
  | sem_kern_id p =>
      match heap w !! p with
      | Some (BKern s) =>
          Some (set_heap w (<[p := BKern {| kern_id := Some v;
                                            kern_count := kern_count s |}]> (heap w)))
      | _ => None
      end
  | sem_kern_count p =>
      match heap w !! p with
      | Some (BKern s) =>
          Some (set_heap w (<[p := BKern {| kern_id := kern_id s;
                                            kern_count := Some v |}]> (heap w)))
      | _ => None
      end
  | active_Create =>
      Some (set_active w {| Create := v; Destroy := Destroy t;
             WaitTimeoutNS := WaitTimeoutNS t; Value := Value t; Post := Post t |})
  | active_Destroy =>
      Some (set_active w {| Create := Create t; Destroy := v;
             WaitTimeoutNS := WaitTimeoutNS t; Value := Value t; Post := Post t |})
  | active_WaitTimeoutNS =>
      Some (set_active w {| Create := Create t; Destroy := Destroy t;
             WaitTimeoutNS := v; Value := Value t; Post := Post t |})
  | active_Value =>
      Some (set_active w {| Create := Create t; Destroy := Destroy t;
             WaitTimeoutNS := WaitTimeoutNS t; Value := v; Post := Post t |})
  | active_Post =>
      Some (set_active w {| Create := Create t; Destroy := Destroy t;
             WaitTimeoutNS := WaitTimeoutNS t; Value := Value t; Post := v |})
  | var_pWaitOnAddress =>
      Some {| heap := heap w; SDL_sem_impl_active := t;
              g_pWaitOnAddress := v;
              g_pWakeByAddressSingle := g_pWakeByAddressSingle w |}
  | var_pWakeByAddressSingle =>
      Some {| heap := heap w; SDL_sem_impl_active := t;
              g_pWaitOnAddress := g_pWaitOnAddress w;
              g_pWakeByAddressSingle := v |}
  end.

Definition BOOL_of (e : Z) : Z := if e =? 0 then FALSE else TRUE.

(** What a call returns to the thread that makes it, when [e] is what
    the rest of the system (the OS, the allocator, the other threads)
    decides.  The three error functions always return the error result. *)
Definition answer (a : action) (e : Z) : Z :=
  match a with
  | SDL_malloc _ => e
  | SDL_free _ => 0
  | SDL_OutOfMemory | SDL_InvalidParamError _ | SDL_SetError _ => SDL_ERROR_RESULT
  | SDL_GetTicksNS => to_Uint64 e
  | SDL_GetHintBoolean _ _ => BOOL_of e
  | MemLoad _ => e
  | MemStore _ _ => 0
  | InterlockedCompareExchange _ _ _ => e
  | InterlockedIncrement _ | InterlockedDecrement _ => e
  | pWaitOnAddress _ _ _ _ => BOOL_of e
  | pWakeByAddressSingle _ => 0
  | GetLastError => to_DWORD e
  | CreateSemaphore _ _ => e
  | CloseHandle _ => BOOL_of e
  | WaitForSingleObjectEx _ _ _ => to_DWORD e
  | ReleaseSemaphore _ _ => BOOL_of e
  | GetModuleHandle _ => e
  | GetProcAddress _ _ => e
  end.

(** One call or access in a world.  [e] is the environment's say, used
    by the calls whose result the world does not fix.  [None] is a fault:
    an access outside a live block or to a field that holds no value, a
    call through a null function pointer. *)
Definition exec_action (a : action) (e : Z) (w : World) : option (Z * World) :=
  match a with
  | SDL_malloc t =>
      (* the allocator may fail at any time; a block it returns is new *)
      if negb (e =? NULL) && bool_decide (heap w !! e = None)
      then Some (e, set_heap w (<[e := fresh_block t]> (heap w)))
      else Some (NULL, w)
  | SDL_free p =>
      match heap w !! p with
      | Some _ => Some (0, set_heap w (delete p (heap w)))
      | None => None
      end
  | MemLoad l =>
      v ← read_lval w l; Some (v, w)
  | MemStore l v =>
      w' ← write_lval w l v; Some (0, w')
  | InterlockedCompareExchange l exchange comparand =>
      old ← read_lval w l;
      if old =? comparand
      then w' ← write_lval w l exchange; Some (old, w')
      else Some (old, w)
  | InterlockedIncrement l =>
      old ← read_lval w l;
      w' ← write_lval w l (to_LONG (old + 1)); Some (to_LONG (old + 1), w')
  | InterlockedDecrement l =>
      old ← read_lval w l;
      w' ← write_lval w l (to_LONG (old - 1)); Some (to_LONG (old - 1), w')
  | pWaitOnAddress l _ _ _ =>
      if g_pWaitOnAddress w =? NULL then None
      else _ ← read_lval w l; Some (answer a e, w)
  | pWakeByAddressSingle _ =>
      if g_pWakeByAddressSingle w =? NULL then None
      else Some (answer a e, w)
  | _ => Some (answer a e, w)
  end.

(** ** Running programs *)

(** One thread seen from inside: every call returns what the list says. *)
Fixpoint feed (p : prog) (answers : list Z) : list event * prog :=
  match p, answers with
  | Act a k, e :: rest =>
      let r := answer a e in
      let '(tr, q) := feed (k r) rest in
      ((a, r) :: tr, q)
  | _, _ => ([], p)
  end.

(** One thread alone in a world.  The result is the trace, the world
    reached and what is left of the program: [Ret v] when it returned
    [v], [Crash] after a fault. *)
Fixpoint run (p : prog) (env : list Z) (w : World) : list event * World * prog :=
  match p, env with
  | Act a k, e :: rest =>
      match exec_action a e w with
      | Some (r, w') =>
          let '(tr, w'', q) := run (k r) rest w' in
          ((a, r) :: tr, w'', q)
      | None => ([], w, Crash)
      end
  | _, _ => ([], w, p)
  end.

(** Several threads in one world.  A step of the schedule names the
    thread that performs its next call, and the environment's say. *)
Record sys : Type := {
  world : World;
  threads : list prog;
  log : list (nat * event);     (* thread, event: oldest first *)
}.

Definition sys_step (i : nat) (e : Z) (s : sys) : sys :=
  match threads s !! i with
  | Some (Act a k) =>
      match exec_action a e (world s) with
      | Some (r, w') =>
          {| world := w';
             threads := <[i := k r]> (threads s);
             log := log s ++ [(i, (a, r))] |}
      | None =>
          {| world := world s;
             threads := <[i := Crash]> (threads s);
             log := log s |}
      end
  | _ => s
  end.

Definition sys_exec (sched : list (nat * Z)) (s : sys) : sys :=
  fold_left (fun s ie => sys_step (fst ie) (snd ie) s) sched s.

(** ** Blocks and worlds used in the statements *)

(** A live atom semaphore whose count is [c]; a live kernel semaphore
    with handle [h] and shadow count [c]. *)
Definition atom_sem (c : Z) : block := BAtom {| atom_count := Some c |}.
Definition kern_sem (h c : Z) : block :=
  BKern {| kern_id := Some h; kern_count := Some c |}.

Arguments read_lval : simpl never.
Arguments write_lval : simpl never.
Arguments to_LONG : simpl never.
Arguments to_Uint32 : simpl never.
Arguments to_DWORD : simpl never.
Arguments to_Uint64 : simpl never.
Arguments SDL_NS_TO_MS : simpl never.

(** The first five calls of SDL_CreateSemaphore_kern once the allocation
    has succeeded, whatever handle [h] CreateSemaphore returns. *)
Definition CreateSemaphore_kern_prefix (initial_value p h : Z) : list event :=
  [(SDL_malloc T_sem_kern, p);
   (CreateSemaphore (to_LONG initial_value) 32768, h);
   (MemStore (sem_kern_id p) h, 0);
   (MemStore (sem_kern_count p) (to_LONG initial_value), 0);
   (MemLoad (sem_kern_id p), h)].


(** The calls that can block the calling thread. *)
Definition is_wait_call (a : action) : bool :=
  match a with
  | pWaitOnAddress _ _ _ _ | WaitForSingleObjectEx _ _ _ => true
  | _ => false
  end.

(** A process in which the atom implementation is installed and no
    semaphore is live yet. *)
Definition World_atom : World :=
  {| heap := ∅;
     SDL_sem_impl_active := SDL_sem_impl_atom;
     g_pWaitOnAddress := 7001;
     g_pWakeByAddressSingle := 7002 |}.

(** The same with two live semaphores: an atom one at 500 with count 3
    and (for the statements about the kernel functions) a kernel one at
    600 with handle 77 and count 2. *)
Definition World1 : World :=
  set_heap World_atom (<[600 := kern_sem 77 2]> (<[500 := atom_sem 3]> ∅)).

(** The budget of the kernel wait as the specification words it:
    negative to infinite, zero to an immediate poll (0 ms), positive to
    the milliseconds the nanoseconds round to. *)
Definition spec_wait_budget (timeoutNS : Z) : Z :=
  if timeoutNS <? 0 then INFINITE else SDL_NS_TO_MS timeoutNS.

(** The budget a run waited with: dwMilliseconds of its first
    WaitForSingleObjectEx call. *)
Fixpoint wait_budget_of (tr : list event) : option Z :=
  match tr with
  | [] => None
  | (WaitForSingleObjectEx _ dwMilliseconds _, _) :: _ => Some dwMilliseconds
  | _ :: tr' => wait_budget_of tr'
  end.

(** ** The retry loop of the timed wait, as the specification words it

    What may follow the event [prev] in the loop of a timed wait with
    the absolute deadline [deadline] ([None]: the loop starts):
    - the loop starts, and starts again after a lost exchange, with a
      reading of the count;
    - a count of 0 is followed by a reading of the clock, any other count
      by the exchange to that count minus one;
    - a reading of the clock that finds the deadline in the future is
      followed by the block, whose budget is what is left to the deadline;
      one that does not is followed by nothing;
    - a block that fails is followed by GetLastError, one that succeeds
      by a new reading of the count;
    - GetLastError is followed by SDL_SetError unless it said
      ERROR_TIMEOUT, and then by nothing;
    - nothing follows SDL_SetError or an exchange that took place. *)
Definition follows_ok (sem deadline : Z) (prev : option event) (ev : event) : Prop :=
  match prev with
  | None => exists count, ev = (MemLoad (sem_atom_count sem), count)
  | Some (MemLoad _, count) =>
      if count =? 0 then exists now, ev = (SDL_GetTicksNS, now)
      else exists old,
        ev = (InterlockedCompareExchange (sem_atom_count sem)
                (to_LONG (count - 1)) count, old)
  | Some (SDL_GetTicksNS, now) =>
      now < deadline /\
      exists ok,
        ev = (pWaitOnAddress (sem_atom_count sem) 0 sizeof_LONG
                (to_DWORD (SDL_NS_TO_MS (deadline - now))), ok)
  | Some (pWaitOnAddress _ _ _ _, ok) =>
      if ok =? FALSE then exists err, ev = (GetLastError, err)
      else exists count, ev = (MemLoad (sem_atom_count sem), count)
  | Some (GetLastError, err) =>
      err <> ERROR_TIMEOUT /\
      ev = (SDL_SetError "WaitOnAddress() failed", SDL_ERROR_RESULT)
  | Some (InterlockedCompareExchange _ _ comparand, old) =>
      old <> comparand /\
      exists count, ev = (MemLoad (sem_atom_count sem), count)
  | Some _ => False
  end.

(** What a program does next: a call, or a return. *)
Inductive outcome : Type :=
  | Calls (a : action)
  | Returns (v : Z).

Definition status (q : prog) : option outcome :=
  match q with
  | Act a _ => Some (Calls a)
  | Ret v => Some (Returns v)
  | Spin | Crash => None
  end.

(** What the timed wait does right after the event [prev] ([None]: the
    loop starts), as the specification words it: the same loop as the
    wait without a deadline (read the count; block while it is 0;
    exchange it for one less; start again when the exchange is lost),
    with, before each block, the clock read again and the budget
    recomputed from [deadline - now]; TimedOut at once when the budget
    is exhausted, TimedOut when the block reports a timeout, and the
    error of SDL_SetError on any other failure of the block. *)
Definition timed_next (sem deadline : Z) (prev : option event) : outcome :=
  match prev with
  | None => Calls (MemLoad (sem_atom_count sem))
  | Some (MemLoad _, count) =>
      if count =? 0 then Calls SDL_GetTicksNS
      else Calls (InterlockedCompareExchange (sem_atom_count sem)
                    (to_LONG (count - 1)) count)
  | Some (SDL_GetTicksNS, now) =>
      if deadline >? now
      then Calls (pWaitOnAddress (sem_atom_count sem) 0 sizeof_LONG
                    (to_DWORD (SDL_NS_TO_MS (deadline - now))))
      else Returns SDL_MUTEX_TIMEDOUT
  | Some (pWaitOnAddress _ _ _ _, ok) =>
      if ok =? FALSE then Calls GetLastError
      else Calls (MemLoad (sem_atom_count sem))
  | Some (GetLastError, err) =>
      if err =? ERROR_TIMEOUT then Returns SDL_MUTEX_TIMEDOUT
      else Calls (SDL_SetError "WaitOnAddress() failed")
  | Some (InterlockedCompareExchange _ _ comparand, old) =>
      if old =? comparand then Returns 0
      else Calls (MemLoad (sem_atom_count sem))
  | Some (SDL_SetError _, r) => Returns r
  | Some _ => Returns 0   (* no other call is made *)
  end.

(** The points where the model of the loop can be found out of fuel:
    where [for (;;)] and [while (count == 0)] are entered. *)
Definition spin_point (prev : option event) : Prop :=
  match prev with
  | None => True
  | Some (MemLoad _, count) => count = 0
  | Some (InterlockedCompareExchange _ _ comparand, old) => old <> comparand
  | Some _ => False
  end.

(** What is left of the wait when the event [prev] is the last one so
    far: it does what [timed_next] says, unless the model is out of
    fuel. *)
Definition rest_ok (sem deadline : Z) (prev : option event) (q : prog) : Prop :=
  status q = Some (timed_next sem deadline prev) \/
  (q = Spin /\ spin_point prev).

Fixpoint timed_ok (sem deadline : Z) (prev : option event) (tr : list event)
    (q : prog) : Prop :=
  match tr with
  | [] => rest_ok sem deadline prev q
  | ev :: tr' =>
      follows_ok sem deadline prev ev /\ timed_ok sem deadline (Some ev) tr' q
  end.

(** The event before [ev] in [pre ++ ev :: post], [prev] when [pre] is
    empty. *)
Definition before (prev : option event) (pre : list event) : option event :=
  match last pre with
  | Some ev => Some ev
  | None => prev
  end.

(** The traces of a program [p] entered right after [prev] follow the
    loop. *)
Definition traces_ok (sem deadline : Z) (prev : option event) (p : prog) : Prop :=
  forall answers, timed_ok sem deadline prev
                    (feed p answers).1 (feed p answers).2.

(** The loop starts at [None] and after an exchange that was lost. *)
Definition loop_entry (prev : option event) : Prop :=
  prev = None \/
  exists l exchange comparand old,
    prev = Some (InterlockedCompareExchange l exchange comparand, old) /\
    old <> comparand.

(** The budget of the first block of a run: dwMilliseconds of its first
    pWaitOnAddress call. *)
Fixpoint block_budget_of (tr : list event) : option Z :=
  match tr with
  | [] => None
  | (pWaitOnAddress _ _ _ dwMilliseconds, _) :: _ => Some dwMilliseconds
  | _ :: tr' => block_budget_of tr'
  end.

(** The remaining budget as the specification words it: what is left to
    the deadline, [deadline - now], in the milliseconds the wait
    facility counts in. *)
Definition spec_remaining_budget (deadline now : Z) : Z :=
  SDL_NS_TO_MS (deadline - now).

(** ** Threads that use one atom semaphore *)

(** A client of the semaphore [sem]: a thread that makes any number of
    SDL_WaitSemaphoreTimeoutNS_atom (any timeout), SDL_PostSemaphore_atom
    and SDL_GetSemaphoreValue_atom calls on it, each one chosen from the
    results of the calls before. *)
Inductive client (sem : Z) : prog -> Prop :=
  | client_done (v : Z) : client sem (Ret v)
  | client_wait (fuel : nat) (timeoutNS : Z) (k : Z -> prog) :
      (forall r, client sem (k r)) ->
      client sem (r <- SDL_WaitSemaphoreTimeoutNS_atom fuel sem timeoutNS ;; k r)
  | client_post (k : Z -> prog) :
      (forall r, client sem (k r)) ->
      client sem (r <- SDL_PostSemaphore_atom sem ;; k r)
  | client_value (k : Z -> prog) :
      (forall r, client sem (k r)) ->
      client sem (r <- SDL_GetSemaphoreValue_atom sem ;; k r).

(** The posts in a log: the InterlockedIncrement calls on the count. *)
Definition is_post (sem : Z) (ev : event) : bool :=
  match ev.1 with
  | InterlockedIncrement l => bool_decide (l = sem_atom_count sem)
  | _ => false
  end.

(** The acquisitions in a log: the InterlockedCompareExchange calls on
    the count that took place (they returned their comparand). *)
Definition is_acquire (sem : Z) (ev : event) : bool :=
  match ev with
  | (InterlockedCompareExchange l _ comparand, old) =>
      bool_decide (l = sem_atom_count sem) && (old =? comparand)
  | _ => false
  end.

Definition count_log (f : event -> bool) (lg : list (nat * event)) : Z :=
  Z.of_nat (length (List.filter (fun x => f x.2) lg)).

Definition posts (sem : Z) (lg : list (nat * event)) : Z :=
  count_log (is_post sem) lg.
Definition acquired (sem : Z) (lg : list (nat * event)) : Z :=
  count_log (is_acquire sem) lg.

(** What the clients do to memory: they increment the count of [sem],
    or exchange a value of it that is not 0 for that value minus one.
    They neither store, nor decrement, nor allocate or free. *)
Definition polite (sem : Z) (a : action) : Prop :=
  match a with
  | SDL_malloc _ | SDL_free _ => False
  | MemStore _ _ | InterlockedDecrement _ => False
  | InterlockedIncrement l => l = sem_atom_count sem
  | InterlockedCompareExchange l exchange comparand =>
      l = sem_atom_count sem /\
      comparand <> 0 /\ exchange = to_LONG (comparand - 1)
  | _ => True
  end.

(** What one call does to the count [c] of [sem]: [c'] is the count
    after it. *)
Definition count_step (sem : Z) (ev : event) (c c' : Z) : Prop :=
  (is_post sem ev = true /\ is_acquire sem ev = false /\
   c' = to_LONG (c + 1)) \/
  (is_post sem ev = false /\ is_acquire sem ev = true /\
   c <> 0 /\ c' = to_LONG (c - 1)) \/
  (is_post sem ev = false /\ is_acquire sem ev = false /\ c' = c).

Inductive safe (sem : Z) : prog -> Prop :=
  | safe_Ret (v : Z) : safe sem (Ret v)
  | safe_Spin : safe sem Spin
  | safe_Crash : safe sem Crash
  | safe_Act (a : action) (k : Z -> prog) :
      polite sem a -> (forall r, safe sem (k r)) -> safe sem (Act a k).

(** The state of a system whose threads use the semaphore [sem], created
    with the value [V]: the count is [V] plus the posts minus the
    acquisitions so far, and this number is not negative. *)
Definition count_inv (sem V : Z) (s : sys) : Prop :=
  let N := V + posts sem (log s) - acquired sem (log s) in
  0 <= N /\
  heap (world s) !! sem = Some (atom_sem (to_LONG N)) /\
  Forall (safe sem) (threads s) /\
  Forall (fun x : nat * event => polite sem x.2.1) (log s).

(** ** The active table *)

Definition table_lval (l : lval) : bool :=
  match l with
  | active_Create | active_Destroy | active_WaitTimeoutNS
  | active_Value | active_Post => true
  | _ => false
  end.

(** The calls that can change the active table. *)
Definition writes_table (a : action) : bool :=
  match a with
  | MemStore l _ | InterlockedCompareExchange l _ _
  | InterlockedIncrement l | InterlockedDecrement l => table_lval l
  | _ => false
  end.

(** The atomic read-modify-write calls. *)
Definition is_interlocked (a : action) : bool :=
  match a with
  | InterlockedCompareExchange _ _ _
  | InterlockedIncrement _ | InterlockedDecrement _ => true
  | _ => false
  end.

Inductive keeps_table : prog -> Prop :=
  | keeps_Ret (v : Z) : keeps_table (Ret v)
  | keeps_Spin : keeps_table Spin
  | keeps_Crash : keeps_table Crash
  | keeps_Act (a : action) (k : Z -> prog) :
      writes_table a = false -> (forall r, keeps_table (k r)) ->
      keeps_table (Act a k).

(** A program that leaves an installed table alone: it does not write
    the table, except that what it does after reading a null Create field
    is free (with a table installed it never reads one). *)
Inductive stable : prog -> Prop :=
  | stable_Ret (v : Z) : stable (Ret v)
  | stable_Spin : stable Spin
  | stable_Crash : stable Crash
  | stable_check (k : Z -> prog) :
      (forall r, r <> NULL -> stable (k r)) ->
      stable (Act (MemLoad active_Create) k)
  | stable_Act (a : action) (k : Z -> prog) :
      writes_table a = false -> (forall r, stable (k r)) ->
      stable (Act a k).

(** A thread of an application: any number of calls of the five public
    functions, with any arguments, each one chosen from the results of
    the calls before. *)
Inductive caller : prog -> Prop :=
  | caller_done (v : Z) : caller (Ret v)
  | caller_Create (V : Z) (k : Z -> prog) :
      (forall r, caller (k r)) -> caller (r <- SDL_CreateSemaphore V ;; k r)
  | caller_Destroy (sem : Z) (k : Z -> prog) :
      (forall r, caller (k r)) -> caller (r <- SDL_DestroySemaphore sem ;; k r)
  | caller_Wait (fuel : nat) (sem timeoutNS : Z) (k : Z -> prog) :
      (forall r, caller (k r)) ->
      caller (r <- SDL_WaitSemaphoreTimeoutNS fuel sem timeoutNS ;; k r)
  | caller_Value (sem : Z) (k : Z -> prog) :
      (forall r, caller (k r)) -> caller (r <- SDL_GetSemaphoreValue sem ;; k r)
  | caller_Post (sem : Z) (k : Z -> prog) :
      (forall r, caller (k r)) -> caller (r <- SDL_PostSemaphore sem ;; k r).

(** The table is installed: it is one of the two constant tables. *)
Definition installed (w : World) : Prop :=
  SDL_sem_impl_active w = SDL_sem_impl_atom \/
  SDL_sem_impl_active w = SDL_sem_impl_kern.

(** Two threads race on the first use of semaphores: thread 0 calls
    SDL_CreateSemaphore(1); thread 1 calls SDL_CreateSemaphore(0) and
    posts to the semaphore it gets. *)
Definition race_threads : list prog :=
  [SDL_CreateSemaphore 1;
   (sem <- SDL_CreateSemaphore 0 ;; SDL_PostSemaphore sem)].

(** Thread 0 finds the table empty, resolves the two functions, chooses
    the atom table and stores its first field.  Then thread 1 runs: it
    finds Create set, creates its semaphore at 500 and posts to it. *)
Definition race_sched : list (nat * Z) :=
  [(0%nat, 0);      (* SDL_sem_impl_active.Create == NULL *)
   (0%nat, 0);      (* the hint does not force the kernel implementation *)
   (0%nat, 9000);   (* GetModuleHandle *)
   (0%nat, 7001);   (* GetProcAddress: WaitOnAddress *)
   (0%nat, 0);
   (0%nat, 7002);   (* GetProcAddress: WakeByAddressSingle *)
   (0%nat, 0);
   (0%nat, 0); (0%nat, 0);   (* pWaitOnAddress && pWakeByAddressSingle *)
   (0%nat, 0);      (* the copy stores Create ... *)
   (1%nat, 0);      (* thread 1: SDL_sem_impl_active.Create != NULL *)
   (1%nat, 0);      (* SDL_sem_impl_active.Create(0) *)
   (1%nat, 500);    (* SDL_malloc *)
   (1%nat, 0);      (* sem->count = 0 *)
   (1%nat, 0)].     (* SDL_sem_impl_active.Post(sem) *)

(** A second race.  Thread 0 creates a semaphore and posts to it;
    thread 1 creates a semaphore.  Both find the table empty before
    either fills it. *)
Definition race2_threads : list prog :=
  [(sem <- SDL_CreateSemaphore 1 ;; SDL_PostSemaphore sem);
   SDL_CreateSemaphore 0].

(** Both threads read Create == NULL; thread 0 then runs its whole
    installation, with the atom table, and creates its semaphore at 500. *)
Definition race2_sched_install : list (nat * Z) :=
  [(0%nat, 0);      (* thread 0: SDL_sem_impl_active.Create == NULL *)
   (1%nat, 0);      (* thread 1: SDL_sem_impl_active.Create == NULL *)
   (0%nat, 0);      (* the hint does not force the kernel implementation *)
   (0%nat, 9000);   (* GetModuleHandle *)
   (0%nat, 7001); (0%nat, 0);   (* pWaitOnAddress = GetProcAddress(...) *)
   (0%nat, 7002); (0%nat, 0);   (* pWakeByAddressSingle = GetProcAddress(...) *)
   (0%nat, 0); (0%nat, 0);      (* pWaitOnAddress && pWakeByAddressSingle *)
   (0%nat, 0); (0%nat, 0); (0%nat, 0); (0%nat, 0); (0%nat, 0);  (* the copy *)
   (0%nat, 0);      (* SDL_sem_impl_active.Create(1) *)
   (0%nat, 500);    (* SDL_malloc *)
   (0%nat, 0)].     (* sem->count = 1 *)

(** Thread 1 goes on from its reading of Create: the hint now forces the
    kernel implementation, and it copies the kernel table, whole, over the
    installed one and creates its semaphore at 600.  Thread 0 then posts
    to its semaphore. *)
Definition race2_sched_overwrite : list (nat * Z) :=
  [(1%nat, 1);      (* the hint forces the kernel implementation *)
   (1%nat, 0); (1%nat, 0); (1%nat, 0); (1%nat, 0); (1%nat, 0);  (* the copy *)
   (1%nat, 0);      (* SDL_sem_impl_active.Create(0) *)
   (1%nat, 600);    (* SDL_malloc *)
   (1%nat, 77);     (* CreateSemaphore *)
   (1%nat, 0); (1%nat, 0); (1%nat, 0);
   (0%nat, 0);      (* thread 0: SDL_sem_impl_active.Post(sem) *)
   (0%nat, 0)].     (* InterlockedIncrement(&sem->count), by the kernel post *)

(** ** What a program does on every path *)

(** Every call of the program satisfies [P], and every value it returns
    satisfies [R], whatever its calls answer. *)
Inductive always (P : action -> Prop) (R : Z -> Prop) : prog -> Prop :=
  | always_Ret (v : Z) : R v -> always P R (Ret v)
  | always_Spin : always P R Spin
  | always_Crash : always P R Crash
  | always_Act (a : action) (k : Z -> prog) :
      P a -> (forall e, always P R (k (answer a e))) -> always P R (Act a k).

(** The acquisitions in the trace of one thread. *)
Definition acquisitions (sem : Z) (tr : list event) : nat :=
  length (List.filter (is_acquire sem) tr).

(** 1 when the program has returned 0, 0 otherwise. *)
Definition returned_0 (q : prog) : nat :=
  match q with
  | Ret v => if v =? 0 then 1%nat else 0%nat
  | _ => 0%nat
  end.

(** The calls that probe the system for the implementation to use. *)
Definition is_probe (a : action) : bool :=
  match a with
  | SDL_GetHintBoolean _ _ | GetModuleHandle _ | GetProcAddress _ _ => true
  | _ => false
  end.

(** The calls of an infinite wait on [sem]. *)
Definition infinite_wait_call (sem : Z) (a : action) : Prop :=
  a = MemLoad (sem_atom_count sem) \/
  a = pWaitOnAddress (sem_atom_count sem) 0 sizeof_LONG INFINITE \/
  a = SDL_SetError "WaitOnAddress() failed" \/
  exists count, count <> 0 /\
    a = InterlockedCompareExchange (sem_atom_count sem)
          (to_LONG (count - 1)) count.

(** [n] posts in a row, then the value. *)
Fixpoint post_n (n : nat) (sem : Z) : prog :=
  match n with
  | O => SDL_GetSemaphoreValue_atom sem
  | S n' => SDL_PostSemaphore_atom sem ;;; post_n n' sem
  end.

(** A program that takes one unit of [sem] exactly when it returns 0:
    whatever its calls answer, the acquisitions in its trace are 1 when
    it has returned 0 and 0 otherwise. *)
Definition acq_ok (sem : Z) (p : prog) : Prop :=
  forall answers,
    acquisitions sem (feed p answers).1 = returned_0 (feed p answers).2.

(** A program that, run alone in the world [w], leaves it as it is and
    never returns 0. *)
Definition idle (w : World) (p : prog) : Prop :=
  forall env,
    (run p env w).1.2 = w /\ (forall v, (run p env w).2 = Ret v -> v <> 0).

(** A run that starts with the event [ev] and goes on as [r]. *)
Definition after (ev : event) (r : list event * World * prog) :
    list event * World * prog :=
  (ev :: r.1.1, r.1.2, r.2).


(** The stores into the two function pointers. *)
Definition stores_pointer (a : action) : bool :=
  match a with
  | MemStore var_pWaitOnAddress _ | MemStore var_pWakeByAddressSingle _ => true
  | _ => false
  end.

(** A call that takes no part in the selection: it neither probes the
    system, nor writes the table, nor assigns a function pointer. *)
Definition quiet (a : action) : Prop :=
  is_probe a = false /\ writes_table a = false /\ stores_pointer a = false.

(** The calls of the fast implementation on the semaphore [sem]: they
    reach memory at the count of [sem] only. *)
Definition gentle (sem : Z) (a : action) : Prop :=
  match a with
  | MemLoad l | InterlockedIncrement l | InterlockedCompareExchange l _ _
  | pWaitOnAddress l _ _ _ => l = sem_atom_count sem
  | pWakeByAddressSingle _ | SDL_InvalidParamError _ | SDL_SetError _
  | SDL_GetTicksNS | GetLastError => True
  | _ => False
  end.

(** A program that has not faulted and whose calls, now and later, are
    all gentle. *)
Inductive faultless (sem : Z) : prog -> Prop :=
  | faultless_Ret (v : Z) : faultless sem (Ret v)
  | faultless_Spin : faultless sem Spin
  | faultless_Act (a : action) (k : Z -> prog) :
      gentle sem a -> (forall r, faultless sem (k r)) -> faultless sem (Act a k).

(** The state of a system whose threads use the live semaphore [sem] of
    the fast implementation, started in the world [w0]: the semaphore
    is still there, and the rest of the world is as in [w0]. *)
Definition live (sem : Z) (w0 : World) (s : sys) : Prop :=
  (exists c, heap (world s) !! sem = Some (atom_sem c)) /\
  (forall p, p <> sem -> heap (world s) !! p = heap w0 !! p) /\
  SDL_sem_impl_active (world s) = SDL_sem_impl_active w0 /\
  g_pWaitOnAddress (world s) = g_pWaitOnAddress w0 /\
  g_pWakeByAddressSingle (world s) = g_pWakeByAddressSingle w0 /\
  Forall (faultless sem) (threads s).

(** * Properties *)

(** ** Machine arithmetic *)

Lemma to_Uint32_to_LONG (z : Z) : to_Uint32 (to_LONG z) = to_Uint32 z.
Proof.
  unfold to_Uint32, to_LONG.
  rewrite Zminus_mod_idemp_l.
  replace (z + 2 ^ 31 - 2 ^ 31) with z by lia. reflexivity.
Qed.

Lemma to_Uint32_id (z : Z) : is_Uint32 z -> to_Uint32 z = z.
Proof. unfold is_Uint32, to_Uint32. intros. apply Z.mod_small. lia. Qed.

Lemma to_LONG_id (z : Z) : is_LONG z -> to_LONG z = z.
Proof.
  unfold is_LONG, LONG_MIN, LONG_MAX, to_LONG. intros.
  rewrite Z.mod_small by lia. lia.
Qed.

Lemma to_LONG_is_LONG (z : Z) : is_LONG (to_LONG z).
Proof.
  unfold is_LONG, LONG_MIN, LONG_MAX, to_LONG.
  pose proof (Z.mod_pos_bound (z + 2 ^ 31) (2 ^ 32)). lia.
Qed.

Lemma to_LONG_add_l (a b : Z) : to_LONG (to_LONG a + b) = to_LONG (a + b).
Proof.
  unfold to_LONG. f_equal.
  replace ((a + 2 ^ 31) mod 2 ^ 32 - 2 ^ 31 + b + 2 ^ 31)
    with ((a + 2 ^ 31) mod 2 ^ 32 + b) by lia.
  rewrite Zplus_mod_idemp_l. f_equal. lia.
Qed.

(** Adding one to a LONG adds one to it or, at LONG_MAX where the LONG
    wraps, to the Uint32 it is read as. *)
Lemma to_LONG_succ (c : Z) :
  is_LONG c ->
  to_LONG (c + 1) = c + 1 \/ to_Uint32 (to_LONG (c + 1)) = to_Uint32 c + 1.
Proof.
  unfold is_LONG, LONG_MIN, LONG_MAX. intros H.
  destruct (decide (c = 2 ^ 31 - 1)) as [->|Hne].
  - right. vm_compute. reflexivity.
  - left. apply to_LONG_id. unfold is_LONG, LONG_MIN, LONG_MAX. lia.
Qed.

Lemma to_LONG_inc_dec (c : Z) : is_LONG c -> to_LONG (to_LONG (c + 1) - 1) = c.
Proof.
  intros H. replace (to_LONG (c + 1) - 1) with (to_LONG (c + 1) + -1) by lia.
  rewrite to_LONG_add_l. replace (c + 1 + -1) with c by lia.
  by apply to_LONG_id.
Qed.

(** ** Reading and writing the world *)

Lemma set_heap_same (w : World) : set_heap w (heap w) = w.
Proof. by destruct w. Qed.

Lemma read_atom_count w sem c :
  heap w !! sem = Some (BAtom {| atom_count := Some c |}) ->
  read_lval w (sem_atom_count sem) = Some c.
Proof. unfold read_lval. by intros ->. Qed.

Lemma write_atom_count w sem s v :
  heap w !! sem = Some (BAtom s) ->
  write_lval w (sem_atom_count sem) v
  = Some (set_heap w (<[sem := BAtom {| atom_count := Some v |}]> (heap w))).
Proof. unfold write_lval. by intros ->. Qed.

Lemma read_kern_count w sem i c :
  heap w !! sem = Some (BKern {| kern_id := i; kern_count := Some c |}) ->
  read_lval w (sem_kern_count sem) = Some c.
Proof. unfold read_lval. by intros ->. Qed.

Lemma read_kern_id w sem h c :
  heap w !! sem = Some (BKern {| kern_id := Some h; kern_count := c |}) ->
  read_lval w (sem_kern_id sem) = Some h.
Proof. unfold read_lval. by intros ->. Qed.

Lemma write_kern_count w sem s v :
  heap w !! sem = Some (BKern s) ->
  write_lval w (sem_kern_count sem) v
  = Some (set_heap w (<[sem := BKern {| kern_id := kern_id s;
                                         kern_count := Some v |}]> (heap w))).
Proof. unfold write_lval. by intros ->. Qed.

Lemma write_kern_id w sem s v :
  heap w !! sem = Some (BKern s) ->
  write_lval w (sem_kern_id sem) v
  = Some (set_heap w (<[sem := BKern {| kern_id := Some v;
                                         kern_count := kern_count s |}]> (heap w))).
Proof. unfold write_lval. by intros ->. Qed.

Lemma heap_set_heap w h : heap (set_heap w h) = h.
Proof. reflexivity. Qed.

Lemma set_heap_set_heap w h h' : set_heap (set_heap w h) h' = set_heap w h'.
Proof. reflexivity. Qed.

Ltac nonnull sem :=
  let H := fresh in
  destruct (Z.eqb_spec sem NULL) as [H|H]; [congruence|clear H].

(** ** GetValue *)

Lemma GetSemaphoreValue_atom_run sem c e env w :
  sem <> NULL ->
  heap w !! sem = Some (BAtom {| atom_count := Some c |}) ->
  run (SDL_GetSemaphoreValue_atom sem) (e :: env) w
  = ([(MemLoad (sem_atom_count sem), c)], w, Ret (to_Uint32 c)).
Proof.
  intros Hs Hr. unfold SDL_GetSemaphoreValue_atom. nonnull sem.
  cbn. by rewrite (read_atom_count _ _ _ Hr).
Qed.

Lemma GetSemaphoreValue_kern_run sem i c e env w :
  sem <> NULL ->
  heap w !! sem = Some (BKern {| kern_id := i; kern_count := Some c |}) ->
  run (SDL_GetSemaphoreValue_kern sem) (e :: env) w
  = ([(MemLoad (sem_kern_count sem), c)], w, Ret (to_Uint32 c)).
Proof.
  intros Hs Hr. unfold SDL_GetSemaphoreValue_kern. nonnull sem.
  cbn. by rewrite (read_kern_count _ _ _ _ Hr).
Qed.


(** ** Create *)

Lemma malloc_ok (p : Z) (w : World) (t : ctype) :
  p <> NULL -> heap w !! p = None ->
  exec_action (SDL_malloc t) p w
  = Some (p, set_heap w (<[p := fresh_block t]> (heap w))).
Proof.
  intros Hp Hf. unfold exec_action.
  destruct (Z.eqb_spec p NULL); [done|].
  by rewrite bool_decide_eq_true_2.
Qed.

Lemma malloc_fail (p : Z) (w : World) (t : ctype) :
  p = NULL \/ heap w !! p <> None ->
  exec_action (SDL_malloc t) p w = Some (NULL, w).
Proof.
  intros H. unfold exec_action.
  destruct (Z.eqb_spec p NULL); [done|].
  destruct H; [done|]. by rewrite bool_decide_eq_false_2.
Qed.

Lemma CreateSemaphore_atom_run (initial_value p e : Z) (env : list Z) (w : World) :
  p <> NULL -> heap w !! p = None ->
  run (SDL_CreateSemaphore_atom initial_value) (p :: e :: env) w
  = ([(SDL_malloc T_sem_atom, p);
      (MemStore (sem_atom_count p) (to_LONG initial_value), 0)],
     set_heap w (<[p := atom_sem (to_LONG initial_value)]> (heap w)),
     Ret p).
Proof.
  intros Hp Hf. unfold SDL_CreateSemaphore_atom.
  cbn [run bind call]. rewrite malloc_ok by done.
  nonnull p. cbn [negb run bind call exec_action].
  erewrite write_atom_count by (cbn; apply lookup_insert_eq).
  cbn. by rewrite insert_insert_eq.
Qed.

Lemma CreateSemaphore_atom_oom (initial_value p e : Z) (env : list Z) (w : World) :
  p = NULL \/ heap w !! p <> None ->
  run (SDL_CreateSemaphore_atom initial_value) (p :: e :: env) w
  = ([(SDL_malloc T_sem_atom, NULL); (SDL_OutOfMemory, SDL_ERROR_RESULT)],
     w, Ret NULL).
Proof.
  intros H. unfold SDL_CreateSemaphore_atom.
  cbn [run bind call]. by rewrite malloc_fail.
Qed.

Lemma CreateSemaphore_kern_oom (initial_value p e : Z) (env : list Z) (w : World) :
  p = NULL \/ heap w !! p <> None ->
  run (SDL_CreateSemaphore_kern initial_value) (p :: e :: env) w
  = ([(SDL_malloc T_sem_kern, NULL); (SDL_OutOfMemory, SDL_ERROR_RESULT)],
     w, Ret NULL).
Proof.
  intros H. unfold SDL_CreateSemaphore_kern.
  cbn [run bind call]. by rewrite malloc_fail.
Qed.

Lemma CreateSemaphore_kern_run (initial_value p h e1 e2 e3 : Z) (env : list Z) (w : World) :
  p <> NULL -> heap w !! p = None -> h <> NULL ->
  run (SDL_CreateSemaphore_kern initial_value) (p :: h :: e1 :: e2 :: e3 :: env) w
  = (CreateSemaphore_kern_prefix initial_value p h,
     set_heap w (<[p := kern_sem h (to_LONG initial_value)]> (heap w)),
     Ret p).
Proof.
  intros Hp Hf Hh. unfold SDL_CreateSemaphore_kern.
  cbn [run bind call]. rewrite malloc_ok by done.
  nonnull p. cbn [negb run bind call exec_action answer].
  erewrite write_kern_id by (cbn; apply lookup_insert_eq).
  cbn [mbind option_bind run bind]. 
  erewrite write_kern_count by (cbn; apply lookup_insert_eq).
  cbn [mbind option_bind run bind kern_id kern_count].
  erewrite read_kern_id by (cbn; apply lookup_insert_eq).
  cbn [mbind option_bind run bind].
  nonnull h. cbn. by rewrite !insert_insert_eq.
Qed.

Lemma CreateSemaphore_kern_nohandle (initial_value p e1 e2 e3 e4 e5 : Z)
    (env : list Z) (w : World) :
  p <> NULL -> heap w !! p = None ->
  run (SDL_CreateSemaphore_kern initial_value)
      (p :: NULL :: e1 :: e2 :: e3 :: e4 :: e5 :: env) w
  = (CreateSemaphore_kern_prefix initial_value p NULL ++
     [(SDL_SetError "Couldn't create semaphore", SDL_ERROR_RESULT);
      (SDL_free p, 0)],
     w, Ret NULL).
Proof.
  intros Hp Hf. unfold SDL_CreateSemaphore_kern.
  cbn [run bind call]. rewrite malloc_ok by done.
  nonnull p. cbn [negb run bind call exec_action answer].
  erewrite write_kern_id by (cbn; apply lookup_insert_eq).
  cbn [mbind option_bind run bind]. 
  erewrite write_kern_count by (cbn; apply lookup_insert_eq).
  cbn [mbind option_bind run bind kern_id kern_count].
  erewrite read_kern_id by (cbn; apply lookup_insert_eq).
  cbn [mbind option_bind run bind Z.eqb NULL call exec_action answer].
  rewrite !heap_set_heap, !insert_insert_eq, lookup_insert_eq.
  cbn. rewrite !set_heap_set_heap, delete_insert_id by done.
  by rewrite set_heap_same.
Qed.

(** C8. SDL_CreateSemaphore_kern allocates the struct, calls
    CreateSemaphore with the initial value and the maximum 32 * 1024 =
    32768, and stores the initial value in the shadow count.  When the
    allocation fails it calls SDL_OutOfMemory and returns NULL.  When
    CreateSemaphore returns no handle it calls SDL_SetError, frees the
    struct (the world is as before the call) and returns NULL.  Otherwise
    it returns the struct, which holds the handle; so a semaphore it
    returns always has a handle. *)
Theorem CreateSemaphore_kern_correct (initial_value p h e1 e2 e3 e4 e5 : Z)
    (env : list Z) (w : World) :
  let r := run (SDL_CreateSemaphore_kern initial_value)
               (p :: h :: e1 :: e2 :: e3 :: e4 :: e5 :: env) w in
  (p = NULL \/ heap w !! p <> None ->
   r = ([(SDL_malloc T_sem_kern, NULL); (SDL_OutOfMemory, SDL_ERROR_RESULT)],
        w, Ret NULL)) /\
  (p <> NULL -> heap w !! p = None -> h = NULL ->
   r = ([(SDL_malloc T_sem_kern, p);
         (CreateSemaphore (to_LONG initial_value) 32768, NULL);
         (MemStore (sem_kern_id p) NULL, 0);
         (MemStore (sem_kern_count p) (to_LONG initial_value), 0);
         (MemLoad (sem_kern_id p), NULL);
         (SDL_SetError "Couldn't create semaphore", SDL_ERROR_RESULT);
         (SDL_free p, 0)],
        w, Ret NULL)) /\
  (p <> NULL -> heap w !! p = None -> h <> NULL ->
   r = ([(SDL_malloc T_sem_kern, p);
         (CreateSemaphore (to_LONG initial_value) 32768, h);
         (MemStore (sem_kern_id p) h, 0);
         (MemStore (sem_kern_count p) (to_LONG initial_value), 0);
         (MemLoad (sem_kern_id p), h)],
        set_heap w (<[p := kern_sem h (to_LONG initial_value)]> (heap w)),
        Ret p)) /\
  (forall sem, r.2 = Ret sem -> sem <> NULL ->
     exists id, id <> NULL /\
       heap r.1.2 !! sem = Some (kern_sem id (to_LONG initial_value))).
Proof.
  intros r. subst r.
  split; [|split; [|split]].
  - intros H. by apply CreateSemaphore_kern_oom.
  - intros Hp Hf ->. by apply CreateSemaphore_kern_nohandle.
  - intros Hp Hf Hh. by apply CreateSemaphore_kern_run.
  - intros sem Hret Hsem.
    destruct (decide (p = NULL \/ heap w !! p <> None)) as [Hbad|Hok].
    { rewrite CreateSemaphore_kern_oom in Hret by done.
      cbn in Hret. congruence. }
    assert (p <> NULL /\ heap w !! p = None) as [Hp Hf].
    { split; [tauto|]. destruct (heap w !! p) eqn:E; [|done].
      exfalso. apply Hok. by right. }
    destruct (decide (h = NULL)) as [->|Hh].
    { rewrite CreateSemaphore_kern_nohandle in Hret by done.
      cbn in Hret. congruence. }
    rewrite CreateSemaphore_kern_run in * by done.
    cbn in Hret |- *. injection Hret as <-.
    exists h. split; [done|]. apply lookup_insert_eq.
Qed.

Lemma CreateSemaphore_kern_correct_witness :
  run (SDL_CreateSemaphore_kern 3) [0; 0; 0; 0; 0; 0; 0] World0
    = ([(SDL_malloc T_sem_kern, NULL); (SDL_OutOfMemory, SDL_ERROR_RESULT)],
       World0, Ret NULL) /\
  snd (run (SDL_CreateSemaphore_kern 3) [500; 0; 0; 0; 0; 0; 0] World0)
    = Ret NULL /\
  snd (run (SDL_CreateSemaphore_kern 3) [500; 77; 0; 0; 0; 0; 0] World0)
    = Ret 500.
Proof.
  split; [|split].
  - apply (CreateSemaphore_kern_correct 3 0 0 0 0 0 0 0 [] World0).
    by left.
  - pose proof (CreateSemaphore_kern_correct 3 500 0 0 0 0 0 0 [] World0)
      as (_ & H & _).
    cbv zeta in H. rewrite H; done.
  - pose proof (CreateSemaphore_kern_correct 3 500 77 0 0 0 0 0 [] World0)
      as (_ & _ & H & _).
    cbv zeta in H. rewrite H; done.
Defined.

(** C5. When SDL_CreateSemaphore_atom, or SDL_CreateSemaphore_kern,
    succeeds for the initial value V (the allocation, and for the kernel
    implementation CreateSemaphore, succeed), the semaphore value read
    right after, with no wait or post in between, is V. *)
Theorem CreateSemaphore_GetSemaphoreValue (V p h : Z) (e1 e2 e3 e4 : Z)
    (env env' : list Z) (w : World)
    (HV : is_Uint32 V) (Hp : p <> NULL) (Hfresh : heap w !! p = None)
    (Hh : h <> NULL) :
  (exists tr w',
     run (SDL_CreateSemaphore_atom V) (p :: e1 :: env) w = (tr, w', Ret p) /\
     (run (SDL_GetSemaphoreValue_atom p) (e4 :: env') w').2 = Ret V) /\
  (exists tr w',
     run (SDL_CreateSemaphore_kern V) (p :: h :: e1 :: e2 :: e3 :: env) w
       = (tr, w', Ret p) /\
     (run (SDL_GetSemaphoreValue_kern p) (e4 :: env') w').2 = Ret V).
Proof.
  split.
  - eexists _, _. split; [by apply CreateSemaphore_atom_run|].
    erewrite GetSemaphoreValue_atom_run;
      [|done|cbn; apply lookup_insert_eq].
    cbn. by rewrite to_Uint32_to_LONG, to_Uint32_id.
  - eexists _, _. split; [by apply CreateSemaphore_kern_run|].
    erewrite GetSemaphoreValue_kern_run;
      [|done|cbn; apply lookup_insert_eq].
    cbn. by rewrite to_Uint32_to_LONG, to_Uint32_id.
Qed.

Lemma CreateSemaphore_GetSemaphoreValue_witness :
  exists tr w',
    run (SDL_CreateSemaphore_atom 4000000000) [500; 0] World0 = (tr, w', Ret 500) /\
    (run (SDL_GetSemaphoreValue_atom 500) [0] w').2 = Ret 4000000000.
Proof.
  refine (proj1 (CreateSemaphore_GetSemaphoreValue 4000000000 500 77 0 0 0 0
                   [] [] World0 _ _ _ _)).
  - unfold is_Uint32. lia.
  - done.
  - reflexivity.
  - done.
Defined.

(** C10. SDL_GetSemaphoreValue_atom and SDL_GetSemaphoreValue_kern on a
    null handle call SDL_InvalidParamError("sem") and return 0, and 0 is
    also what they return for a live semaphore whose count is 0: the
    returned integer does not tell the two apart. *)
Theorem GetSemaphoreValue_null_is_zero (sa sk h e : Z) (env : list Z) (w : World)
    (Hsa : sa <> NULL) (Hsk : sk <> NULL)
    (Ha : heap w !! sa = Some (atom_sem 0))
    (Hk : heap w !! sk = Some (kern_sem h 0)) :
  run (SDL_GetSemaphoreValue_atom NULL) (e :: env) w
    = ([(SDL_InvalidParamError "sem", SDL_ERROR_RESULT)], w, Ret 0) /\
  run (SDL_GetSemaphoreValue_kern NULL) (e :: env) w
    = ([(SDL_InvalidParamError "sem", SDL_ERROR_RESULT)], w, Ret 0) /\
  run (SDL_GetSemaphoreValue_atom sa) (e :: env) w
    = ([(MemLoad (sem_atom_count sa), 0)], w, Ret 0) /\
  run (SDL_GetSemaphoreValue_kern sk) (e :: env) w
    = ([(MemLoad (sem_kern_count sk), 0)], w, Ret 0).
Proof.
  split; [reflexivity|]. split; [reflexivity|]. split.
  - by rewrite (GetSemaphoreValue_atom_run _ _ _ _ _ Hsa Ha).
  - by rewrite (GetSemaphoreValue_kern_run _ _ _ _ _ _ Hsk Hk).
Qed.

Lemma GetSemaphoreValue_null_is_zero_witness :
  let w := set_heap World0 (<[600 := kern_sem 77 0]> (<[500 := atom_sem 0]> ∅)) in
  (run (SDL_GetSemaphoreValue_atom NULL) [0] w).2 = Ret 0 /\
  (run (SDL_GetSemaphoreValue_atom 500) [0] w).2 = Ret 0 /\
  (run (SDL_GetSemaphoreValue_kern NULL) [0] w).2 = Ret 0 /\
  (run (SDL_GetSemaphoreValue_kern 600) [0] w).2 = Ret 0.
Proof.
  intros w.
  destruct (GetSemaphoreValue_null_is_zero 500 600 77 0 [] w)
    as (H1 & H2 & H3 & H4); [done|done|reflexivity|reflexivity|].
  by rewrite H1, H2, H3, H4.
Defined.

(** ** Wait, atom implementation, timeoutNS = 0 *)

(** The poll in a world, with no other thread in between: the count
    goes down by one exactly when it was not 0. *)
Lemma WaitSemaphore_atom_poll_run (fuel : nat) (sem c e1 e2 : Z)
    (env : list Z) (w : World) :
  sem <> NULL -> heap w !! sem = Some (atom_sem c) ->
  run (SDL_WaitSemaphoreTimeoutNS_atom fuel sem 0) (e1 :: e2 :: env) w
    = if c =? 0
      then ([(MemLoad (sem_atom_count sem), c)], w, Ret SDL_MUTEX_TIMEDOUT)
      else ([(MemLoad (sem_atom_count sem), c);
             (InterlockedCompareExchange (sem_atom_count sem)
                (to_LONG (c - 1)) c, c)],
            set_heap w (<[sem := atom_sem (to_LONG (c - 1))]> (heap w)),
            Ret 0).
Proof.
  intros Hsem Hc. unfold SDL_WaitSemaphoreTimeoutNS_atom. nonnull sem.
  cbn [Z.eqb run bind call exec_action].
  rewrite (read_atom_count _ _ _ Hc). cbn [mbind option_bind run bind].
  destruct (c =? 0) eqn:E; [done|].
  cbn [run bind call exec_action].
  rewrite (read_atom_count _ _ _ Hc). cbn [mbind option_bind].
  rewrite Z.eqb_refl. erewrite write_atom_count by exact Hc.
  cbn. by rewrite Z.eqb_refl.
Qed.

(** C6. SDL_WaitSemaphoreTimeoutNS_atom with timeoutNS == 0 on a
    non-null semaphore reads the count once; when it reads 0 it returns
    SDL_MUTEX_TIMEDOUT; otherwise it makes one
    InterlockedCompareExchange from the value read to that value minus
    one and returns 0 when the exchange took place, SDL_MUTEX_TIMEDOUT
    when it did not (another thread changed the count in between).
    Whatever the calls return, it makes at most these two calls and none
    of them is a wait.  Run with no other thread in between, it takes the
    count down by one and returns 0 exactly when the count was not 0. *)
Theorem WaitSemaphore_atom_poll (fuel : nat) (sem c old : Z) (answers : list Z)
    (w : World) (c0 : Z)
    (Hsem : sem <> NULL) (Hlive : heap w !! sem = Some (atom_sem c0)) :
  feed (SDL_WaitSemaphoreTimeoutNS_atom fuel sem 0) (c :: old :: answers)
    = (if c =? 0
       then ([(MemLoad (sem_atom_count sem), c)], Ret SDL_MUTEX_TIMEDOUT)
       else ([(MemLoad (sem_atom_count sem), c);
              (InterlockedCompareExchange (sem_atom_count sem)
                 (to_LONG (c - 1)) c, old)],
             Ret (if old =? c then 0 else SDL_MUTEX_TIMEDOUT))) /\
  (forall l : list Z,
     let tr := (feed (SDL_WaitSemaphoreTimeoutNS_atom fuel sem 0) l).1 in
     (length tr <= 2)%nat /\
     Forall (fun ev : event => is_wait_call ev.1 = false) tr) /\
  run (SDL_WaitSemaphoreTimeoutNS_atom fuel sem 0) (c :: old :: answers) w
    = (if c0 =? 0
       then ([(MemLoad (sem_atom_count sem), c0)], w, Ret SDL_MUTEX_TIMEDOUT)
       else ([(MemLoad (sem_atom_count sem), c0);
              (InterlockedCompareExchange (sem_atom_count sem)
                 (to_LONG (c0 - 1)) c0, c0)],
             set_heap w (<[sem := atom_sem (to_LONG (c0 - 1))]> (heap w)),
             Ret 0)).
Proof.
  split; [|split; [|by apply WaitSemaphore_atom_poll_run]];
    unfold SDL_WaitSemaphoreTimeoutNS_atom; nonnull sem; cbn [Z.eqb].
  - cbn. destruct (c =? 0); cbn; [done|]. by destruct (old =? c).
  - intros [|c' [|old' l]]; cbn.
    + split; [lia|constructor].
    + destruct (c' =? 0); cbn; (split; [lia|repeat constructor]).
    + destruct (c' =? 0); cbn; [split; [lia|repeat constructor]|].
      destruct (old' =? c'); cbn; (split; [lia|repeat constructor]).
Qed.

Lemma WaitSemaphore_atom_poll_witness :
  feed (SDL_WaitSemaphoreTimeoutNS_atom 0 500 0) [3; 3]
    = ([(MemLoad (sem_atom_count 500), 3);
        (InterlockedCompareExchange (sem_atom_count 500) 2 3, 3)], Ret 0) /\
  feed (SDL_WaitSemaphoreTimeoutNS_atom 0 500 0) [3; 2]
    = ([(MemLoad (sem_atom_count 500), 3);
        (InterlockedCompareExchange (sem_atom_count 500) 2 3, 2)],
       Ret SDL_MUTEX_TIMEDOUT) /\
  feed (SDL_WaitSemaphoreTimeoutNS_atom 0 500 0) [0; 0]
    = ([(MemLoad (sem_atom_count 500), 0)], Ret SDL_MUTEX_TIMEDOUT).
Proof.
  split; [|split].
  - apply (proj1 (WaitSemaphore_atom_poll 0 500 3 3 [] World1 3
                    ltac:(done) ltac:(reflexivity))).
  - apply (proj1 (WaitSemaphore_atom_poll 0 500 3 2 [] World1 3
                    ltac:(done) ltac:(reflexivity))).
  - apply (proj1 (WaitSemaphore_atom_poll 0 500 0 0 [] World1 3
                    ltac:(done) ltac:(reflexivity))).
Defined.

(** ** Post *)

(** C9. SDL_PostSemaphore_atom on a null handle calls
    SDL_InvalidParamError("sem") and returns its error result.  On a live
    semaphore it calls InterlockedIncrement on the count, then
    pWakeByAddressSingle on the same address, and returns 0.  The count
    is one more than before in the arithmetic of LONG: one more as a
    LONG or, at LONG_MAX where the LONG wraps, one more as the Uint32
    that SDL_GetSemaphoreValue returns (which goes from v to v + 1
    modulo 2^32).  Whatever its calls return, a post on a non-null
    handle returns 0. *)
Theorem PostSemaphore_atom_correct (sem c e1 e2 : Z) (env : list Z) (w : World)
    (Hsem : sem <> NULL) (Hlive : heap w !! sem = Some (atom_sem c))
    (Hc : is_LONG c) (Hwake : g_pWakeByAddressSingle w <> NULL) :
  run (SDL_PostSemaphore_atom NULL) (e1 :: env) w
    = ([(SDL_InvalidParamError "sem", SDL_ERROR_RESULT)], w,
       Ret SDL_ERROR_RESULT) /\
  run (SDL_PostSemaphore_atom sem) (e1 :: e2 :: env) w
    = ([(InterlockedIncrement (sem_atom_count sem), to_LONG (c + 1));
        (pWakeByAddressSingle (sem_atom_count sem), 0)],
       set_heap w (<[sem := atom_sem (to_LONG (c + 1))]> (heap w)),
       Ret 0) /\
  (to_LONG (c + 1) = c + 1 \/
   to_Uint32 (to_LONG (c + 1)) = to_Uint32 c + 1) /\
  to_Uint32 (to_LONG (c + 1)) = (to_Uint32 c + 1) mod 2 ^ 32 /\
  (feed (SDL_PostSemaphore_atom sem) (e1 :: e2 :: env)).2 = Ret 0.
Proof.
  split; [reflexivity|]. split; [|split; [|split]].
  - unfold SDL_PostSemaphore_atom. nonnull sem.
    cbn. rewrite (read_atom_count _ _ _ Hlive). cbn.
    erewrite write_atom_count by exact Hlive. cbn.
    by destruct (Z.eqb_spec (g_pWakeByAddressSingle w) NULL).
  - by apply to_LONG_succ.
  - rewrite to_Uint32_to_LONG. unfold to_Uint32.
    by rewrite Zplus_mod_idemp_l.
  - unfold SDL_PostSemaphore_atom. nonnull sem. reflexivity.
Qed.

Lemma PostSemaphore_atom_correct_witness :
  run (SDL_PostSemaphore_atom 500) [0; 0] World1
    = ([(InterlockedIncrement (sem_atom_count 500), 4);
        (pWakeByAddressSingle (sem_atom_count 500), 0)],
       set_heap World1 (<[500 := atom_sem 4]> (heap World1)),
       Ret 0).
Proof.
  refine (proj1 (proj2 (PostSemaphore_atom_correct 500 3 0 0 [] World1 _ _ _ _))).
  - done.
  - reflexivity.
  - unfold is_LONG, LONG_MIN, LONG_MAX. lia.
  - done.
Defined.

(** C3. SDL_PostSemaphore_kern on a live semaphore increments the
    shadow count first and then calls ReleaseSemaphore for one unit.  If
    and only if that call fails, it decrements the shadow count again
    (the world is as before the call), calls SDL_SetError and returns its
    error result; when the call succeeds the shadow count stays one
    greater (in the arithmetic of LONG, as for the atom post) and the
    result is 0. *)
Theorem PostSemaphore_kern_correct (sem h c e1 e2 ok e4 e5 : Z)
    (env : list Z) (w : World)
    (Hsem : sem <> NULL) (Hlive : heap w !! sem = Some (kern_sem h c))
    (Hc : is_LONG c) :
  run (SDL_PostSemaphore_kern sem) (e1 :: e2 :: ok :: e4 :: e5 :: env) w
    = (if ok =? 0
       then ([(InterlockedIncrement (sem_kern_count sem), to_LONG (c + 1));
              (MemLoad (sem_kern_id sem), h);
              (ReleaseSemaphore h 1, FALSE);
              (InterlockedDecrement (sem_kern_count sem), c);
              (SDL_SetError "ReleaseSemaphore() failed", SDL_ERROR_RESULT)],
             w, Ret SDL_ERROR_RESULT)
       else ([(InterlockedIncrement (sem_kern_count sem), to_LONG (c + 1));
              (MemLoad (sem_kern_id sem), h);
              (ReleaseSemaphore h 1, TRUE)],
             set_heap w (<[sem := kern_sem h (to_LONG (c + 1))]> (heap w)),
             Ret 0)) /\
  (to_LONG (c + 1) = c + 1 \/
   to_Uint32 (to_LONG (c + 1)) = to_Uint32 c + 1).
Proof.
  split; [|by apply to_LONG_succ].
  pose proof (to_LONG_inc_dec c Hc) as Hdec.
  unfold SDL_PostSemaphore_kern. nonnull sem.
  cbn. rewrite (read_kern_count _ _ _ _ Hlive). cbn.
  erewrite write_kern_count by exact Hlive. cbn.
  erewrite read_kern_id by (cbn; apply lookup_insert_eq).
  cbn. unfold BOOL_of. destruct (ok =? 0); cbn.
  - erewrite read_kern_count by (cbn; apply lookup_insert_eq).
    cbn. erewrite write_kern_count by (cbn; apply lookup_insert_eq).
    rewrite Hdec. cbn. rewrite insert_insert_eq, set_heap_set_heap.
    rewrite insert_id by exact Hlive. by rewrite set_heap_same.
  - reflexivity.
Qed.

Lemma PostSemaphore_kern_correct_witness :
  run (SDL_PostSemaphore_kern 600) [0; 0; 1; 0; 0] World1
    = ([(InterlockedIncrement (sem_kern_count 600), 3);
        (MemLoad (sem_kern_id 600), 77);
        (ReleaseSemaphore 77 1, TRUE)],
       set_heap World1 (<[600 := kern_sem 77 3]> (heap World1)),
       Ret 0) /\
  run (SDL_PostSemaphore_kern 600) [0; 0; 0; 0; 0] World1
    = ([(InterlockedIncrement (sem_kern_count 600), 3);
        (MemLoad (sem_kern_id 600), 77);
        (ReleaseSemaphore 77 1, FALSE);
        (InterlockedDecrement (sem_kern_count 600), 2);
        (SDL_SetError "ReleaseSemaphore() failed", SDL_ERROR_RESULT)],
       World1, Ret SDL_ERROR_RESULT).
Proof.
  split.
  - refine (proj1 (PostSemaphore_kern_correct 600 77 2 0 0 1 0 0 [] World1 _ _ _)).
    + done.
    + reflexivity.
    + unfold is_LONG, LONG_MIN, LONG_MAX. lia.
  - refine (proj1 (PostSemaphore_kern_correct 600 77 2 0 0 0 0 0 [] World1 _ _ _)).
    + done.
    + reflexivity.
    + unfold is_LONG, LONG_MIN, LONG_MAX. lia.
Defined.

(** ** Wait, kernel implementation *)

Lemma SDL_NS_TO_MS_small (ns : Z) :
  0 <= ns < 2 ^ 32 * SDL_NS_PER_MS ->
  to_DWORD (SDL_NS_TO_MS ns) = ns / 1000000.
Proof.
  unfold to_DWORD, SDL_NS_TO_MS, SDL_NS_PER_MS. intros H.
  rewrite Z.quot_div_nonneg by lia.
  apply Z.mod_small. split.
  - apply Z.div_pos; lia.
  - apply Z.div_lt_upper_bound; lia.
Qed.

(** C7, as the code has it. SDL_WaitSemaphoreTimeoutNS_kern on a live
    semaphore calls WaitForSingleObjectEx once, on the handle of the
    semaphore, with dwMilliseconds = INFINITE for a negative timeoutNS
    and (DWORD)SDL_NS_TO_MS(timeoutNS) otherwise: 0 for timeoutNS == 0,
    and timeoutNS / 1000000 (fraction dropped) as long as that is below
    2^32.  On WAIT_OBJECT_0 it decrements the shadow count and returns 0;
    on WAIT_TIMEOUT it returns SDL_MUTEX_TIMEDOUT; on anything else it
    calls SDL_SetError and returns its error result. *)
Theorem WaitSemaphore_kern_correct (sem h c timeoutNS e1 r e3 e4 : Z)
    (env : list Z) (w : World)
    (Hsem : sem <> NULL) (Hlive : heap w !! sem = Some (kern_sem h c)) :
  let dwMilliseconds :=
    if timeoutNS <? 0 then INFINITE else to_DWORD (SDL_NS_TO_MS timeoutNS) in
  run (SDL_WaitSemaphoreTimeoutNS_kern sem timeoutNS) (e1 :: r :: e3 :: e4 :: env) w
    = (if to_DWORD r =? WAIT_OBJECT_0 then
         ([(MemLoad (sem_kern_id sem), h);
           (WaitForSingleObjectEx h dwMilliseconds FALSE, to_DWORD r);
           (InterlockedDecrement (sem_kern_count sem), to_LONG (c - 1))],
          set_heap w (<[sem := kern_sem h (to_LONG (c - 1))]> (heap w)),
          Ret 0)
       else if to_DWORD r =? WAIT_TIMEOUT then
         ([(MemLoad (sem_kern_id sem), h);
           (WaitForSingleObjectEx h dwMilliseconds FALSE, to_DWORD r)],
          w, Ret SDL_MUTEX_TIMEDOUT)
       else
         ([(MemLoad (sem_kern_id sem), h);
           (WaitForSingleObjectEx h dwMilliseconds FALSE, to_DWORD r);
           (SDL_SetError "WaitForSingleObject() failed", SDL_ERROR_RESULT)],
          w, Ret SDL_ERROR_RESULT)) /\
  (timeoutNS < 0 -> dwMilliseconds = INFINITE) /\
  (timeoutNS = 0 -> dwMilliseconds = 0) /\
  (0 < timeoutNS < 2 ^ 32 * SDL_NS_PER_MS ->
   dwMilliseconds = timeoutNS / 1000000).
Proof.
  intros dw. split; [|split; [|split]].
  - unfold SDL_WaitSemaphoreTimeoutNS_kern. nonnull sem. fold dw.
    cbn. rewrite (read_kern_id _ _ _ _ Hlive). cbn.
    destruct (to_DWORD r =? WAIT_OBJECT_0).
    + cbn. rewrite (read_kern_count _ _ _ _ Hlive). cbn.
      erewrite write_kern_count by exact Hlive. reflexivity.
    + destruct (to_DWORD r =? WAIT_TIMEOUT); reflexivity.
  - intros H. subst dw. destruct (Z.ltb_spec timeoutNS 0); [done|lia].
  - intros ->. reflexivity.
  - intros H. subst dw. destruct (Z.ltb_spec timeoutNS 0); [lia|].
    apply SDL_NS_TO_MS_small. lia.
Qed.

Lemma WaitSemaphore_kern_correct_witness :
  run (SDL_WaitSemaphoreTimeoutNS_kern 600 2500000) [0; 0; 0; 0] World1
    = ([(MemLoad (sem_kern_id 600), 77);
        (WaitForSingleObjectEx 77 2 FALSE, WAIT_OBJECT_0);
        (InterlockedDecrement (sem_kern_count 600), 1)],
       set_heap World1 (<[600 := kern_sem 77 1]> (heap World1)),
       Ret 0).
Proof.
  refine (proj1 (WaitSemaphore_kern_correct 600 77 2 2500000 0 0 0 0 []
                   World1 _ _)).
  - done.
  - reflexivity.
Defined.

(** C7, as the specification has it, fails: for the positive timeout
    4294967296000000 ns (2^32 ms, a little under 50 days) the budget of
    the wait is 0, an immediate poll as for timeoutNS == 0, and not the
    4294967296 ms the nanoseconds round to; for 4294967295000000 ns it
    is INFINITE, as for a negative timeout. *)
Lemma WaitSemaphore_kern_budget_wraps :
  let budget (timeoutNS : Z) :=
    wait_budget_of
      (run (SDL_WaitSemaphoreTimeoutNS_kern 600 timeoutNS)
           [0; WAIT_TIMEOUT; 0; 0] World1).1.1 in
  budget 4294967296000000 <> Some (spec_wait_budget 4294967296000000) /\
  budget 4294967296000000 = budget 0 /\
  budget 4294967295000000 = budget (-1).
Proof.
  cbv zeta. split; [|split]; vm_compute; [discriminate|reflexivity..].
Qed.

(** ** Wait, atom implementation, timeoutNS > 0 *)

Lemma feed_Act (a : action) (k : Z -> prog) (e : Z) (rest : list Z) :
  feed (Act a k) (e :: rest)
  = ((a, answer a e) :: (feed (k (answer a e)) rest).1,
     (feed (k (answer a e)) rest).2).
Proof. cbn. by destruct (feed (k (answer a e)) rest). Qed.

Lemma feed_nil (p : prog) : feed p [] = ([], p).
Proof. by destruct p. Qed.

Lemma feed_Ret (v : Z) (l : list Z) : feed (Ret v) l = ([], Ret v).
Proof. by destruct l. Qed.

Lemma feed_Spin (l : list Z) : feed Spin l = ([], Spin).
Proof. by destruct l. Qed.

Lemma status_Returns (q : prog) (v : Z) : status q = Some (Returns v) -> q = Ret v.
Proof. destruct q; cbn; congruence. Qed.

Lemma status_Spin (q : prog) (o : outcome) : status q = Some o -> q <> Spin.
Proof. by destruct q. Qed.

Section timed.
Variables sem deadline : Z.

Ltac at_rest :=
  cbn [timed_ok fst snd]; unfold rest_ok; cbn [status timed_next spin_point].

Lemma wait_zero_timed_ok (fuel : nat) (count : Z) (k : Z -> prog) :
  (forall c, c <> 0 -> traces_ok sem deadline (Some (MemLoad (sem_atom_count sem), c)) (k c)) ->
  traces_ok sem deadline (Some (MemLoad (sem_atom_count sem), count))
    (wait_zero_timed fuel sem deadline count k).
Proof.
  intros Hk. revert count.
  induction fuel as [|fuel IH]; intros count answers;
    cbn [wait_zero_timed];
    destruct (Z.eqb_spec count 0) as [->|Hc]; try by apply Hk.
  - rewrite feed_Spin. at_rest. by right.
  - destruct answers as [|e1 answers]; [rewrite feed_nil; at_rest; by left|].
    cbn [bind call]. rewrite feed_Act. cbn [fst snd timed_ok].
    split; [cbn; eauto|].
    set (now := answer SDL_GetTicksNS e1). clearbody now.
    destruct (deadline >? now) eqn:Egt.
    2:{ rewrite feed_Ret. at_rest. rewrite Egt. by left. }
    assert (Hlt : now < deadline) by (apply Z.gtb_lt in Egt; lia).
    destruct answers as [|e2 answers].
    { rewrite feed_nil. at_rest. rewrite Egt. by left. }
    cbn [bind call]. rewrite feed_Act. cbn [fst snd timed_ok].
    split; [cbn; split; [lia|eauto]|].
    set (ok := answer _ e2). clearbody ok.
    destruct (ok =? FALSE) eqn:Eok.
    + destruct answers as [|e3 answers].
      { rewrite feed_nil. at_rest. rewrite Eok. by left. }
      cbn [bind call]. rewrite feed_Act. cbn [fst snd timed_ok].
      split; [cbn; rewrite Eok; cbn; eauto|].
      set (err := answer GetLastError e3). clearbody err.
      destruct (err =? ERROR_TIMEOUT) eqn:Eerr.
      * rewrite feed_Ret. at_rest. rewrite Eerr. by left.
      * destruct answers as [|e4 answers].
        { rewrite feed_nil. at_rest. rewrite Eerr. by left. }
        unfold call. rewrite feed_Act, feed_Ret. cbn [fst snd timed_ok].
        split.
        { cbn. split; [|done]. intros ->. by rewrite Z.eqb_refl in Eerr. }
        at_rest. by left.
    + destruct answers as [|e3 answers].
      { rewrite feed_nil. at_rest. rewrite Eok. by left. }
      cbn [bind call]. rewrite feed_Act. cbn [fst snd timed_ok].
      split; [cbn; rewrite Eok; eauto|].
      apply IH.
Qed.

Lemma wait_loop_timed_ok (fuel : nat) (prev : option event) :
  loop_entry prev ->
  traces_ok sem deadline prev (wait_loop_timed fuel sem deadline).
Proof.
  assert (Hnext : forall prev0, loop_entry prev0 ->
            timed_next sem deadline prev0 = Calls (MemLoad (sem_atom_count sem)) /\
            spin_point prev0).
  { intros prev0 [->|(l & x & c & old & -> & Hne)]; cbn; [done|].
    by destruct (Z.eqb_spec old c). }
  revert prev. induction fuel as [|fuel IH]; intros prev Hprev answers;
    cbn [wait_loop_timed]; destruct (Hnext prev Hprev) as [Hn Hs].
  - rewrite feed_Spin. cbn [timed_ok fst snd]. by right.
  - destruct answers as [|e1 answers].
    { rewrite feed_nil. cbn [timed_ok fst snd]. left. by rewrite Hn. }
    cbn [bind call]. rewrite feed_Act. cbn [fst snd timed_ok]. split.
    { destruct Hprev as [->|(l & x & c & old & -> & Hne)]; cbn; eauto. }
    apply wait_zero_timed_ok. intros c Hc answers'.
    apply Z.eqb_neq in Hc.
    destruct answers' as [|e2 answers'].
    { rewrite feed_nil. at_rest. rewrite Hc. by left. }
    cbn [bind call]. rewrite feed_Act. cbn [fst snd timed_ok]. split.
    { cbn. rewrite Hc. eauto. }
    set (old := answer _ e2). clearbody old.
    destruct (Z.eqb_spec old c) as [Heq|Hne].
    + rewrite feed_Ret. at_rest. left. subst old. by rewrite Z.eqb_refl.
    + apply IH. right. eauto 10.
Qed.

Lemma timed_ok_app (prev : option event) (pre : list event) (ev : event)
    (post : list event) (q : prog) :
  timed_ok sem deadline prev (pre ++ ev :: post) q ->
  follows_ok sem deadline (before prev pre) ev /\
  timed_ok sem deadline (Some ev) post q.
Proof.
  revert prev. induction pre as [|x pre IH]; intros prev; cbn [app timed_ok].
  - done.
  - intros [_ H]. apply IH in H. unfold before in *.
    rewrite last_cons. by destruct (last pre).
Qed.

Lemma timed_ok_rest (prev : option event) (tr : list event) (q : prog) :
  timed_ok sem deadline prev tr q -> rest_ok sem deadline (before prev tr) q.
Proof.
  revert prev. induction tr as [|x tr IH]; intros prev; cbn [timed_ok].
  - done.
  - intros [_ H]. apply IH in H. unfold before in *.
    rewrite last_cons. by destruct (last tr).
Qed.
End timed.

(** Fuel is no limit: with more fuel than calls answered, the loop is
    never found out of fuel. *)
Lemma wait_zero_timed_fuel (sem deadline : Z) (n : nat) (k : Z -> prog) :
  (forall c answers, (length answers < n)%nat -> (feed (k c) answers).2 <> Spin) ->
  forall (g : nat) (count : Z) (answers : list Z),
    (g <= n)%nat -> (length answers < g)%nat ->
    (feed (wait_zero_timed g sem deadline count k) answers).2 <> Spin.
Proof.
  intros Hk g. induction g as [|g IH]; intros count answers Hg Hlen;
    [cbn in Hlen; lia|].
  cbn [wait_zero_timed].
  destruct (count =? 0); [|apply Hk; lia].
  destruct answers as [|e1 answers]; [by rewrite feed_nil|].
  cbn [bind call]. rewrite feed_Act. cbn [snd].
  destruct (deadline >? answer SDL_GetTicksNS e1); [|by rewrite feed_Ret].
  destruct answers as [|e2 answers]; [by rewrite feed_nil|].
  cbn [bind call]. rewrite feed_Act. cbn [snd].
  destruct (answer _ e2 =? FALSE).
  - destruct answers as [|e3 answers]; [by rewrite feed_nil|].
    cbn [bind call]. rewrite feed_Act. cbn [snd].
    destruct (answer GetLastError e3 =? ERROR_TIMEOUT); [by rewrite feed_Ret|].
    destruct answers as [|e4 answers]; [by rewrite feed_nil|].
    unfold call. by rewrite feed_Act, feed_Ret.
  - destruct answers as [|e3 answers]; [by rewrite feed_nil|].
    cbn [bind call]. rewrite feed_Act. cbn [snd].
    apply IH; cbn in Hlen; lia.
Qed.

Lemma wait_loop_timed_fuel (sem deadline : Z) (fuel : nat) (answers : list Z) :
  (length answers < fuel)%nat ->
  (feed (wait_loop_timed fuel sem deadline) answers).2 <> Spin.
Proof.
  revert answers. induction fuel as [|fuel IH]; intros answers Hlen; [lia|].
  cbn [wait_loop_timed].
  destruct answers as [|e1 answers]; [by rewrite feed_nil|].
  cbn [bind call]. rewrite feed_Act. cbn [snd].
  apply (wait_zero_timed_fuel sem deadline (S fuel)); [|lia|cbn in Hlen; lia].
  intros c answers' Hlen'.
  destruct answers' as [|e2 answers']; [by rewrite feed_nil|].
  cbn [bind call]. rewrite feed_Act. cbn [snd].
  destruct (answer _ e2 =? c); [by rewrite feed_Ret|].
  apply IH. cbn in Hlen'. lia.
Qed.

(** C2, as the code has it.  SDL_WaitSemaphoreTimeoutNS_atom with
    timeoutNS > 0 first reads the clock and sets
    deadline = now + timeoutNS (in Uint64), once, before the loop.  In
    the calls that follow, whatever they return:
    - every block (pWaitOnAddress) comes right after a reading of the
      clock that found now < deadline, and its budget is
      (DWORD)SDL_NS_TO_MS(deadline - now): what is left to the deadline
      in whole milliseconds, and exactly that as long as less than 2^32
      ms are left;
    - every reading of the clock in the loop that finds now < deadline
      is followed by that block;
    - a reading of the clock that finds deadline <= now is the last
      call: the wait returns SDL_MUTEX_TIMEDOUT without blocking;
    - a block that fails is followed by GetLastError; when that says
      ERROR_TIMEOUT the wait returns SDL_MUTEX_TIMEDOUT, otherwise it
      calls SDL_SetError and returns its error result, which is negative;
    - at every point the wait does what [timed_next] says after its
      last call: the loop is the one of the specification, and with more
      fuel than calls answered the model never runs out of fuel. *)
Theorem WaitSemaphore_atom_timed (fuel : nat) (sem timeoutNS e0 : Z)
    (answers : list Z) (Hsem : sem <> NULL) (Ht : 0 < timeoutNS) :
  let p := SDL_WaitSemaphoreTimeoutNS_atom fuel sem timeoutNS in
  let now0 := to_Uint64 e0 in
  let deadline := to_Uint64 (now0 + timeoutNS) in
  let block (now : Z) :=
    pWaitOnAddress (sem_atom_count sem) 0 sizeof_LONG
      (to_DWORD (SDL_NS_TO_MS (deadline - now))) in
  let r := feed p (e0 :: answers) in
  status p = Some (Calls SDL_GetTicksNS) /\
  exists tr,
    r.1 = (SDL_GetTicksNS, now0) :: tr /\
    (forall pre a ok post,
       tr = pre ++ (a, ok) :: post -> is_wait_call a = true ->
       exists pre' now,
         pre = pre' ++ [(SDL_GetTicksNS, now)] /\ now < deadline /\
         a = block now /\
         (deadline - now < 2 ^ 32 * SDL_NS_PER_MS ->
          to_DWORD (SDL_NS_TO_MS (deadline - now))
          = (deadline - now) / 1000000)) /\
    (forall pre now post,
       tr = pre ++ (SDL_GetTicksNS, now) :: post -> now < deadline ->
       (post = [] /\ status r.2 = Some (Calls (block now))) \/
       (exists ok post', post = (block now, ok) :: post')) /\
    (forall pre now post,
       tr = pre ++ (SDL_GetTicksNS, now) :: post -> deadline <= now ->
       post = [] /\ r.2 = Ret SDL_MUTEX_TIMEDOUT) /\
    (forall pre a post,
       tr = pre ++ (a, FALSE) :: post -> is_wait_call a = true ->
       (post = [] /\ status r.2 = Some (Calls GetLastError)) \/
       exists err post',
         post = (GetLastError, err) :: post' /\
         if err =? ERROR_TIMEOUT
         then post' = [] /\ r.2 = Ret SDL_MUTEX_TIMEDOUT
         else (post' = [] /\
               status r.2
               = Some (Calls (SDL_SetError "WaitOnAddress() failed"))) \/
              (post' = [(SDL_SetError "WaitOnAddress() failed", SDL_ERROR_RESULT)] /\
               r.2 = Ret SDL_ERROR_RESULT)) /\
    SDL_ERROR_RESULT < 0 /\
    ((length (e0 :: answers) < fuel)%nat ->
     status r.2 = Some (timed_next sem deadline (last tr))).
Proof.
  intros p now0 deadline block r. subst p r.
  unfold SDL_WaitSemaphoreTimeoutNS_atom. nonnull sem.
  destruct (Z.eqb_spec timeoutNS 0); [lia|].
  destruct (Z.ltb_spec timeoutNS 0); [lia|].
  split; [done|].
  cbn [bind call]. rewrite feed_Act. cbn [fst snd answer].
  fold now0. fold deadline.
  pose proof (wait_loop_timed_ok sem deadline fuel None (or_introl eq_refl)
                answers) as Hok.
  pose proof (wait_loop_timed_fuel sem deadline fuel answers) as Hfuel.
  destruct (feed (wait_loop_timed fuel sem deadline) answers) as [tr q].
  cbn [fst snd] in *. exists tr. split; [done|].
  assert (Hblock : forall pre a ok post,
            tr = pre ++ (a, ok) :: post -> is_wait_call a = true ->
            exists pre' now,
              pre = pre' ++ [(SDL_GetTicksNS, now)] /\ now < deadline /\
              a = block now).
  { intros pre a ok post -> Ha.
    apply timed_ok_app in Hok as [Hf _]. unfold before in Hf.
    induction pre as [|[ax rx] pre' _] using rev_ind.
    2:{ rewrite last_snoc in Hf.
      destruct ax; cbn in Hf; try done;
        repeat match goal with
          | H : context [if ?b then _ else _] |- _ => destruct b
          | H : _ /\ _ |- _ => destruct H
          | H : ex _ |- _ => destruct H
          | H : (_, _) = (_, _) |- _ => injection H as -> ->
          end; try discriminate.
      eauto. }
    cbn in Hf. destruct Hf as [c [= -> ->]]. discriminate. }
  split; [|split; [|split; [|split; [|split]]]].
  - intros pre a ok post Htr Ha.
    destruct (Hblock pre a ok post Htr Ha) as (pre' & now & -> & Hnow & ->).
    exists pre', now. split; [done|]. split; [done|]. split; [done|].
    intros Hsmall. apply SDL_NS_TO_MS_small. lia.
  - intros pre now post -> Hnow.
    apply timed_ok_app in Hok as [_ Hok].
    assert (Egt : (deadline >? now) = true) by (apply Z.gtb_lt; lia).
    destruct post as [|ev post]; cbn [timed_ok] in Hok.
    + left. split; [done|].
      destruct Hok as [Hs|[_ []]]. cbn in Hs. by rewrite Egt in Hs.
    + right. destruct Hok as [[_ [ok ->]] _]. eauto.
  - intros pre now post -> Hnow.
    apply timed_ok_app in Hok as [_ Hok].
    destruct post as [|ev post]; cbn [timed_ok] in Hok.
    + split; [done|]. destruct Hok as [Hs|[_ []]]. cbn in Hs.
      destruct (Z.gtb_spec deadline now); [lia|]. by apply status_Returns.
    + destruct Hok as [[Hlt _] _]. lia.
  - intros pre a post Htr Ha.
    destruct (Hblock pre a FALSE post Htr Ha) as (pre' & now & -> & Hnow & ->).
    subst tr. apply timed_ok_app in Hok as [_ Hok].
    destruct post as [|ev post]; cbn [timed_ok] in Hok.
    { left. split; [done|]. by destruct Hok as [Hs|[_ []]]. }
    right. destruct Hok as [[err ->] Hok]. exists err, post. split; [done|].
    destruct post as [|ev2 post]; cbn [timed_ok] in Hok.
    + destruct Hok as [Hs|[_ []]]. cbn in Hs.
      destruct (err =? ERROR_TIMEOUT); [by split; [|apply status_Returns]|].
      by left.
    + destruct Hok as [[Herr ->] Hok].
      destruct (Z.eqb_spec err ERROR_TIMEOUT); [done|]. right.
      destruct post as [|ev3 post]; cbn [timed_ok] in Hok.
      * split; [done|]. destruct Hok as [Hs|[_ []]]. by apply status_Returns.
      * by destruct Hok as [[] _].
  - done.
  - intros Hlen. apply timed_ok_rest in Hok. unfold before in Hok.
    assert (Hq : q <> Spin) by (apply Hfuel; cbn in Hlen; lia).
    destruct Hok as [Hs|[-> _]]; [|done].
    rewrite Hs. do 2 f_equal.
    exact (match last tr as o
                 return match o with Some ev => Some ev | None => None end = o
           with Some _ => eq_refl | None => eq_refl end).
Qed.

Lemma WaitSemaphore_atom_timed_witness :
  (feed (SDL_WaitSemaphoreTimeoutNS_atom 5 500 1000000000)
        [10; 0; 20; 1; 0; 1000000011]).2
  = Ret SDL_MUTEX_TIMEDOUT.
Proof.
  destruct (WaitSemaphore_atom_timed 5 500 1000000000 10
              [0; 20; 1; 0; 1000000011] ltac:(done) ltac:(lia))
    as (_ & tr & Htr & _ & _ & Hexhausted & _).
  vm_compute in Htr. injection Htr as Htr. subst tr.
  apply (Hexhausted
           [(MemLoad (sem_atom_count 500), 0);
            (SDL_GetTicksNS, 20);
            (pWaitOnAddress (sem_atom_count 500) 0 4 999, 1);
            (MemLoad (sem_atom_count 500), 0)]
           1000000011 []).
  - reflexivity.
  - vm_compute. discriminate.
Defined.

(** C2, as the specification has it, fails: the budget of a block is not
    always what is left to the deadline.  With timeoutNS =
    4294967296000000 ns (2^32 ms, a little under 50 days) and the clock
    at 0, the whole timeout is left at the first block, and its budget
    is 0 ms: the block is an immediate poll, and when it reports its
    timeout the wait returns SDL_MUTEX_TIMEDOUT with the clock still at
    0.  With 4294967295000000 ns the budget is INFINITE, that of a wait
    without a deadline. *)
Lemma WaitSemaphore_atom_budget_wraps :
  let r (timeoutNS : Z) :=
    feed (SDL_WaitSemaphoreTimeoutNS_atom 5 500 timeoutNS)
         [0; 0; 0; 0; ERROR_TIMEOUT] in
  block_budget_of (r 4294967296000000).1
    <> Some (spec_remaining_budget 4294967296000000 0) /\
  block_budget_of (r 4294967296000000).1 = Some 0 /\
  (r 4294967296000000).2 = Ret SDL_MUTEX_TIMEDOUT /\
  block_budget_of (r 4294967295000000).1 = Some INFINITE.
Proof.
  cbv zeta. split; [|split; [|split]]; vm_compute;
    [discriminate|reflexivity..].
Qed.

(** ** The count of an atom semaphore under any interleaving *)

Section invariant.
Variable sem : Z.

Lemma safe_bind (p : prog) (k : Z -> prog) :
  safe sem p -> (forall r, safe sem (k r)) -> safe sem (bind p k).
Proof.
  intros Hp Hk. induction Hp; cbn; try constructor; auto.
Qed.

Lemma safe_call (a : action) : polite sem a -> safe sem (call a).
Proof. intros. constructor; [done|]. constructor. Qed.

Lemma safe_exchange (count : Z) (next : prog) :
  count <> 0 -> safe sem next ->
  safe sem (old <- call (InterlockedCompareExchange (sem_atom_count sem)
                           (to_LONG (count - 1)) count) ;;
            if old =? count then Ret 0 else next).
Proof.
  intros Hc Hn. cbn. constructor; [by cbn|].
  intros r. destruct (r =? count); [constructor|done].
Qed.

Lemma safe_wait_zero_infinite (fuel : nat) (count : Z) (k : Z -> prog) :
  (forall c, c <> 0 -> safe sem (k c)) ->
  safe sem (wait_zero_infinite fuel sem count k).
Proof.
  intros Hk. revert count. induction fuel as [|fuel IH]; intros count;
    cbn [wait_zero_infinite];
    (destruct (Z.eqb_spec count 0); [|by apply Hk]); [constructor|].
  cbn. constructor; [done|]. intros ok.
  destruct (ok =? FALSE); [by apply safe_call|].
  cbn. constructor; [done|]. intros c. apply IH.
Qed.

Lemma safe_wait_loop_infinite (fuel : nat) :
  safe sem (wait_loop_infinite fuel sem).
Proof.
  induction fuel as [|fuel IH]; cbn [wait_loop_infinite]; [constructor|].
  cbn. constructor; [done|]. intros count.
  apply safe_wait_zero_infinite. intros c Hc. by apply safe_exchange.
Qed.

Lemma safe_wait_zero_timed (fuel : nat) (deadline count : Z) (k : Z -> prog) :
  (forall c, c <> 0 -> safe sem (k c)) ->
  safe sem (wait_zero_timed fuel sem deadline count k).
Proof.
  intros Hk. revert count. induction fuel as [|fuel IH]; intros count;
    cbn [wait_zero_timed];
    (destruct (Z.eqb_spec count 0); [|by apply Hk]); [constructor|].
  cbn. constructor; [done|]. intros now.
  destruct (deadline >? now); [|constructor].
  cbn. constructor; [done|]. intros ok.
  destruct (ok =? FALSE).
  - cbn. constructor; [done|]. intros err.
    destruct (err =? ERROR_TIMEOUT); [constructor|by apply safe_call].
  - cbn. constructor; [done|]. intros c. apply IH.
Qed.

Lemma safe_wait_loop_timed (fuel : nat) (deadline : Z) :
  safe sem (wait_loop_timed fuel sem deadline).
Proof.
  induction fuel as [|fuel IH]; cbn [wait_loop_timed]; [constructor|].
  cbn. constructor; [done|]. intros count.
  apply safe_wait_zero_timed. intros c Hc. by apply safe_exchange.
Qed.

Lemma safe_Wait (fuel : nat) (timeoutNS : Z) :
  safe sem (SDL_WaitSemaphoreTimeoutNS_atom fuel sem timeoutNS).
Proof.
  unfold SDL_WaitSemaphoreTimeoutNS_atom.
  destruct (sem =? NULL); [by apply safe_call|].
  destruct (timeoutNS =? 0).
  - cbn. constructor; [done|]. intros count.
    destruct (Z.eqb_spec count 0); [constructor|].
    cbn. constructor; [by cbn|]. intros old.
    destruct (old =? count); constructor.
  - destruct (timeoutNS <? 0); [apply safe_wait_loop_infinite|].
    cbn. constructor; [done|]. intros now. apply safe_wait_loop_timed.
Qed.

Lemma safe_Post : safe sem (SDL_PostSemaphore_atom sem).
Proof.
  unfold SDL_PostSemaphore_atom.
  destruct (sem =? NULL); [by apply safe_call|].
  cbn. repeat (constructor; [done|]; intros ?). constructor.
Qed.

Lemma safe_GetValue : safe sem (SDL_GetSemaphoreValue_atom sem).
Proof.
  unfold SDL_GetSemaphoreValue_atom.
  destruct (sem =? NULL); cbn;
    repeat (constructor; [done|]; intros ?); constructor.
Qed.

Lemma client_safe (p : prog) : client sem p -> safe sem p.
Proof.
  induction 1; [constructor|..]; apply safe_bind; auto.
  - apply safe_Wait.
  - apply safe_Post.
  - apply safe_GetValue.
Qed.

Lemma count_log_snoc (f : event -> bool) (lg : list (nat * event))
    (x : nat * event) :
  count_log f (lg ++ [x]) = count_log f lg + (if f x.2 then 1 else 0).
Proof.
  unfold count_log. rewrite List.filter_app, length_app. cbn.
  destruct (f x.2); cbn; lia.
Qed.

Lemma exec_polite (a : action) (e r c : Z) (w w' : World) :
  polite sem a -> exec_action a e w = Some (r, w') ->
  heap w !! sem = Some (atom_sem c) ->
  exists c', heap w' !! sem = Some (atom_sem c') /\
             count_step sem (a, r) c c'.
Proof.
  intros Hpol Hex Hs.
  assert (Hsame : w' = w ->
            is_post sem (a, r) = false -> is_acquire sem (a, r) = false ->
            exists c', heap w' !! sem = Some (atom_sem c') /\
                       count_step sem (a, r) c c').
  { intros -> ? ?. exists c. split; [done|]. right. right. done. }
  destruct a; cbn in Hpol; try done; cbn in Hex.
  all: try (injection Hex as <- <-; by apply Hsame).
  - (* MemLoad *)
    destruct (read_lval w l); [|done]. injection Hex as <- <-.
    by apply Hsame.
  - (* InterlockedCompareExchange *)
    destruct Hpol as (-> & Hc & ->).
    rewrite (read_atom_count _ _ _ Hs) in Hex. cbn in Hex.
    destruct (Z.eqb_spec c comparand) as [<-|Hne].
    + erewrite write_atom_count in Hex by exact Hs.
      injection Hex as <- <-. exists (to_LONG (c - 1)).
      split; [cbn; apply lookup_insert_eq|]. right. left.
      unfold is_post, is_acquire. cbn.
      rewrite bool_decide_eq_true_2, Z.eqb_refl by done. done.
    + injection Hex as <- <-. exists c. split; [done|]. right. right.
      unfold is_post, is_acquire. cbn.
      destruct (Z.eqb_spec c comparand); [done|].
      by rewrite andb_false_r.
  - (* InterlockedIncrement *)
    subst l. rewrite (read_atom_count _ _ _ Hs) in Hex. cbn in Hex.
    erewrite write_atom_count in Hex by exact Hs. injection Hex as <- <-.
    exists (to_LONG (c + 1)). split; [cbn; apply lookup_insert_eq|].
    left. unfold is_post, is_acquire. cbn.
    by rewrite bool_decide_eq_true_2.
  - (* pWaitOnAddress *)
    destruct (g_pWaitOnAddress w =? NULL); [done|].
    destruct (read_lval w l); [|done]. injection Hex as <- <-.
    by apply Hsame.
  - (* pWakeByAddressSingle *)
    destruct (g_pWakeByAddressSingle w =? NULL); [done|].
    injection Hex as <- <-. by apply Hsame.
Qed.
End invariant.

Lemma to_LONG_zero_iff (N : Z) : to_LONG N <> 0 -> N <> 0.
Proof. intros H ->. by apply H. Qed.

Lemma sys_step_inv (sem V : Z) (i : nat) (e : Z) (s : sys) :
  count_inv sem V s -> count_inv sem V (sys_step i e s).
Proof.
  intros (HN & Hheap & Hsafe & Hlog). unfold sys_step.
  destruct (threads s !! i) as [[v|a k| |]|] eqn:Ei;
    try by repeat split.
  pose proof (Forall_lookup_1 _ _ _ _ Hsafe Ei) as Hact.
  inversion Hact as [| | |a' k' Hpol Hk]; subst a' k'.
  destruct (exec_action a e (world s)) as [[r w']|] eqn:Ex.
  - destruct (exec_polite sem a e r _ _ _ Hpol Ex Hheap) as (c' & Hc' & Hstep).
    unfold count_inv, posts, acquired. cbn [log world threads].
    rewrite !count_log_snoc. cbn [snd].
    assert (Hins : Forall (safe sem) (<[i:=k r]> (threads s))).
    { apply Forall_insert; auto. }
    assert (Hlog' : Forall (fun x : nat * event => polite sem x.2.1)
                      (log s ++ [(i, (a, r))])).
    { apply Forall_app. split; [done|]. by constructor. }
    fold (posts sem (log s)) (acquired sem (log s)).
    set (N := V + posts sem (log s) - acquired sem (log s)) in *.
    destruct Hstep as [(-> & -> & ->)|[(-> & -> & Hc & ->)|(-> & -> & ->)]].
    + replace (V + (posts sem (log s) + 1) - (acquired sem (log s) + 0))
        with (N + 1) by lia.
      rewrite to_LONG_add_l in Hc'. repeat split; try done; lia.
    + apply to_LONG_zero_iff in Hc.
      replace (V + (posts sem (log s) + 0) - (acquired sem (log s) + 1))
        with (N - 1) by lia.
      replace (to_LONG N - 1) with (to_LONG N + -1) in Hc' by lia.
      rewrite to_LONG_add_l in Hc'.
      replace (N + -1) with (N - 1) in Hc' by lia.
      repeat split; try done; lia.
    + replace (V + (posts sem (log s) + 0) - (acquired sem (log s) + 0))
        with N by lia.
      repeat split; try done; lia.
  - repeat split; try done. cbn. apply Forall_insert; [done|constructor].
Qed.

Lemma sys_exec_inv (sem V : Z) (sched : list (nat * Z)) (s : sys) :
  count_inv sem V s -> count_inv sem V (sys_exec sched s).
Proof.
  unfold sys_exec. revert s.
  induction sched as [|[i e] sched IH]; intros s Hs; [done|].
  cbn. apply IH. by apply sys_step_inv.
Qed.

(** C1. Take a semaphore created by SDL_CreateSemaphore_atom with the
    value V, and any threads that wait on it (any timeout), post to it
    and read its value, run in any interleaving of their calls.  At
    every point, with N = V + posts - acquisitions:
    - N is not negative: no more waits have taken a unit than V and the
      posts provide;
    - the count is N in LONG, so SDL_GetSemaphoreValue called at that
      point returns N mod 2^32, which is not negative, and the LONG
      itself is N, not negative, as long as N fits a LONG;
    - every call so far that could change the count was an increment by
      one, or an exchange from a value that is not 0 to that value minus
      one. *)
Theorem semaphore_count_never_negative (V sem e1 : Z) (env : list Z)
    (w0 : World) (ts : list prog) (sched : list (nat * Z))
    (HV : is_Uint32 V) (Hsem : sem <> NULL) (Hfresh : heap w0 !! sem = None)
    (Hts : Forall (client sem) ts) :
  let created := run (SDL_CreateSemaphore_atom V) (sem :: e1 :: env) w0 in
  let s := sys_exec sched {| world := created.1.2; threads := ts; log := [] |} in
  let N := V + posts sem (log s) - acquired sem (log s) in
  created.2 = Ret sem /\
  0 <= N /\
  exists count,
    heap (world s) !! sem = Some (atom_sem count) /\
    (forall e env',
       (run (SDL_GetSemaphoreValue_atom sem) (e :: env') (world s)).2
       = Ret (N mod 2 ^ 32)) /\
    0 <= N mod 2 ^ 32 /\
    (N <= LONG_MAX -> count = N /\ 0 <= count) /\
    Forall (fun x : nat * event => polite sem x.2.1) (log s).
Proof.
  cbv zeta. rewrite CreateSemaphore_atom_run by done. cbn [fst snd].
  set (s := sys_exec sched _).
  set (N := V + posts sem (log s) - acquired sem (log s)).
  split; [done|].
  assert (Hinv : count_inv sem V s).
  { apply sys_exec_inv. unfold count_inv. cbn [log world threads heap set_heap].
    replace (V + posts sem [] - acquired sem []) with V
      by (unfold posts, acquired, count_log; cbn; lia).
    unfold is_Uint32 in HV. split; [lia|]. split; [apply lookup_insert_eq|].
    split; [|constructor].
    eapply Forall_impl; [exact Hts|]. apply client_safe. }
  destruct Hinv as (HN & Hheap & _ & Hlog). fold N in HN, Hheap.
  split; [done|]. exists (to_LONG N). split; [done|].
  split.
  { intros e env'. erewrite GetSemaphoreValue_atom_run by done.
    cbn. by rewrite to_Uint32_to_LONG. }
  split; [apply Z.mod_pos_bound; lia|].
  split; [|done].
  intros Hmax. rewrite to_LONG_id; [done|].
  unfold is_LONG, LONG_MIN, LONG_MAX in *. lia.
Qed.

Lemma semaphore_count_never_negative_witness :
  let ts := [(r <- SDL_WaitSemaphoreTimeoutNS_atom 3 500 0 ;; Ret r);
             (r <- SDL_PostSemaphore_atom 500 ;; Ret r);
             (r <- SDL_WaitSemaphoreTimeoutNS_atom 3 500 (-1) ;; Ret r)] in
  let sched := [(0%nat, 0); (2%nat, 0); (0%nat, 0); (2%nat, 0); (1%nat, 0);
                (2%nat, 1); (1%nat, 0); (2%nat, 0); (2%nat, 0)] in
  let created := run (SDL_CreateSemaphore_atom 1) [500; 0] World_atom in
  let s := sys_exec sched {| world := created.1.2; threads := ts; log := [] |} in
  0 <= 1 + posts 500 (log s) - acquired 500 (log s).
Proof.
  intros ts sched created s.
  refine (proj1 (proj2 (semaphore_count_never_negative 1 500 0 [] World_atom
                          ts sched _ _ _ _))).
  - unfold is_Uint32. lia.
  - done.
  - reflexivity.
  - repeat constructor.
Defined.

(** The scenario of the specification, one thread: after Create(3)
    three polls return 0, the fourth returns SDL_MUTEX_TIMEDOUT, and the
    value read then is 0. *)
Example three_polls_then_timeout :
  let p :=
    sem <- SDL_CreateSemaphore_atom 3 ;;
    r1 <- SDL_WaitSemaphoreTimeoutNS_atom 0 sem 0 ;;
    r2 <- SDL_WaitSemaphoreTimeoutNS_atom 0 sem 0 ;;
    r3 <- SDL_WaitSemaphoreTimeoutNS_atom 0 sem 0 ;;
    r4 <- SDL_WaitSemaphoreTimeoutNS_atom 0 sem 0 ;;
    v <- SDL_GetSemaphoreValue_atom sem ;;
    Ret (r1 + 10 * r2 + 100 * r3 + 1000 * r4 + 10000 * v) in
  (run p [500; 0; 0; 0; 0; 0; 0; 0; 0; 0] World_atom).2
  = Ret (1000 * SDL_MUTEX_TIMEDOUT).
Proof. vm_compute. reflexivity. Qed.

(** Two threads poll a semaphore of count 1: both read 1, the exchange
    of the first takes place, the exchange of the second finds 0 and the
    poll returns SDL_MUTEX_TIMEDOUT without a wait. *)
Example poll_lost_race :
  let ts := [SDL_WaitSemaphoreTimeoutNS_atom 0 500 0;
             SDL_WaitSemaphoreTimeoutNS_atom 0 500 0] in
  let w := (run (SDL_CreateSemaphore_atom 1) [500; 0] World_atom).1.2 in
  let s := sys_exec [(0%nat, 0); (1%nat, 0); (0%nat, 0); (1%nat, 0)]
             {| world := w; threads := ts; log := [] |} in
  threads s = [Ret 0; Ret SDL_MUTEX_TIMEDOUT] /\
  heap (world s) !! 500 = Some (atom_sem 0).
Proof. vm_compute. split; reflexivity. Qed.

(** ** Runtime selection *)

Lemma keeps_bind (p : prog) (k : Z -> prog) :
  keeps_table p -> (forall r, keeps_table (k r)) -> keeps_table (bind p k).
Proof. intros Hp Hk. induction Hp; cbn; try constructor; auto. Qed.

Lemma polite_keeps (sem : Z) (a : action) : polite sem a -> writes_table a = false.
Proof.
  destruct a; cbn; try done.
  - by intros (-> & _).
  - by intros ->.
Qed.

Lemma safe_keeps (sem : Z) (p : prog) : safe sem p -> keeps_table p.
Proof.
  induction 1; constructor; auto. by eapply polite_keeps.
Qed.

Ltac keeps :=
  repeat first
    [ progress cbn [bind call negb]
    | match goal with
      | |- keeps_table (if ?b then _ else _) => destruct b
      | |- keeps_table (Act _ _) => constructor; [reflexivity|intros ?]
      | |- keeps_table (Ret _) => constructor
      | |- keeps_table Crash => constructor
      | |- keeps_table (bind _ _) => apply keeps_bind; [|intros ?]
      | |- keeps_table (call _) => unfold call
      end ].

Lemma keeps_call_Create (fp V : Z) : keeps_table (call_Create fp V).
Proof.
  unfold call_Create. destruct (func_at fp) as [[]|]; try apply keeps_Crash.
  - unfold SDL_CreateSemaphore_atom. keeps.
  - unfold SDL_CreateSemaphore_kern. keeps.
Qed.

Lemma keeps_call_Destroy (fp sem : Z) : keeps_table (call_Destroy fp sem).
Proof.
  unfold call_Destroy. destruct (func_at fp) as [[]|]; try apply keeps_Crash.
  - unfold SDL_DestroySemaphore_atom. keeps.
  - unfold SDL_DestroySemaphore_kern. keeps.
Qed.

Lemma keeps_call_WaitTimeoutNS (fuel : nat) (fp sem timeoutNS : Z) :
  keeps_table (call_WaitTimeoutNS fuel fp sem timeoutNS).
Proof.
  unfold call_WaitTimeoutNS. destruct (func_at fp) as [[]|]; try apply keeps_Crash.
  - eapply safe_keeps, safe_Wait.
  - unfold SDL_WaitSemaphoreTimeoutNS_kern. keeps.
Qed.

Lemma keeps_call_Value (fp sem : Z) : keeps_table (call_Value fp sem).
Proof.
  unfold call_Value. destruct (func_at fp) as [[]|]; try apply keeps_Crash.
  - eapply safe_keeps, safe_GetValue.
  - unfold SDL_GetSemaphoreValue_kern. keeps.
Qed.

Lemma keeps_call_Post (fp sem : Z) : keeps_table (call_Post fp sem).
Proof.
  unfold call_Post. destruct (func_at fp) as [[]|]; try apply keeps_Crash.
  - eapply safe_keeps, safe_Post.
  - unfold SDL_PostSemaphore_kern. keeps.
Qed.

Lemma write_keeps (w w' : World) (l : lval) (v : Z) :
  table_lval l = false -> write_lval w l v = Some w' ->
  SDL_sem_impl_active w' = SDL_sem_impl_active w.
Proof.
  unfold write_lval. intros Hl Hw.
  destruct l; try discriminate; try (by injection Hw as <-);
    destruct (heap w !! sem) as [[s|s]|]; try done; by injection Hw as <-.
Qed.

Lemma exec_keeps (a : action) (e r : Z) (w w' : World) :
  writes_table a = false -> exec_action a e w = Some (r, w') ->
  SDL_sem_impl_active w' = SDL_sem_impl_active w.
Proof.
  intros Ha Hex. destruct a; cbn in Ha, Hex;
    try (by injection Hex as <- <-).
  - destruct (_ && _); by injection Hex as <- <-.
  - destruct (heap w !! p); [|done]. by injection Hex as <- <-.
  - destruct (read_lval w l); [|done]. by injection Hex as <- <-.
  - destruct (write_lval w l v) eqn:Ew; [|done]. injection Hex as <- <-.
    by eapply write_keeps.
  - destruct (read_lval w l); [|done]. cbn in Hex.
    destruct (_ =? _); [|by injection Hex as <- <-].
    destruct (write_lval w l exchange) eqn:Ew; [|done]. injection Hex as <- <-.
    by eapply write_keeps.
  - destruct (read_lval w l); [|done]. cbn in Hex.
    destruct (write_lval w l _) eqn:Ew; [|done]. injection Hex as <- <-.
    by eapply write_keeps.
  - destruct (read_lval w l); [|done]. cbn in Hex.
    destruct (write_lval w l _) eqn:Ew; [|done]. injection Hex as <- <-.
    by eapply write_keeps.
  - destruct (_ =? _); [done|]. destruct (read_lval w l); [|done].
    by injection Hex as <- <-.
  - destruct (_ =? _); [done|]. by injection Hex as <- <-.
Qed.

Lemma run_keeps (p : prog) :
  keeps_table p ->
  forall (env : list Z) (w : World),
    SDL_sem_impl_active (run p env w).1.2 = SDL_sem_impl_active w.
Proof.
  induction 1 as [| | |a k Ha Hk IH]; intros env w;
    try (by destruct env).
  destruct env as [|e env]; [done|]. cbn.
  destruct (exec_action a e w) as [[r w']|] eqn:Ex; [|done].
  specialize (IH r env w').
  destruct (run (k r) env w') as [[tr w''] q]. cbn in *.
  rewrite IH. by eapply exec_keeps.
Qed.

Lemma keeps_dispatch_Create (V : Z) :
  keeps_table (f <- call (MemLoad active_Create) ;; call_Create f V).
Proof. cbn. constructor; [done|]. intros f. apply keeps_call_Create. Qed.

Lemma installed_Create (w : World) :
  installed w -> Create (SDL_sem_impl_active w) <> NULL.
Proof. by intros [-> | ->]. Qed.

Lemma CreateSemaphore_keeps (V : Z) (env : list Z) (w : World) :
  Create (SDL_sem_impl_active w) <> NULL ->
  SDL_sem_impl_active (run (SDL_CreateSemaphore V) env w).1.2
  = SDL_sem_impl_active w.
Proof.
  intros Hc. destruct env as [|e env]; [done|].
  unfold SDL_CreateSemaphore, install_impl. cbn [bind call run exec_action].
  unfold read_lval at 1. cbn [mbind option_bind].
  destruct (Z.eqb_spec (Create (SDL_sem_impl_active w)) NULL); [done|].
  cbn [bind].
  pose proof (run_keeps _ (keeps_dispatch_Create V) env w) as Hk.
  cbn [bind call] in Hk.
  destruct (run _ env w) as [[tr w'] q]. done.
Qed.

(** Once the table is installed (it is one of the two constant tables),
    no call of the five public functions changes it, whatever the
    arguments and whatever the calls return. *)
Lemma installed_table_never_changes (w : World) (fuel : nat)
    (V sem timeoutNS : Z) (env : list Z) (Hinst : installed w) :
  SDL_sem_impl_active (run (SDL_CreateSemaphore V) env w).1.2
    = SDL_sem_impl_active w /\
  SDL_sem_impl_active (run (SDL_DestroySemaphore sem) env w).1.2
    = SDL_sem_impl_active w /\
  SDL_sem_impl_active (run (SDL_WaitSemaphoreTimeoutNS fuel sem timeoutNS) env w).1.2
    = SDL_sem_impl_active w /\
  SDL_sem_impl_active (run (SDL_GetSemaphoreValue sem) env w).1.2
    = SDL_sem_impl_active w /\
  SDL_sem_impl_active (run (SDL_PostSemaphore sem) env w).1.2
    = SDL_sem_impl_active w.
Proof.
  split; [by apply CreateSemaphore_keeps, installed_Create|].
  repeat split; apply run_keeps; cbn; (constructor; [done|]); intros f.
  - apply keeps_call_Destroy.
  - apply keeps_call_WaitTimeoutNS.
  - apply keeps_call_Value.
  - apply keeps_call_Post.
Qed.

(** The first call of SDL_CreateSemaphore, alone: the installation
    makes a plain read of the Create field, resolves the two functions
    unless the hint forces the kernel implementation, and copies one of
    the two constant tables with plain stores.  It ends with the table
    installed; the atom table is chosen only when both functions were
    found.  None of its calls is an interlocked one. *)
Lemma install_impl_run (w : World)
    (e0 hint module p1 e4 p2 e6 e7 e8 e9 e10 e11 e12 e13 : Z) (env : list Z) :
  Create (SDL_sem_impl_active w) = NULL ->
  let r := run install_impl
             (e0 :: hint :: module :: p1 :: e4 :: p2 :: e6 :: e7 :: e8 ::
              e9 :: e10 :: e11 :: e12 :: e13 :: env) w in
  let atom_chosen :=
    (hint =? 0) && negb (module =? NULL) && negb (p1 =? NULL) && negb (p2 =? NULL) in
  (exists v, r.2 = Ret v) /\
  SDL_sem_impl_active r.1.2
    = (if atom_chosen then SDL_sem_impl_atom else SDL_sem_impl_kern) /\
  (atom_chosen = true ->
     g_pWaitOnAddress r.1.2 <> NULL /\ g_pWakeByAddressSingle r.1.2 <> NULL) /\
  Forall (fun ev : event => is_interlocked ev.1 = false) r.1.1.
Proof.
  intros Hzero r. subst r.
  set (res := run install_impl _ w).
  assert (Hres : exists tr w',
            res = (tr, w', Ret 0) /\
            SDL_sem_impl_active w'
              = (if (hint =? 0) && negb (module =? NULL) && negb (p1 =? NULL)
                    && negb (p2 =? NULL)
                 then SDL_sem_impl_atom else SDL_sem_impl_kern) /\
            ((hint =? 0) && negb (module =? NULL) && negb (p1 =? NULL)
               && negb (p2 =? NULL) = true ->
             g_pWaitOnAddress w' <> NULL /\ g_pWakeByAddressSingle w' <> NULL) /\
            Forall (fun ev : event => is_interlocked ev.1 = false) tr).
  { subst res. unfold install_impl, choose_impl.
    cbn [bind call run exec_action]. unfold read_lval at 1.
    cbn [mbind option_bind]. rewrite Hzero.
    cbn [Z.eqb NULL bind run exec_action answer].
    unfold BOOL_of.
    destruct (hint =? 0) eqn:Eh; destruct (module =? NULL) eqn:Em;
      destruct (p1 =? NULL) eqn:E1; destruct (p2 =? NULL) eqn:E2;
      repeat (progress (cbn; unfold read_lval, write_lval;
                        rewrite ?Eh, ?Em, ?E1, ?E2));
      (eexists _, _; split; [reflexivity|]);
      (split; [done|]); (split; [|repeat constructor]);
      cbn; try done; intros _;
      split; intros ->; cbn in *; congruence. }
  destruct Hres as (tr & w' & -> & Ht & Hp & Htr). cbn. eauto.
Qed.

Lemma keeps_stable (p : prog) : keeps_table p -> stable p.
Proof. induction 1; by constructor. Qed.

Lemma stable_bind (p : prog) (k : Z -> prog) :
  stable p -> (forall r, stable (k r)) -> stable (bind p k).
Proof.
  intros Hp Hk. induction Hp; cbn; auto using stable.
Qed.

Lemma stable_CreateSemaphore (V : Z) : stable (SDL_CreateSemaphore V).
Proof.
  unfold SDL_CreateSemaphore, install_impl. cbn [bind call].
  apply stable_check. intros r Hr.
  destruct (Z.eqb_spec r NULL); [done|]. cbn [bind].
  apply keeps_stable, keeps_dispatch_Create.
Qed.

Lemma caller_stable (p : prog) : caller p -> stable p.
Proof.
  induction 1; [constructor|..]; apply stable_bind; auto.
  - apply stable_CreateSemaphore.
  - apply keeps_stable. cbn. constructor; [done|]. intros f.
    apply keeps_call_Destroy.
  - apply keeps_stable. cbn. constructor; [done|]. intros f.
    apply keeps_call_WaitTimeoutNS.
  - apply keeps_stable. cbn. constructor; [done|]. intros f.
    apply keeps_call_Value.
  - apply keeps_stable. cbn. constructor; [done|]. intros f.
    apply keeps_call_Post.
Qed.

Lemma sys_step_stable (t : SDL_sem_impl_t) (i : nat) (e : Z) (s : sys) :
  Create t <> NULL ->
  SDL_sem_impl_active (world s) = t /\ Forall stable (threads s) ->
  SDL_sem_impl_active (world (sys_step i e s)) = t /\
  Forall stable (threads (sys_step i e s)).
Proof.
  intros Ht [Hw Hts]. unfold sys_step.
  destruct (threads s !! i) as [[v|a k| |]|] eqn:Ei; try done.
  pose proof (Forall_lookup_1 _ _ _ _ Hts Ei) as Hact.
  destruct (exec_action a e (world s)) as [[r w']|] eqn:Ex; cbn.
  2:{ split; [done|]. apply Forall_insert; [done|constructor]. }
  inversion Hact as [| | |k' Hk|a' k' Ha Hk]; subst.
  - cbn in Ex. unfold read_lval in Ex. cbn in Ex. injection Ex as <- <-.
    split; [done|]. apply Forall_insert; [done|]. by apply Hk.
  - split; [by rewrite (exec_keeps _ _ _ _ _ Ha Ex)|].
    apply Forall_insert; [done|]. apply Hk.
Qed.

Lemma sys_exec_stable (t : SDL_sem_impl_t) (sched : list (nat * Z)) (s : sys) :
  Create t <> NULL ->
  SDL_sem_impl_active (world s) = t -> Forall stable (threads s) ->
  SDL_sem_impl_active (world (sys_exec sched s)) = t.
Proof.
  intros Ht Hw Hts. unfold sys_exec.
  enough (SDL_sem_impl_active
            (world (fold_left (fun s ie => sys_step ie.1 ie.2 s) sched s)) = t /\
          Forall stable
            (threads (fold_left (fun s ie => sys_step ie.1 ie.2 s) sched s)))
    by tauto.
  revert s Hw Hts. induction sched as [|[i e] sched IH]; intros s Hw Hts;
    [done|].
  cbn. destruct (sys_step_stable t i e s Ht (conj Hw Hts)) as [Hw' Hts'].
  by apply IH.
Qed.

(** C4, what holds of it.  Run on its own, the first statement of
    SDL_CreateSemaphore in a process whose table is still empty returns
    with the table installed: one of the two constant tables, whole.  It
    gets there by a plain read of the Create field and plain stores, one
    per field: none of its calls is an interlocked one.  From then on the
    table never changes: not by a call of one of the five public
    functions, whatever the arguments and whatever its calls return, and
    not by any number of threads that call them, in any interleaving. *)
Theorem table_installed_once (w : World)
    (e0 hint module p1 e4 p2 e6 e7 e8 e9 e10 e11 e12 e13 : Z) (env : list Z)
    (Hzero : Create (SDL_sem_impl_active w) = NULL) :
  let r := run install_impl
             (e0 :: hint :: module :: p1 :: e4 :: p2 :: e6 :: e7 :: e8 ::
              e9 :: e10 :: e11 :: e12 :: e13 :: env) w in
  let t := SDL_sem_impl_active r.1.2 in
  (exists v, r.2 = Ret v) /\
  installed r.1.2 /\
  Forall (fun ev : event => is_interlocked ev.1 = false) r.1.1 /\
  (forall (fuel : nat) (V sem timeoutNS : Z) (env' : list Z),
     SDL_sem_impl_active (run (SDL_CreateSemaphore V) env' r.1.2).1.2 = t /\
     SDL_sem_impl_active (run (SDL_DestroySemaphore sem) env' r.1.2).1.2 = t /\
     SDL_sem_impl_active
       (run (SDL_WaitSemaphoreTimeoutNS fuel sem timeoutNS) env' r.1.2).1.2 = t /\
     SDL_sem_impl_active (run (SDL_GetSemaphoreValue sem) env' r.1.2).1.2 = t /\
     SDL_sem_impl_active (run (SDL_PostSemaphore sem) env' r.1.2).1.2 = t) /\
  (forall (ts : list prog) (sched : list (nat * Z)),
     Forall caller ts ->
     SDL_sem_impl_active
       (world (sys_exec sched {| world := r.1.2; threads := ts; log := [] |}))
     = t).
Proof.
  intros r t.
  destruct (install_impl_run w e0 hint module p1 e4 p2 e6 e7 e8 e9 e10 e11
              e12 e13 env Hzero) as (Hret & Htab & _ & Hplain).
  fold r in Hret, Htab, Hplain.
  assert (Hinst : installed r.1.2).
  { unfold installed. rewrite Htab. destruct (_ && _); auto. }
  split; [done|]. split; [done|]. split; [done|]. split.
  - intros fuel V sem timeoutNS env'.
    by apply installed_table_never_changes.
  - intros ts sched Hts. apply sys_exec_stable; [|done|].
    + by apply installed_Create.
    + eapply Forall_impl; [exact Hts|]. apply caller_stable.
Qed.

Lemma table_installed_once_witness :
  let r := run install_impl [0; 0; 9000; 7001; 0; 7002; 0; 0; 0; 0; 0; 0; 0; 0]
             World0 in
  let ts := [(sem <- SDL_CreateSemaphore 1 ;; r <- SDL_PostSemaphore sem ;; Ret r);
             (sem <- SDL_CreateSemaphore 0 ;; Ret sem)] in
  installed r.1.2 /\
  SDL_sem_impl_active
    (world (sys_exec [(0%nat, 0); (1%nat, 0); (1%nat, 0); (0%nat, 0);
                      (1%nat, 600); (0%nat, 500); (0%nat, 0); (1%nat, 0)]
              {| world := r.1.2; threads := ts; log := [] |}))
    = SDL_sem_impl_active r.1.2.
Proof.
  intros r ts.
  destruct (table_installed_once World0 0 0 9000 7001 0 7002 0 0 0 0 0 0 0 0 []
              eq_refl) as (_ & Hinst & _ & _ & Hkeep).
  split; [exact Hinst|].
  apply Hkeep. repeat constructor.
Defined.

(** C4, as the specification has it, fails, in two ways.

    The table is seen half filled.  While thread 0 is inside the copy of
    its first SDL_CreateSemaphore call, thread 1 sees the table with
    Create set and the other four fields still null: its own
    SDL_CreateSemaphore call goes through Create and returns a
    semaphore, and its SDL_PostSemaphore call then goes through the null
    Post field.

    The installed table changes.  This does not depend on how the copy
    itself is carried out (each copy here runs without another thread in
    between).  Two threads pass the plain check Create == NULL; the
    first installs the atom table and creates a semaphore with it; the
    second, for which the hint now forces the kernel implementation,
    then copies the kernel table over the installed one, and the post of
    the first thread to its atom semaphore goes to the kernel post, which
    faults on it.

    No interlocked call is made on the way: the check and the copy are
    plain accesses. *)
Lemma table_install_races :
  (let s := sys_exec race_sched
              {| world := World0; threads := race_threads; log := [] |} in
   SDL_sem_impl_active (world s)
     = {| Create := addr_of fn_CreateSemaphore_atom; Destroy := NULL;
          WaitTimeoutNS := NULL; Value := NULL; Post := NULL |} /\
   ~ installed (world s) /\
   last (log s) = Some (1%nat, (MemLoad active_Post, NULL)) /\
   threads s !! 1%nat = Some Crash /\
   Forall (fun x : nat * event => is_interlocked x.2.1 = false) (log s)) /\
  (let s1 := sys_exec race2_sched_install
               {| world := World0; threads := race2_threads; log := [] |} in
   let s2 := sys_exec race2_sched_overwrite s1 in
   SDL_sem_impl_active (world s1) = SDL_sem_impl_atom /\
   heap (world s1) !! 500 = Some (atom_sem 1) /\
   SDL_sem_impl_active (world s2) = SDL_sem_impl_kern /\
   threads s2 !! 1%nat = Some (Ret 600) /\
   threads s2 !! 0%nat = Some Crash /\
   Forall (fun x : nat * event => is_interlocked x.2.1 = false) (log s2)).
Proof.
  cbv zeta. split.
  - split; [vm_compute; reflexivity|].
    split; [intros [H|H]; vm_compute in H; discriminate|].
    repeat (split; [vm_compute; reflexivity|]).
    match goal with
    | |- Forall _ ?l => let l' := eval vm_compute in l in change l with l'
    end.
    repeat constructor.
  - repeat (split; [vm_compute; reflexivity|]).
    match goal with
    | |- Forall _ ?l => let l' := eval vm_compute in l in change l with l'
    end.
    repeat constructor.
Qed.

(** * More of the file *)

(** ** Running one call after another *)

Lemma run_bind (p : prog) (k : Z -> prog) :
  forall (env1 env2 : list Z) (w w' : World) (tr : list event) (v : Z),
    run p env1 w = (tr, w', Ret v) -> length tr = length env1 ->
    run (bind p k) (env1 ++ env2) w
    = (tr ++ (run (k v) env2 w').1.1, (run (k v) env2 w').1.2,
       (run (k v) env2 w').2).
Proof.
  induction p as [v0|a k0 IH| |]; intros env1 env2 w w' tr v Hrun Hlen.
  - assert (Hr : run (Ret v0) env1 w = ([], w, Ret v0)) by (by destruct env1).
    rewrite Hr in Hrun. injection Hrun as <- <- <-.
    destruct env1; [|done]. cbn [bind app].
    by destruct (run (k v0) env2 w) as [[? ?] ?].
  - destruct env1 as [|e env1]; [done|]. cbn [bind app run] in *.
    destruct (exec_action a e w) as [[r w1]|]; [|done].
    destruct (run (k0 r) env1 w1) as [[tr1 w2] q] eqn:E.
    injection Hrun as <- <- ->. cbn in Hlen.
    rewrite (IH r env1 env2 w1 w2 tr1 v E) by lia.
    reflexivity.
  - by destruct env1.
  - by destruct env1.
Qed.

(** ** Create and destroy *)

(** X1. SDL_CreateSemaphore_atom either fails, and then it has called
    SDL_OutOfMemory, returns NULL and leaves the world as it was, or
    returns a block that was not live before, holding the initial value,
    and leaves every other block as it was. *)
Theorem CreateSemaphore_atom_total (initial_value p e : Z) (env : list Z)
    (w : World) :
  let r := run (SDL_CreateSemaphore_atom initial_value) (p :: e :: env) w in
  (r = ([(SDL_malloc T_sem_atom, NULL); (SDL_OutOfMemory, SDL_ERROR_RESULT)],
        w, Ret NULL)) \/
  (exists sem, sem <> NULL /\ heap w !! sem = None /\
     r.2 = Ret sem /\
     heap r.1.2 !! sem = Some (atom_sem (to_LONG initial_value)) /\
     (forall q, q <> sem -> heap r.1.2 !! q = heap w !! q) /\
     SDL_sem_impl_active r.1.2 = SDL_sem_impl_active w /\
     Forall (fun ev : event => ev.1 <> SDL_OutOfMemory) r.1.1).
Proof.
  intros r. subst r.
  destruct (decide (p = NULL \/ heap w !! p <> None)) as [Hbad|Hok].
  - left. by apply CreateSemaphore_atom_oom.
  - right. assert (p <> NULL /\ heap w !! p = None) as [Hp Hf].
    { split; [tauto|]. destruct (heap w !! p) eqn:E; [|done].
      exfalso. apply Hok. by right. }
    rewrite CreateSemaphore_atom_run by done. cbn [fst snd].
    exists p. split; [done|]. split; [done|]. split; [done|].
    split; [apply lookup_insert_eq|].
    split; [by intros q Hq; apply lookup_insert_ne|].
    split; [done|]. repeat constructor; discriminate.
Qed.

Lemma CreateSemaphore_atom_total_witness :
  exists sem,
    sem <> NULL /\
    (run (SDL_CreateSemaphore_atom 3) [500; 0] World0).2 = Ret sem.
Proof.
  destruct (CreateSemaphore_atom_total 3 500 0 [] World0)
    as [H|(sem & Hs & _ & Hr & _)].
  - rewrite CreateSemaphore_atom_run in H by done. discriminate H.
  - by exists sem.
Defined.

Lemma DestroySemaphore_atom_run (sem e : Z) (b : block) (env : list Z) (w : World) :
  sem <> NULL -> heap w !! sem = Some b ->
  run (SDL_DestroySemaphore_atom sem) (e :: env) w
  = ([(SDL_free sem, 0)], set_heap w (delete sem (heap w)), Ret 0).
Proof.
  intros Hs Hb. unfold SDL_DestroySemaphore_atom. nonnull sem.
  cbn. by rewrite Hb.
Qed.

(** X2. SDL_DestroySemaphore_atom frees the block of a live semaphore
    and nothing else, and makes no call at all on NULL.  Destroying a
    semaphore right after creating it leaves the world as it was before
    the creation. *)
Theorem CreateSemaphore_DestroySemaphore_atom (initial_value p e1 e2 : Z)
    (env : list Z) (w : World)
    (Hp : p <> NULL) (Hfresh : heap w !! p = None) :
  run (sem <- SDL_CreateSemaphore_atom initial_value ;;
       SDL_DestroySemaphore_atom sem) (p :: e1 :: e2 :: env) w
    = ([(SDL_malloc T_sem_atom, p);
        (MemStore (sem_atom_count p) (to_LONG initial_value), 0);
        (SDL_free p, 0)], w, Ret 0) /\
  (forall (b : block) (w1 : World), heap w1 !! p = Some b ->
     run (SDL_DestroySemaphore_atom p) (e1 :: env) w1
     = ([(SDL_free p, 0)], set_heap w1 (delete p (heap w1)), Ret 0)) /\
  run (SDL_DestroySemaphore_atom NULL) (e1 :: env) w = ([], w, Ret 0).
Proof.
  split; [|split; [|reflexivity]].
  - rewrite (run_bind _ _ [p; e1] (e2 :: env) w _ _ p
               (CreateSemaphore_atom_run initial_value p e1 [] w Hp Hfresh)
               eq_refl).
    erewrite DestroySemaphore_atom_run;
      [|done|cbn; apply lookup_insert_eq].
    cbn. rewrite set_heap_set_heap, delete_insert_id by done.
    by rewrite set_heap_same.
  - intros b w1 Hb. by eapply DestroySemaphore_atom_run.
Qed.

Lemma CreateSemaphore_DestroySemaphore_atom_witness :
  run (sem <- SDL_CreateSemaphore_atom 3 ;; SDL_DestroySemaphore_atom sem)
      [500; 0; 0] World_atom
  = ([(SDL_malloc T_sem_atom, 500);
      (MemStore (sem_atom_count 500) 3, 0);
      (SDL_free 500, 0)], World_atom, Ret 0).
Proof.
  refine (proj1 (CreateSemaphore_DestroySemaphore_atom 3 500 0 0 []
                   World_atom _ _)).
  - done.
  - reflexivity.
Defined.

Lemma DestroySemaphore_kern_run (sem h c e1 e2 e3 e4 e5 : Z) (env : list Z)
    (w : World) :
  sem <> NULL -> heap w !! sem = Some (kern_sem h c) ->
  run (SDL_DestroySemaphore_kern sem) (e1 :: e2 :: e3 :: e4 :: e5 :: env) w
  = if h =? NULL
    then ([(MemLoad (sem_kern_id sem), h); (SDL_free sem, 0)],
          set_heap w (delete sem (heap w)), Ret 0)
    else ([(MemLoad (sem_kern_id sem), h);
           (MemLoad (sem_kern_id sem), h);
           (CloseHandle h, BOOL_of e3);
           (MemStore (sem_kern_id sem) 0, 0);
           (SDL_free sem, 0)],
          set_heap w (delete sem (heap w)), Ret 0).
Proof.
  intros Hs Hb. unfold SDL_DestroySemaphore_kern. nonnull sem.
  cbn. rewrite (read_kern_id _ _ _ _ Hb). cbn.
  destruct (Z.eqb_spec h NULL) as [->|Hh]; cbn.
  - by rewrite Hb.
  - rewrite (read_kern_id _ _ _ _ Hb). cbn.
    erewrite write_kern_id by exact Hb. cbn.
    rewrite lookup_insert_eq. cbn. by rewrite delete_insert_eq.
Qed.

(** X3. SDL_DestroySemaphore_kern on a live semaphore closes its handle
    when it has one (and only then), clears the id and frees the block;
    on NULL it makes no call.  Destroying a semaphore right after
    creating it closes the handle CreateSemaphore gave and leaves the
    world as it was before the creation. *)
Theorem CreateSemaphore_DestroySemaphore_kern
    (initial_value p h e1 e2 e3 d1 d2 d3 d4 d5 c : Z) (env : list Z)
    (w w1 : World)
    (Hp : p <> NULL) (Hfresh : heap w !! p = None) (Hh : h <> NULL)
    (Hlive : heap w1 !! p = Some (kern_sem NULL c)) :
  run (sem <- SDL_CreateSemaphore_kern initial_value ;;
       SDL_DestroySemaphore_kern sem)
      (p :: h :: e1 :: e2 :: e3 :: d1 :: d2 :: d3 :: d4 :: d5 :: env) w
    = ([(SDL_malloc T_sem_kern, p);
        (CreateSemaphore (to_LONG initial_value) 32768, h);
        (MemStore (sem_kern_id p) h, 0);
        (MemStore (sem_kern_count p) (to_LONG initial_value), 0);
        (MemLoad (sem_kern_id p), h);
        (MemLoad (sem_kern_id p), h);
        (MemLoad (sem_kern_id p), h);
        (CloseHandle h, BOOL_of d3);
        (MemStore (sem_kern_id p) 0, 0);
        (SDL_free p, 0)], w, Ret 0) /\
  run (SDL_DestroySemaphore_kern p) (d1 :: d2 :: d3 :: d4 :: d5 :: env) w1
    = ([(MemLoad (sem_kern_id p), NULL); (SDL_free p, 0)],
       set_heap w1 (delete p (heap w1)), Ret 0) /\
  run (SDL_DestroySemaphore_kern NULL) (d1 :: env) w = ([], w, Ret 0).
Proof.
  split; [|split; [|reflexivity]].
  - rewrite (run_bind _ _ [p; h; e1; e2; e3] (d1 :: d2 :: d3 :: d4 :: d5 :: env)
               w _ _ p
               (CreateSemaphore_kern_run initial_value p h e1 e2 e3 [] w
                  Hp Hfresh Hh) eq_refl).
    erewrite DestroySemaphore_kern_run;
      [|done|cbn; apply lookup_insert_eq].
    destruct (Z.eqb_spec h NULL); [done|].
    cbn. rewrite set_heap_set_heap, delete_insert_id by done.
    by rewrite set_heap_same.
  - by rewrite (DestroySemaphore_kern_run p NULL c d1 d2 d3 d4 d5 env w1 Hp Hlive).
Qed.

Lemma CreateSemaphore_DestroySemaphore_kern_witness :
  (run (sem <- SDL_CreateSemaphore_kern 3 ;; SDL_DestroySemaphore_kern sem)
       [500; 77; 0; 0; 0; 0; 0; 1; 0; 0] World0).1.2 = World0.
Proof.
  pose proof (CreateSemaphore_DestroySemaphore_kern 3 500 77 0 0 0 0 0 1 0 0 5
                [] World0
                (set_heap World0 (<[500 := kern_sem NULL 5]> ∅))
                ltac:(done) ltac:(reflexivity) ltac:(done) ltac:(reflexivity))
    as [H _].
  by rewrite H.
Defined.

(** ** Wait, atom implementation: every path *)

Lemma always_feed (P : action -> Prop) (R : Z -> Prop) (p : prog) :
  always P R p ->
  forall answers,
    Forall (fun ev : event => P ev.1) (feed p answers).1 /\
    (forall v, (feed p answers).2 = Ret v -> R v).
Proof.
  induction 1 as [v Hv| | |a k Ha Hk IH]; intros answers.
  - rewrite feed_Ret. split; [constructor|]. by intros v' [= <-].
  - rewrite feed_Spin. split; [constructor|done].
  - destruct answers; cbn; (split; [constructor|done]).
  - destruct answers as [|e answers]; [rewrite feed_nil; split; [constructor|done]|].
    rewrite feed_Act. cbn [fst snd].
    destruct (IH e answers) as [Htr Hq].
    split; [by constructor|done].
Qed.

Lemma safe_feed (sem : Z) (p : prog) :
  safe sem p ->
  forall answers, Forall (fun ev : event => polite sem ev.1) (feed p answers).1.
Proof.
  induction 1 as [| | |a k Ha Hk IH]; intros answers.
  - rewrite feed_Ret. constructor.
  - rewrite feed_Spin. constructor.
  - destruct answers; constructor.
  - destruct answers as [|e answers]; [rewrite feed_nil; constructor|].
    rewrite feed_Act. cbn [fst]. constructor; [done|apply IH].
Qed.

Section always_wait.
Variables (P : action -> Prop) (R : Z -> Prop) (sem : Z).
Hypothesis P_load : P (MemLoad (sem_atom_count sem)).
Hypothesis P_error : P (SDL_SetError "WaitOnAddress() failed").
Hypothesis P_exchange : forall count, count <> 0 ->
  P (InterlockedCompareExchange (sem_atom_count sem) (to_LONG (count - 1)) count).
Hypothesis R_ok : R 0.
Hypothesis R_error : R SDL_ERROR_RESULT.

Lemma always_exchange (count : Z) (next : prog) :
  count <> 0 -> always P R next ->
  always P R (old <- call (InterlockedCompareExchange (sem_atom_count sem)
                             (to_LONG (count - 1)) count) ;;
              if old =? count then Ret 0 else next).
Proof.
  intros Hc Hn. cbn. constructor; [by apply P_exchange|].
  intros e. destruct (_ =? count); [by constructor|done].
Qed.

Lemma always_wait_loop_infinite (fuel : nat) :
  P (pWaitOnAddress (sem_atom_count sem) 0 sizeof_LONG INFINITE) ->
  always P R (wait_loop_infinite fuel sem).
Proof.
  intros P_block.
  assert (Hzero : forall g count k,
            (forall c, c <> 0 -> always P R (k c)) ->
            always P R (wait_zero_infinite g sem count k)).
  { intros g. induction g as [|g IH]; intros count k Hk;
      cbn [wait_zero_infinite];
      (destruct (Z.eqb_spec count 0) as [->|]; [|by apply Hk]);
      [constructor|].
    cbn. constructor; [done|]. intros ok.
    destruct (_ =? FALSE).
    - constructor; [done|]. intros e. by constructor.
    - cbn. constructor; [done|]. intros c. by apply IH. }
  induction fuel as [|fuel IH]; cbn [wait_loop_infinite]; [constructor|].
  cbn. constructor; [done|]. intros count.
  apply Hzero. intros c Hc. by apply always_exchange.
Qed.

Lemma always_wait_loop_timed (fuel : nat) (deadline : Z) :
  P SDL_GetTicksNS -> P GetLastError -> R SDL_MUTEX_TIMEDOUT ->
  (forall timeout, P (pWaitOnAddress (sem_atom_count sem) 0 sizeof_LONG timeout)) ->
  always P R (wait_loop_timed fuel sem deadline).
Proof.
  intros P_clock P_last R_timeout P_block.
  assert (Hzero : forall g count k,
            (forall c, c <> 0 -> always P R (k c)) ->
            always P R (wait_zero_timed g sem deadline count k)).
  { intros g. induction g as [|g IH]; intros count k Hk;
      cbn [wait_zero_timed];
      (destruct (Z.eqb_spec count 0) as [->|]; [|by apply Hk]);
      [constructor|].
    cbn. constructor; [done|]. intros now.
    destruct (deadline >? _); [|by constructor].
    cbn. constructor; [done|]. intros ok.
    destruct (_ =? FALSE).
    - cbn. constructor; [done|]. intros err.
      destruct (_ =? ERROR_TIMEOUT); [by constructor|].
      constructor; [done|]. intros e. by constructor.
    - cbn. constructor; [done|]. intros c. by apply IH. }
  induction fuel as [|fuel IH]; cbn [wait_loop_timed]; [constructor|].
  cbn. constructor; [done|]. intros count.
  apply Hzero. intros c Hc. by apply always_exchange.
Qed.
End always_wait.

(** X5. SDL_WaitSemaphoreTimeoutNS_atom with a negative timeoutNS on a
    non-null semaphore, whatever its calls return: it only reads the
    count, blocks on the count with the value 0 and the timeout
    INFINITE, exchanges a count that is not 0 for that count minus one,
    or calls SDL_SetError; it never reads the clock.  It returns 0 or
    the error result, never SDL_MUTEX_TIMEDOUT. *)
Theorem WaitSemaphore_atom_infinite (fuel : nat) (sem timeoutNS : Z)
    (answers : list Z) (Hsem : sem <> NULL) (Ht : timeoutNS < 0) :
  let r := feed (SDL_WaitSemaphoreTimeoutNS_atom fuel sem timeoutNS) answers in
  Forall (fun ev : event => infinite_wait_call sem ev.1) r.1 /\
  Forall (fun ev : event => ev.1 <> SDL_GetTicksNS) r.1 /\
  (forall v, r.2 = Ret v ->
     (v = 0 \/ v = SDL_ERROR_RESULT) /\ v <> SDL_MUTEX_TIMEDOUT).
Proof.
  intros r. subst r.
  unfold SDL_WaitSemaphoreTimeoutNS_atom. nonnull sem.
  destruct (Z.eqb_spec timeoutNS 0); [lia|].
  destruct (Z.ltb_spec timeoutNS 0); [|lia].
  assert (Hal : always (infinite_wait_call sem)
                  (fun v => v = 0 \/ v = SDL_ERROR_RESULT)
                  (wait_loop_infinite fuel sem)).
  { apply always_wait_loop_infinite; unfold infinite_wait_call; eauto 10. }
  destruct (always_feed _ _ _ Hal answers) as [Htr Hq].
  split; [done|]. split.
  - eapply Forall_impl; [exact Htr|]. intros [a x] Ha. cbn in *.
    destruct Ha as [->|[->|[->|(c & _ & ->)]]]; discriminate.
  - intros v Hv. split; [by apply Hq|].
    destruct (Hq v Hv) as [->| ->]; discriminate.
Qed.

Lemma WaitSemaphore_atom_infinite_witness :
  Forall (fun ev : event => infinite_wait_call 500 ev.1)
    (feed (SDL_WaitSemaphoreTimeoutNS_atom 4 500 (-1)) [0; 1; 2; 2]).1.
Proof.
  refine (proj1 (WaitSemaphore_atom_infinite 4 500 (-1) [0; 1; 2; 2] _ _)).
  - done.
  - lia.
Defined.

(** X6. SDL_WaitSemaphoreTimeoutNS_atom on a non-null semaphore,
    whatever the timeout and whatever its calls return, returns nothing
    but 0, SDL_MUTEX_TIMEDOUT or the error result, and with timeoutNS ==
    0 never the error result.  The only memory it writes is the count of
    that semaphore, and it writes it only by the exchange of a count that
    is not 0 for that count minus one: it makes no store, no increment or
    decrement, no allocation and no free. *)
Theorem WaitSemaphore_atom_outcomes (fuel : nat) (sem timeoutNS : Z)
    (answers : list Z) (Hsem : sem <> NULL) :
  let r := feed (SDL_WaitSemaphoreTimeoutNS_atom fuel sem timeoutNS) answers in
  (forall v, r.2 = Ret v ->
     (v = 0 \/ v = SDL_MUTEX_TIMEDOUT \/ v = SDL_ERROR_RESULT) /\
     (timeoutNS = 0 -> v <> SDL_ERROR_RESULT)) /\
  Forall (fun ev : event =>
            polite sem ev.1 /\
            forall l, ev.1 <> InterlockedIncrement l) r.1.
Proof.
  intros r. subst r. split.
  - assert (Hal : always (fun _ => True)
                    (fun v => v = 0 \/ v = SDL_MUTEX_TIMEDOUT \/ v = SDL_ERROR_RESULT)
                    (SDL_WaitSemaphoreTimeoutNS_atom fuel sem timeoutNS)).
    { unfold SDL_WaitSemaphoreTimeoutNS_atom. nonnull sem.
      destruct (timeoutNS =? 0).
      - cbn. constructor; [done|]. intros c.
        destruct (_ =? 0); [constructor; auto|].
        cbn. constructor; [done|]. intros old.
        destruct (_ =? _); constructor; auto.
      - destruct (timeoutNS <? 0).
        + apply always_wait_loop_infinite; auto.
        + cbn. constructor; [done|]. intros now.
          apply always_wait_loop_timed; auto. }
    intros v Hv. split; [by apply (always_feed _ _ _ Hal answers)|].
    intros ->. revert Hv.
    unfold SDL_WaitSemaphoreTimeoutNS_atom. nonnull sem. cbn [Z.eqb].
    destruct answers as [|c [|old answers]]; cbn; try done.
    + destruct (c =? 0); [|done]. by intros [= <-].
    + destruct (c =? 0); cbn; [by intros [= <-]|].
      destruct (old =? c); by intros [= <-].
  - assert (Hal : always (fun a => polite sem a /\
                            forall l, a <> InterlockedIncrement l)
                    (fun _ => True)
                    (SDL_WaitSemaphoreTimeoutNS_atom fuel sem timeoutNS)).
    { unfold SDL_WaitSemaphoreTimeoutNS_atom. nonnull sem.
      destruct (timeoutNS =? 0).
      - cbn. constructor; [done|]. intros c.
        destruct (Z.eqb_spec (answer (MemLoad (sem_atom_count sem)) c) 0);
          [by constructor|].
        cbn. constructor; [by cbn|]. intros old.
        destruct (_ =? _); by constructor.
      - destruct (timeoutNS <? 0).
        + apply always_wait_loop_infinite; try done;
            intros c Hc; by cbn.
        + cbn. constructor; [done|]. intros now.
          apply always_wait_loop_timed; try done;
            intros c Hc; by cbn. }
    apply (always_feed _ _ _ Hal answers).
Qed.

Lemma WaitSemaphore_atom_outcomes_witness :
  Forall (fun ev : event =>
            polite 500 ev.1 /\
            forall l, ev.1 <> InterlockedIncrement l)
    (feed (SDL_WaitSemaphoreTimeoutNS_atom 3 500 1000) [10; 0; 2000]).1.
Proof.
  exact (proj2 (WaitSemaphore_atom_outcomes 3 500 1000 [10; 0; 2000]
                  ltac:(done))).
Defined.

Section acquisitions.
Variable sem : Z.

Lemma acq_ok_Ret (v : Z) : v <> 0 -> acq_ok sem (Ret v).
Proof.
  intros Hv answers. rewrite feed_Ret. cbn.
  by destruct (Z.eqb_spec v 0).
Qed.

Lemma acq_ok_Act (a : action) (k : Z -> prog) :
  (forall e, is_acquire sem (a, answer a e) = false) ->
  (forall e, acq_ok sem (k (answer a e))) ->
  acq_ok sem (Act a k).
Proof.
  intros Ha Hk [|e answers]; [by rewrite feed_nil|].
  rewrite feed_Act. cbn [fst snd]. unfold acquisitions. cbn [List.filter].
  rewrite Ha. apply Hk.
Qed.

Lemma acq_ok_exchange (count : Z) (next : prog) :
  acq_ok sem next ->
  acq_ok sem (old <- call (InterlockedCompareExchange (sem_atom_count sem)
                             (to_LONG (count - 1)) count) ;;
              if old =? count then Ret 0 else next).
Proof.
  intros Hn [|e answers]; [by rewrite feed_nil|].
  cbn [bind call]. rewrite feed_Act. cbn [fst snd answer].
  unfold acquisitions. cbn [List.filter is_acquire].
  rewrite bool_decide_eq_true_2 by done. cbn [andb].
  destruct (e =? count).
  - by rewrite feed_Ret.
  - apply Hn.
Qed.

Lemma acq_ok_wait_zero_infinite (fuel : nat) (count : Z) (k : Z -> prog) :
  (forall c, acq_ok sem (k c)) ->
  acq_ok sem (wait_zero_infinite fuel sem count k).
Proof.
  intros Hk. revert count. induction fuel as [|fuel IH]; intros count;
    cbn [wait_zero_infinite]; (destruct (count =? 0); [|by apply Hk]).
  - intros answers. by rewrite feed_Spin.
  - cbn. apply acq_ok_Act; [done|]. intros e.
    destruct (_ =? FALSE).
    + apply acq_ok_Act; [done|]. intros e'. by apply acq_ok_Ret.
    + cbn. apply acq_ok_Act; [done|]. intros c. apply IH.
Qed.

Lemma acq_ok_wait_loop_infinite (fuel : nat) :
  acq_ok sem (wait_loop_infinite fuel sem).
Proof.
  induction fuel as [|fuel IH]; cbn [wait_loop_infinite].
  - intros answers. by rewrite feed_Spin.
  - cbn. apply acq_ok_Act; [done|]. intros c.
    apply acq_ok_wait_zero_infinite. intros c'. by apply acq_ok_exchange.
Qed.

Lemma acq_ok_wait_zero_timed (fuel : nat) (deadline count : Z) (k : Z -> prog) :
  (forall c, acq_ok sem (k c)) ->
  acq_ok sem (wait_zero_timed fuel sem deadline count k).
Proof.
  intros Hk. revert count. induction fuel as [|fuel IH]; intros count;
    cbn [wait_zero_timed]; (destruct (count =? 0); [|by apply Hk]).
  - intros answers. by rewrite feed_Spin.
  - cbn. apply acq_ok_Act; [done|]. intros now.
    destruct (deadline >? _); [|by apply acq_ok_Ret].
    cbn. apply acq_ok_Act; [done|]. intros ok.
    destruct (_ =? FALSE).
    + cbn. apply acq_ok_Act; [done|]. intros err.
      destruct (_ =? ERROR_TIMEOUT); [by apply acq_ok_Ret|].
      apply acq_ok_Act; [done|]. intros e'. by apply acq_ok_Ret.
    + cbn. apply acq_ok_Act; [done|]. intros c. apply IH.
Qed.

Lemma acq_ok_wait_loop_timed (fuel : nat) (deadline : Z) :
  acq_ok sem (wait_loop_timed fuel sem deadline).
Proof.
  induction fuel as [|fuel IH]; cbn [wait_loop_timed].
  - intros answers. by rewrite feed_Spin.
  - cbn. apply acq_ok_Act; [done|]. intros c.
    apply acq_ok_wait_zero_timed. intros c'. by apply acq_ok_exchange.
Qed.
End acquisitions.

(** X7. SDL_WaitSemaphoreTimeoutNS_atom takes a unit exactly when it
    returns 0.  For every timeout and whatever its calls return, the
    number of its exchanges on the count that took place is 1 once it
    has returned 0, and 0 as long as it has not and when it has returned
    anything else: a wait that times out or fails has taken nothing, and
    no wait takes two units. *)
Theorem WaitSemaphore_atom_acquires (fuel : nat) (sem timeoutNS : Z)
    (answers : list Z) (Hsem : sem <> NULL) :
  let r := feed (SDL_WaitSemaphoreTimeoutNS_atom fuel sem timeoutNS) answers in
  acquisitions sem r.1 = returned_0 r.2 /\
  (r.2 = Ret 0 -> acquisitions sem r.1 = 1%nat) /\
  (forall v, v <> 0 -> r.2 = Ret v -> acquisitions sem r.1 = 0%nat).
Proof.
  intros r.
  assert (H : acquisitions sem r.1 = returned_0 r.2).
  { subst r. revert answers.
    change (acq_ok sem (SDL_WaitSemaphoreTimeoutNS_atom fuel sem timeoutNS)).
    unfold SDL_WaitSemaphoreTimeoutNS_atom. nonnull sem.
    destruct (timeoutNS =? 0).
    - cbn. apply acq_ok_Act; [done|]. intros c.
      destruct (_ =? 0); [by apply acq_ok_Ret|].
      apply (acq_ok_exchange sem _ (Ret SDL_MUTEX_TIMEDOUT)).
      by apply acq_ok_Ret.
    - destruct (timeoutNS <? 0); [apply acq_ok_wait_loop_infinite|].
      cbn. apply acq_ok_Act; [done|]. intros now.
      apply acq_ok_wait_loop_timed. }
  split; [done|]. split.
  - intros Hr. by rewrite H, Hr.
  - intros v Hv Hr. rewrite H, Hr. cbn. by destruct (Z.eqb_spec v 0).
Qed.

Lemma WaitSemaphore_atom_acquires_witness :
  acquisitions 500
    (feed (SDL_WaitSemaphoreTimeoutNS_atom 4 500 (-1)) [2; 1; 1; 1]).1
  = 1%nat.
Proof.
  refine (proj1 (proj2 (WaitSemaphore_atom_acquires 4 500 (-1) [2; 1; 1; 1] _)) _).
  - done.
  - reflexivity.
Defined.

(** ** Wait, atom implementation: alone in a world *)

Lemma wait_zero_infinite_nz (fuel : nat) (sem count : Z) (k : Z -> prog) :
  count <> 0 -> wait_zero_infinite fuel sem count k = k count.
Proof. intros H. by destruct fuel; cbn; destruct (Z.eqb_spec count 0). Qed.

Lemma wait_zero_timed_nz (fuel : nat) (sem deadline count : Z) (k : Z -> prog) :
  count <> 0 -> wait_zero_timed fuel sem deadline count k = k count.
Proof. intros H. by destruct fuel; cbn; destruct (Z.eqb_spec count 0). Qed.

(** X8. A wait on a semaphore that has a unit never blocks.  Run with
    no other thread in between on a count that is not 0,
    SDL_WaitSemaphoreTimeoutNS_atom returns 0 for every timeout (zero,
    negative or positive), has taken the count down by one, and has made
    no wait call. *)
Theorem WaitSemaphore_atom_available (fuel : nat) (sem c timeoutNS e1 e2 e3 : Z)
    (env : list Z) (w : World)
    (Hsem : sem <> NULL) (Hlive : heap w !! sem = Some (atom_sem c))
    (Hc : c <> 0) :
  let r := run (SDL_WaitSemaphoreTimeoutNS_atom (S fuel) sem timeoutNS)
             (e1 :: e2 :: e3 :: env) w in
  r.2 = Ret 0 /\
  r.1.2 = set_heap w (<[sem := atom_sem (to_LONG (c - 1))]> (heap w)) /\
  Forall (fun ev : event => is_wait_call ev.1 = false) r.1.1.
Proof.
  intros r. subst r.
  assert (Hnz : (c =? 0) = false) by (by apply Z.eqb_neq).
  unfold SDL_WaitSemaphoreTimeoutNS_atom. nonnull sem.
  destruct (Z.eqb_spec timeoutNS 0) as [->|Hz];
    [|destruct (timeoutNS <? 0)];
    cbn [wait_loop_infinite wait_loop_timed bind call run exec_action answer];
    rewrite (read_atom_count _ _ _ Hlive); cbn [mbind option_bind];
    rewrite ?wait_zero_infinite_nz, ?wait_zero_timed_nz by done;
    rewrite ?Hnz; cbn [bind call run exec_action];
    rewrite (read_atom_count _ _ _ Hlive); cbn [mbind option_bind];
    rewrite Z.eqb_refl; (erewrite write_atom_count by exact Hlive);
    cbn; rewrite Z.eqb_refl; cbn;
    (split; [done|]); (split; [done|]); repeat constructor.
Qed.

Lemma WaitSemaphore_atom_available_witness :
  (run (SDL_WaitSemaphoreTimeoutNS_atom 1 500 5000000) [0; 0; 0] World1).2
  = Ret 0.
Proof.
  refine (proj1 (WaitSemaphore_atom_available 0 500 3 5000000 0 0 0 [] World1
                   _ _ _)).
  - done.
  - reflexivity.
  - done.
Defined.

Section idle.
Variables (sem : Z) (w : World).
Hypothesis Hempty : heap w !! sem = Some (atom_sem 0).

Lemma idle_Ret (v : Z) : v <> 0 -> idle w (Ret v).
Proof. intros Hv env. destruct env; cbn; (split; [done|]); by intros v' [= <-]. Qed.

Lemma idle_Spin : idle w Spin.
Proof. intros env. by destruct env. Qed.

(** A call that leaves the world alone, followed by an idle program. *)
Lemma idle_Act (a : action) (k : Z -> prog) :
  (forall e, exec_action a e w = None \/
             exists r, exec_action a e w = Some (r, w) /\ idle w (k r)) ->
  idle w (Act a k).
Proof.
  intros Ha [|e env]; [done|]. cbn.
  destruct (Ha e) as [->|(r & -> & Hk)]; [done|].
  destruct (Hk env) as [Hw Hv].
  by destruct (run (k r) env w) as [[tr w'] q].
Qed.

Lemma idle_load (k : Z -> prog) :
  idle w (k 0) -> idle w (Act (MemLoad (sem_atom_count sem)) k).
Proof.
  intros Hk. apply idle_Act. intros e. right. exists 0. split; [|done].
  cbn. by rewrite (read_atom_count _ _ _ Hempty).
Qed.

Lemma idle_block (timeout : Z) (k : Z -> prog) :
  (forall ok, idle w (k ok)) ->
  idle w (Act (pWaitOnAddress (sem_atom_count sem) 0 sizeof_LONG timeout) k).
Proof.
  intros Hk. apply idle_Act. intros e. cbn.
  destruct (g_pWaitOnAddress w =? NULL); [by left|].
  rewrite (read_atom_count _ _ _ Hempty). right. eauto.
Qed.

Lemma idle_error (msg : string) : idle w (call (SDL_SetError msg)).
Proof.
  apply idle_Act. intros e. right. eexists. split; [reflexivity|].
  by apply idle_Ret.
Qed.

Lemma idle_wait_zero_infinite (fuel : nat) (k : Z -> prog) :
  idle w (wait_zero_infinite fuel sem 0 k).
Proof.
  induction fuel as [|fuel IH]; cbn; [apply idle_Spin|].
  apply idle_block. intros ok.
  destruct (ok =? FALSE); [apply idle_error|].
  cbn. by apply idle_load.
Qed.

Lemma idle_wait_zero_timed (fuel : nat) (deadline : Z) (k : Z -> prog) :
  idle w (wait_zero_timed fuel sem deadline 0 k).
Proof.
  induction fuel as [|fuel IH]; cbn; [apply idle_Spin|].
  apply idle_Act. intros e. right. eexists. split; [reflexivity|].
  destruct (deadline >? _); [|by apply idle_Ret].
  cbn. apply idle_block. intros ok.
  destruct (ok =? FALSE).
  - cbn. apply idle_Act. intros e'. right. eexists. split; [reflexivity|].
    destruct (_ =? ERROR_TIMEOUT); [by apply idle_Ret|apply idle_error].
  - cbn. by apply idle_load.
Qed.
End idle.

(** X9. A wait on an empty semaphore that no other thread posts to
    takes nothing.  Run with no other thread in between on a count of 0,
    SDL_WaitSemaphoreTimeoutNS_atom leaves the world as it was, for every
    timeout and however far it gets, and when it returns it does not
    return 0. *)
Theorem WaitSemaphore_atom_empty (fuel : nat) (sem timeoutNS : Z)
    (env : list Z) (w : World)
    (Hsem : sem <> NULL) (Hempty : heap w !! sem = Some (atom_sem 0)) :
  let r := run (SDL_WaitSemaphoreTimeoutNS_atom fuel sem timeoutNS) env w in
  r.1.2 = w /\ (forall v, r.2 = Ret v -> v <> 0).
Proof.
  intros r. subst r. revert env.
  change (idle w (SDL_WaitSemaphoreTimeoutNS_atom fuel sem timeoutNS)).
  unfold SDL_WaitSemaphoreTimeoutNS_atom. nonnull sem.
  destruct (timeoutNS =? 0).
  - cbn. apply (idle_load sem w Hempty). by apply idle_Ret.
  - destruct (timeoutNS <? 0).
    + destruct fuel as [|fuel]; cbn; [apply idle_Spin|].
      apply (idle_load sem w Hempty).
      by apply idle_wait_zero_infinite.
    + cbn. apply idle_Act. intros e. right. eexists. split; [reflexivity|].
      destruct fuel as [|fuel]; cbn; [apply idle_Spin|].
      apply (idle_load sem w Hempty).
      by apply idle_wait_zero_timed.
Qed.

Lemma WaitSemaphore_atom_empty_witness :
  let w := set_heap World_atom (<[500 := atom_sem 0]> ∅) in
  (run (SDL_WaitSemaphoreTimeoutNS_atom 5 500 1000000) [10; 0; 20; 1; 0; 2000000] w).1.2
  = w.
Proof.
  intros w.
  refine (proj1 (WaitSemaphore_atom_empty 5 500 1000000
                   [10; 0; 20; 1; 0; 2000000] w _ _)).
  - done.
  - reflexivity.
Defined.

(** ** Post and wait, one after the other *)

Lemma to_LONG_succ_nz (c : Z) : is_LONG c -> c <> -1 -> to_LONG (c + 1) <> 0.
Proof.
  unfold is_LONG, LONG_MIN, LONG_MAX. intros H Hc.
  destruct (decide (c = 2 ^ 31 - 1)) as [->|Hne]; [by vm_compute|].
  rewrite to_LONG_id; [lia|]. unfold is_LONG, LONG_MIN, LONG_MAX. lia.
Qed.

Lemma to_LONG_dec_inc (c : Z) : is_LONG c -> to_LONG (to_LONG (c - 1) + 1) = c.
Proof.
  intros H. rewrite to_LONG_add_l. replace (c - 1 + 1) with c by lia.
  by apply to_LONG_id.
Qed.

Lemma PostSemaphore_atom_run (sem c e1 e2 : Z) (env : list Z) (w : World) :
  sem <> NULL -> heap w !! sem = Some (atom_sem c) ->
  g_pWakeByAddressSingle w <> NULL ->
  run (SDL_PostSemaphore_atom sem) (e1 :: e2 :: env) w
  = ([(InterlockedIncrement (sem_atom_count sem), to_LONG (c + 1));
      (pWakeByAddressSingle (sem_atom_count sem), 0)],
     set_heap w (<[sem := atom_sem (to_LONG (c + 1))]> (heap w)),
     Ret 0).
Proof.
  intros Hsem Hlive Hwake. unfold SDL_PostSemaphore_atom. nonnull sem.
  cbn. rewrite (read_atom_count _ _ _ Hlive). cbn.
  erewrite write_atom_count by exact Hlive. cbn.
  by destruct (Z.eqb_spec (g_pWakeByAddressSingle w) NULL).
Qed.

(** X10. A post and a poll undo each other.  On a live atom semaphore
    of count c, with no other thread in between: SDL_PostSemaphore_atom
    returns 0 and leaves the count at c + 1, and a wait with
    timeoutNS == 0 run next returns 0 and leaves the world as it was
    before the post (unless c was -1, the Uint32 4294967295, which the
    post takes to 0); when c is not 0 the poll returns 0 and leaves the
    count at c - 1, and the post run next returns 0 and leaves the world
    as it was before the poll. *)
Theorem PostSemaphore_WaitSemaphore_atom (fuel : nat) (sem c e1 e2 e3 e4 : Z)
    (env : list Z) (w : World)
    (Hsem : sem <> NULL) (Hlive : heap w !! sem = Some (atom_sem c))
    (Hc : is_LONG c) (Hwake : g_pWakeByAddressSingle w <> NULL) :
  let posted := set_heap w (<[sem := atom_sem (to_LONG (c + 1))]> (heap w)) in
  let taken := set_heap w (<[sem := atom_sem (to_LONG (c - 1))]> (heap w)) in
  (c <> -1 ->
   run (SDL_PostSemaphore_atom sem) (e1 :: e2 :: env) w
   = ([(InterlockedIncrement (sem_atom_count sem), to_LONG (c + 1));
       (pWakeByAddressSingle (sem_atom_count sem), 0)],
      posted, Ret 0) /\
   run (SDL_WaitSemaphoreTimeoutNS_atom fuel sem 0) (e3 :: e4 :: env) posted
   = ([(MemLoad (sem_atom_count sem), to_LONG (c + 1));
       (InterlockedCompareExchange (sem_atom_count sem) c (to_LONG (c + 1)),
        to_LONG (c + 1))],
      w, Ret 0)) /\
  (c <> 0 ->
   run (SDL_WaitSemaphoreTimeoutNS_atom fuel sem 0) (e1 :: e2 :: env) w
   = ([(MemLoad (sem_atom_count sem), c);
       (InterlockedCompareExchange (sem_atom_count sem) (to_LONG (c - 1)) c, c)],
      taken, Ret 0) /\
   run (SDL_PostSemaphore_atom sem) (e3 :: e4 :: env) taken
   = ([(InterlockedIncrement (sem_atom_count sem), c);
       (pWakeByAddressSingle (sem_atom_count sem), 0)],
      w, Ret 0)).
Proof.
  intros posted taken.
  assert (Hback : forall w1 v,
            heap w1 = <[sem := atom_sem v]> (heap w) ->
            SDL_sem_impl_active w1 = SDL_sem_impl_active w ->
            g_pWaitOnAddress w1 = g_pWaitOnAddress w ->
            g_pWakeByAddressSingle w1 = g_pWakeByAddressSingle w ->
            set_heap w1 (<[sem := atom_sem c]> (heap w1)) = w).
  { intros [h1 t1 a1 b1] v. cbn. intros -> -> -> ->.
    unfold set_heap. cbn.
    rewrite insert_insert_eq, insert_id by done. by destruct w. }
  split; intros Hne.
  - pose proof (to_LONG_succ_nz c Hc Hne) as Hnz.
    split; [by apply PostSemaphore_atom_run|].
    assert (Hlive1 : heap posted !! sem = Some (atom_sem (to_LONG (c + 1))))
      by (subst posted; cbn; apply lookup_insert_eq).
    pose proof (WaitSemaphore_atom_poll_run fuel sem _ e3 e4 env posted
                  Hsem Hlive1) as Hpoll.
    destruct (Z.eqb_spec (to_LONG (c + 1)) 0); [done|].
    rewrite Hpoll, to_LONG_inc_dec by done.
    by erewrite Hback.
  - pose proof (WaitSemaphore_atom_poll_run fuel sem c e1 e2 env w Hsem Hlive)
      as Hpoll.
    destruct (Z.eqb_spec c 0); [done|].
    split; [done|].
    assert (Hlive1 : heap taken !! sem = Some (atom_sem (to_LONG (c - 1))))
      by (subst taken; cbn; apply lookup_insert_eq).
    assert (Hwake1 : g_pWakeByAddressSingle taken <> NULL) by done.
    rewrite (PostSemaphore_atom_run sem _ e3 e4 env taken Hsem Hlive1 Hwake1).
    rewrite to_LONG_dec_inc by done.
    by erewrite Hback.
Qed.

Lemma PostSemaphore_WaitSemaphore_atom_witness :
  run (SDL_PostSemaphore_atom 500) [0; 0] World1
  = ([(InterlockedIncrement (sem_atom_count 500), 4);
      (pWakeByAddressSingle (sem_atom_count 500), 0)],
     set_heap World1 (<[500 := atom_sem 4]> (heap World1)), Ret 0).
Proof.
  destruct (PostSemaphore_WaitSemaphore_atom 0 500 3 0 0 0 0 [] World1)
    as [H _].
  - done.
  - reflexivity.
  - unfold is_LONG, LONG_MIN, LONG_MAX. lia.
  - done.
  - exact (proj1 (H ltac:(done))).
Defined.

Lemma WaitSemaphore_kern_acquired_run (sem h c timeoutNS e1 r e3 : Z)
    (env : list Z) (w : World) :
  sem <> NULL -> heap w !! sem = Some (kern_sem h c) ->
  to_DWORD r = WAIT_OBJECT_0 ->
  run (SDL_WaitSemaphoreTimeoutNS_kern sem timeoutNS) (e1 :: r :: e3 :: env) w
  = ([(MemLoad (sem_kern_id sem), h);
      (WaitForSingleObjectEx h
         (if timeoutNS <? 0 then INFINITE else to_DWORD (SDL_NS_TO_MS timeoutNS))
         FALSE, WAIT_OBJECT_0);
      (InterlockedDecrement (sem_kern_count sem), to_LONG (c - 1))],
     set_heap w (<[sem := kern_sem h (to_LONG (c - 1))]> (heap w)),
     Ret 0).
Proof.
  intros Hsem Hlive Hr. unfold SDL_WaitSemaphoreTimeoutNS_kern. nonnull sem.
  cbn. rewrite (read_kern_id _ _ _ _ Hlive). cbn. rewrite Hr. cbn.
  rewrite (read_kern_count _ _ _ _ Hlive). cbn.
  by erewrite write_kern_count by exact Hlive.
Qed.

Lemma PostSemaphore_kern_released_run (sem h c e1 e2 ok : Z)
    (env : list Z) (w : World) :
  sem <> NULL -> heap w !! sem = Some (kern_sem h c) -> ok <> 0 ->
  run (SDL_PostSemaphore_kern sem) (e1 :: e2 :: ok :: env) w
  = ([(InterlockedIncrement (sem_kern_count sem), to_LONG (c + 1));
      (MemLoad (sem_kern_id sem), h);
      (ReleaseSemaphore h 1, TRUE)],
     set_heap w (<[sem := kern_sem h (to_LONG (c + 1))]> (heap w)),
     Ret 0).
Proof.
  intros Hsem Hlive Hok. unfold SDL_PostSemaphore_kern. nonnull sem.
  cbn. rewrite (read_kern_count _ _ _ _ Hlive). cbn.
  erewrite write_kern_count by exact Hlive. cbn.
  erewrite read_kern_id by (cbn; apply lookup_insert_eq).
  cbn. unfold BOOL_of. by destruct (Z.eqb_spec ok 0).
Qed.

(** X11. In the kernel implementation a wait that acquires and a post
    that releases undo each other on the shadow count.  On a live
    semaphore of handle h and count c, with no other thread in between:
    SDL_WaitSemaphoreTimeoutNS_kern calls WaitForSingleObjectEx on h
    and, answered WAIT_OBJECT_0, decrements the count and returns 0;
    SDL_PostSemaphore_kern run next increments the count, calls
    ReleaseSemaphore(h, 1) and, when that succeeds, returns 0 and leaves
    the world as it was before the wait. *)
Theorem WaitSemaphore_PostSemaphore_kern (sem h c timeoutNS e1 r e3 e4 e5 ok : Z)
    (env : list Z) (w : World)
    (Hsem : sem <> NULL) (Hlive : heap w !! sem = Some (kern_sem h c))
    (Hc : is_LONG c) (Hr : to_DWORD r = WAIT_OBJECT_0) (Hok : ok <> 0) :
  let taken := set_heap w (<[sem := kern_sem h (to_LONG (c - 1))]> (heap w)) in
  run (SDL_WaitSemaphoreTimeoutNS_kern sem timeoutNS) (e1 :: r :: e3 :: env) w
  = ([(MemLoad (sem_kern_id sem), h);
      (WaitForSingleObjectEx h
         (if timeoutNS <? 0 then INFINITE else to_DWORD (SDL_NS_TO_MS timeoutNS))
         FALSE, WAIT_OBJECT_0);
      (InterlockedDecrement (sem_kern_count sem), to_LONG (c - 1))],
     taken, Ret 0) /\
  run (SDL_PostSemaphore_kern sem) (e4 :: e5 :: ok :: env) taken
  = ([(InterlockedIncrement (sem_kern_count sem), c);
      (MemLoad (sem_kern_id sem), h);
      (ReleaseSemaphore h 1, TRUE)],
     w, Ret 0).
Proof.
  intros taken.
  split; [by apply WaitSemaphore_kern_acquired_run|].
  assert (Hlive1 : heap taken !! sem = Some (kern_sem h (to_LONG (c - 1))))
    by (subst taken; cbn; apply lookup_insert_eq).
  rewrite (PostSemaphore_kern_released_run sem h _ e4 e5 ok env taken
             Hsem Hlive1 Hok).
  rewrite to_LONG_dec_inc by done.
  subst taken. rewrite set_heap_set_heap. cbn.
  rewrite insert_insert_eq, insert_id by done. by rewrite set_heap_same.
Qed.

Lemma WaitSemaphore_PostSemaphore_kern_witness :
  run (SDL_PostSemaphore_kern 600) [0; 0; 1]
      (set_heap World1 (<[600 := kern_sem 77 (to_LONG (2 - 1))]> (heap World1)))
  = ([(InterlockedIncrement (sem_kern_count 600), 2);
      (MemLoad (sem_kern_id 600), 77);
      (ReleaseSemaphore 77 1, TRUE)],
     World1, Ret 0).
Proof.
  refine (proj2 (WaitSemaphore_PostSemaphore_kern 600 77 2 (-1)
                   0 0 0 0 0 1 [] World1 _ _ _ _ _)).
  - done.
  - reflexivity.
  - unfold is_LONG, LONG_MIN, LONG_MAX. lia.
  - reflexivity.
  - done.
Defined.

(** X12. [n] posts add [n] to the value.  After [n] calls of
    SDL_PostSemaphore_atom on a live semaphore of count [c], with no
    other thread in between, SDL_GetSemaphoreValue_atom returns
    (c + n) mod 2^32. *)
Theorem post_n_value (n : nat) (sem : Z) (env : list Z) (w : World) (c : Z)
    (Hsem : sem <> NULL) (Hlive : heap w !! sem = Some (atom_sem c))
    (Hwake : g_pWakeByAddressSingle w <> NULL)
    (Henv : (2 * n + 1 <= length env)%nat) :
  (run (post_n n sem) env w).2 = Ret (to_Uint32 (c + Z.of_nat n)).
Proof.
  revert env w c Hlive Hwake Henv.
  induction n as [|n IH]; intros env w c Hlive Hwake Henv.
  - destruct env as [|e env]; [cbn in Henv; lia|].
    cbn [post_n]. rewrite (GetSemaphoreValue_atom_run _ _ _ _ _ Hsem Hlive).
    cbn. f_equal. f_equal. lia.
  - destruct env as [|e1 [|e2 env]]; try (cbn in Henv; lia).
    cbn [post_n].
    rewrite (run_bind _ _ [e1; e2] env w _ _ 0
               (PostSemaphore_atom_run sem c e1 e2 [] w Hsem Hlive Hwake)
               eq_refl).
    cbn [snd]. rewrite (IH env _ (to_LONG (c + 1))).
    + rewrite <- to_Uint32_to_LONG, to_LONG_add_l, to_Uint32_to_LONG.
      f_equal. f_equal. lia.
    + cbn. apply lookup_insert_eq.
    + done.
    + cbn in Henv. lia.
Qed.

Lemma post_n_value_witness :
  (run (post_n 4 500) [0; 0; 0; 0; 0; 0; 0; 0; 0] World1).2 = Ret 7.
Proof.
  refine (post_n_value 4 500 [0; 0; 0; 0; 0; 0; 0; 0; 0] World1 3 _ _ _ _).
  - done.
  - reflexivity.
  - done.
  - cbn. lia.
Defined.

(** ** The public functions *)

Lemma run_load (l : lval) (v e : Z) (k : Z -> prog) (env : list Z) (w : World) :
  read_lval w l = Some v ->
  run (Act (MemLoad l) k) (e :: env) w = after (MemLoad l, v) (run (k v) env w).
Proof.
  intros Hl. cbn. rewrite Hl. cbn. unfold after.
  by destruct (run (k v) env w) as [[tr w'] q].
Qed.

(** X13. With a table installed, each public function is a read of its
    field of the table followed by the function of the installed
    implementation, with the same arguments: same calls, same world
    after, same result.  SDL_CreateSemaphore reads the Create field
    twice, first for the check that skips the installation. *)
Theorem public_dispatch (w : World) (fuel : nat) (V sem timeoutNS e1 e2 : Z)
    (env : list Z) :
  (SDL_sem_impl_active w = SDL_sem_impl_atom ->
   run (SDL_CreateSemaphore V) (e1 :: e2 :: env) w
     = after (MemLoad active_Create, addr_of fn_CreateSemaphore_atom)
         (after (MemLoad active_Create, addr_of fn_CreateSemaphore_atom)
            (run (SDL_CreateSemaphore_atom V) env w)) /\
   run (SDL_DestroySemaphore sem) (e1 :: env) w
     = after (MemLoad active_Destroy, addr_of fn_DestroySemaphore_atom)
         (run (SDL_DestroySemaphore_atom sem) env w) /\
   run (SDL_WaitSemaphoreTimeoutNS fuel sem timeoutNS) (e1 :: env) w
     = after (MemLoad active_WaitTimeoutNS, addr_of fn_WaitSemaphoreTimeoutNS_atom)
         (run (SDL_WaitSemaphoreTimeoutNS_atom fuel sem timeoutNS) env w) /\
   run (SDL_GetSemaphoreValue sem) (e1 :: env) w
     = after (MemLoad active_Value, addr_of fn_GetSemaphoreValue_atom)
         (run (SDL_GetSemaphoreValue_atom sem) env w) /\
   run (SDL_PostSemaphore sem) (e1 :: env) w
     = after (MemLoad active_Post, addr_of fn_PostSemaphore_atom)
         (run (SDL_PostSemaphore_atom sem) env w)) /\
  (SDL_sem_impl_active w = SDL_sem_impl_kern ->
   run (SDL_CreateSemaphore V) (e1 :: e2 :: env) w
     = after (MemLoad active_Create, addr_of fn_CreateSemaphore_kern)
         (after (MemLoad active_Create, addr_of fn_CreateSemaphore_kern)
            (run (SDL_CreateSemaphore_kern V) env w)) /\
   run (SDL_DestroySemaphore sem) (e1 :: env) w
     = after (MemLoad active_Destroy, addr_of fn_DestroySemaphore_kern)
         (run (SDL_DestroySemaphore_kern sem) env w) /\
   run (SDL_WaitSemaphoreTimeoutNS fuel sem timeoutNS) (e1 :: env) w
     = after (MemLoad active_WaitTimeoutNS, addr_of fn_WaitSemaphoreTimeoutNS_kern)
         (run (SDL_WaitSemaphoreTimeoutNS_kern sem timeoutNS) env w) /\
   run (SDL_GetSemaphoreValue sem) (e1 :: env) w
     = after (MemLoad active_Value, addr_of fn_GetSemaphoreValue_kern)
         (run (SDL_GetSemaphoreValue_kern sem) env w) /\
   run (SDL_PostSemaphore sem) (e1 :: env) w
     = after (MemLoad active_Post, addr_of fn_PostSemaphore_kern)
         (run (SDL_PostSemaphore_kern sem) env w)).
Proof.
  assert (Hload : forall l v, read_lval w l = Some v ->
            forall k e env', run (Act (MemLoad l) k) (e :: env') w
                             = after (MemLoad l, v) (run (k v) env' w)).
  { intros l v Hl k e env'. by apply run_load. }
  split; intros Ht;
    (split;
     [unfold SDL_CreateSemaphore, install_impl; cbn [bind call];
      erewrite Hload by (unfold read_lval; rewrite Ht; reflexivity);
      cbn [Z.eqb addr_of NULL bind Create SDL_sem_impl_atom SDL_sem_impl_kern];
      erewrite Hload by (unfold read_lval; rewrite Ht; reflexivity);
      reflexivity|]);
    unfold SDL_DestroySemaphore, SDL_WaitSemaphoreTimeoutNS,
      SDL_GetSemaphoreValue, SDL_PostSemaphore; cbn [bind call];
    (split; [|split; [|split]]);
    (erewrite Hload by (unfold read_lval; rewrite Ht; reflexivity));
    reflexivity.
Qed.

Lemma public_dispatch_witness :
  run (SDL_PostSemaphore 500) [0; 0; 0] World1
  = after (MemLoad active_Post, addr_of fn_PostSemaphore_atom)
      (run (SDL_PostSemaphore_atom 500) [0; 0] World1).
Proof.
  destruct (public_dispatch World1 0 0 500 0 0 0 [0; 0]) as [H _].
  destruct (H eq_refl) as (_ & _ & _ & _ & HPost).
  exact HPost.
Defined.

(** X14. Before the first SDL_CreateSemaphore the table is all null,
    and SDL_DestroySemaphore, SDL_WaitSemaphoreTimeoutNS,
    SDL_GetSemaphoreValue and SDL_PostSemaphore do not check it: each
    reads its field and calls through the null pointer, whatever its
    arguments, even a null semaphore.  Only SDL_CreateSemaphore installs
    the table. *)
Theorem public_call_before_create (w : World) (fuel : nat)
    (sem timeoutNS e : Z) (env : list Z)
    (Hzero : SDL_sem_impl_active w = SDL_sem_impl_zero) :
  run (SDL_DestroySemaphore sem) (e :: env) w
    = ([(MemLoad active_Destroy, NULL)], w, Crash) /\
  run (SDL_WaitSemaphoreTimeoutNS fuel sem timeoutNS) (e :: env) w
    = ([(MemLoad active_WaitTimeoutNS, NULL)], w, Crash) /\
  run (SDL_GetSemaphoreValue sem) (e :: env) w
    = ([(MemLoad active_Value, NULL)], w, Crash) /\
  run (SDL_PostSemaphore sem) (e :: env) w
    = ([(MemLoad active_Post, NULL)], w, Crash).
Proof.
  unfold SDL_DestroySemaphore, SDL_WaitSemaphoreTimeoutNS,
    SDL_GetSemaphoreValue, SDL_PostSemaphore. cbn [bind call].
  split; [|split; [|split]];
    (erewrite run_load by (unfold read_lval; rewrite Hzero; reflexivity));
    unfold after; cbn; by destruct env.
Qed.

Lemma public_call_before_create_witness :
  run (SDL_PostSemaphore 500) [0; 0] World0
  = ([(MemLoad active_Post, NULL)], World0, Crash).
Proof.
  exact (proj2 (proj2 (proj2
    (public_call_before_create World0 0 500 0 0 [0] eq_refl)))).
Defined.

(** X4. With either table installed, the public functions on a NULL
    semaphore: SDL_WaitSemaphoreTimeoutNS (any timeout) and
    SDL_PostSemaphore call SDL_InvalidParamError("sem") and return its
    error result; SDL_DestroySemaphore does nothing and returns.  None
    of them changes the world, blocks, or touches the heap. *)
Theorem public_null_semaphore (w : World) (fuel : nat) (timeoutNS e1 e2 : Z)
    (env : list Z) (Hinst : installed w) :
  exists f_wait f_post f_destroy,
    run (SDL_WaitSemaphoreTimeoutNS fuel NULL timeoutNS) (e1 :: e2 :: env) w
      = ([(MemLoad active_WaitTimeoutNS, f_wait);
          (SDL_InvalidParamError "sem", SDL_ERROR_RESULT)],
         w, Ret SDL_ERROR_RESULT) /\
    run (SDL_PostSemaphore NULL) (e1 :: e2 :: env) w
      = ([(MemLoad active_Post, f_post);
          (SDL_InvalidParamError "sem", SDL_ERROR_RESULT)],
         w, Ret SDL_ERROR_RESULT) /\
    run (SDL_DestroySemaphore NULL) (e1 :: e2 :: env) w
      = ([(MemLoad active_Destroy, f_destroy)], w, Ret 0).
Proof.
  unfold SDL_DestroySemaphore, SDL_WaitSemaphoreTimeoutNS, SDL_PostSemaphore.
  cbn [bind call].
  destruct Hinst as [Ht|Ht]; eexists _, _, _;
    (split; [|split]);
    (erewrite run_load by (unfold read_lval; rewrite Ht; reflexivity));
    reflexivity.
Qed.

Lemma public_null_semaphore_witness :
  (run (SDL_WaitSemaphoreTimeoutNS 3 NULL (-1)) [0; 0] World1).2
  = Ret SDL_ERROR_RESULT.
Proof.
  destruct (public_null_semaphore World1 3 (-1) 0 0 [] (or_introl eq_refl))
    as (f1 & f2 & f3 & H & _).
  by rewrite H.
Defined.

(** ** The selection of the implementation *)



Lemma exec_answer (a : action) (e r : Z) (w w' : World) :
  exec_action a e w = Some (r, w') -> exists e', r = answer a e'.
Proof.
  destruct a; cbn; intros H;
    repeat match type of H with
      | context [if ?b then _ else _] => destruct b
      | context [read_lval ?x ?y] => destruct (read_lval x y); cbn in H
      | context [write_lval ?x ?y ?z] => destruct (write_lval x y z); cbn in H
      | context [heap ?x !! ?y] => destruct (heap x !! y)
      end; try done; injection H as <- <-; eauto.
Qed.

Lemma always_run (P : action -> Prop) (R : Z -> Prop) (p : prog) :
  always P R p ->
  forall env w,
    Forall (fun ev : event => P ev.1) (run p env w).1.1 /\
    (forall v, (run p env w).2 = Ret v -> R v).
Proof.
  induction 1 as [v Hv| | |a k Ha Hk IH]; intros env w.
  - destruct env; cbn; (split; [constructor|]); by intros v' [= <-].
  - destruct env; cbn; (split; [constructor|done]).
  - destruct env; cbn; (split; [constructor|done]).
  - destruct env as [|e env]; [cbn; split; [constructor|done]|].
    cbn. destruct (exec_action a e w) as [[r w']|] eqn:Ex;
      [|cbn; split; [constructor|done]].
    destruct (exec_answer _ _ _ _ _ Ex) as [e' ->].
    destruct (IH e' env w') as [Htr Hq].
    destruct (run (k (answer a e')) env w') as [[tr w''] q]. cbn in *.
    split; [by constructor|done].
Qed.

Lemma always_bind (P : action -> Prop) (R R' : Z -> Prop) (p : prog) (k : Z -> prog) :
  always P R' p -> (forall r, always P R (k r)) -> always P R (bind p k).
Proof.
  intros Hp Hk. induction Hp; cbn; try constructor; auto.
Qed.

Ltac quiet_calls :=
  repeat first
    [ progress cbn [bind call negb]
    | match goal with
      | |- always _ _ (if ?b then _ else _) => destruct b
      | |- always _ _ (bind (if ?b then _ else _) _) => destruct b
      | |- always _ _ (call _) => unfold call
      | |- always _ _ (Act _ _) => constructor; [by repeat split|intros ?]
      | |- always _ _ (Ret _) => by constructor
      | |- always _ _ Crash => constructor
      | |- always _ _ Spin => constructor
      end ].

Lemma quiet_call_Create (fp V : Z) :
  always quiet (fun _ => True) (call_Create fp V).
Proof.
  unfold call_Create. destruct (func_at fp) as [[]|]; try apply always_Crash.
  - unfold SDL_CreateSemaphore_atom. quiet_calls.
  - unfold SDL_CreateSemaphore_kern. quiet_calls.
Qed.

Lemma quiet_call_Destroy (fp sem : Z) :
  always quiet (fun _ => True) (call_Destroy fp sem).
Proof.
  unfold call_Destroy. destruct (func_at fp) as [[]|]; try apply always_Crash.
  - unfold SDL_DestroySemaphore_atom. quiet_calls.
  - unfold SDL_DestroySemaphore_kern. quiet_calls.
Qed.

Lemma quiet_call_WaitTimeoutNS (fuel : nat) (fp sem timeoutNS : Z) :
  always quiet (fun _ => True) (call_WaitTimeoutNS fuel fp sem timeoutNS).
Proof.
  unfold call_WaitTimeoutNS. destruct (func_at fp) as [[]|]; try apply always_Crash.
  - unfold SDL_WaitSemaphoreTimeoutNS_atom.
    destruct (sem =? NULL); [quiet_calls|].
    destruct (timeoutNS =? 0); [quiet_calls|].
    destruct (timeoutNS <? 0).
    + by apply always_wait_loop_infinite.
    + cbn. constructor; [done|]. intros now.
      by apply always_wait_loop_timed.
  - unfold SDL_WaitSemaphoreTimeoutNS_kern. quiet_calls.
Qed.

Lemma quiet_call_Value (fp sem : Z) :
  always quiet (fun _ => True) (call_Value fp sem).
Proof.
  unfold call_Value. destruct (func_at fp) as [[]|]; try apply always_Crash.
  - unfold SDL_GetSemaphoreValue_atom. quiet_calls.
  - unfold SDL_GetSemaphoreValue_kern. quiet_calls.
Qed.

Lemma quiet_call_Post (fp sem : Z) :
  always quiet (fun _ => True) (call_Post fp sem).
Proof.
  unfold call_Post. destruct (func_at fp) as [[]|]; try apply always_Crash.
  - unfold SDL_PostSemaphore_atom. quiet_calls.
  - unfold SDL_PostSemaphore_kern. quiet_calls.
Qed.

(** X16. The selection happens in the first SDL_CreateSemaphore only.
    Once the Create field of the table is set, a call of
    SDL_CreateSemaphore takes no part in the selection: it does not read
    the hint, does not look for the system library or its functions,
    and assigns neither the table nor the two function pointers.  The
    four other public functions never do, whatever the table holds. *)
Theorem selection_only_in_first_Create (w : World) (env : list Z)
    (fuel : nat) (initial_value sem timeoutNS : Z) :
  let calls (p : prog) := Forall (fun ev : event => quiet ev.1) (run p env w).1.1 in
  (Create (SDL_sem_impl_active w) <> NULL ->
   calls (SDL_CreateSemaphore initial_value)) /\
  calls (SDL_DestroySemaphore sem) /\
  calls (SDL_WaitSemaphoreTimeoutNS fuel sem timeoutNS) /\
  calls (SDL_GetSemaphoreValue sem) /\
  calls (SDL_PostSemaphore sem).
Proof.
  intros calls. subst calls. cbv beta.
  assert (Hdisp : forall (l : lval) (body : Z -> prog),
            (forall f, always quiet (fun _ => True) (body f)) ->
            always quiet (fun _ => True) (f <- call (MemLoad l) ;; body f)).
  { intros l body Hb. cbn. constructor; [done|]. intros e. apply Hb. }
  split; [|repeat split].
  - intros Hc. destruct env as [|e env]; [constructor|].
    unfold SDL_CreateSemaphore, install_impl. cbn [bind call run exec_action].
    unfold read_lval at 1. cbn [mbind option_bind].
    destruct (Z.eqb_spec (Create (SDL_sem_impl_active w)) NULL); [done|].
    cbn [bind].
    pose proof (always_run _ _ _
                  (Hdisp active_Create _ (fun f => quiet_call_Create f initial_value))
                  env w) as [Htr _].
    cbn [bind call] in Htr.
    destruct (run _ env w) as [[tr w'] q]. cbn in *. by constructor.
  - apply always_run with (R := fun _ => True), Hdisp.
    intros f. apply quiet_call_Destroy.
  - apply always_run with (R := fun _ => True), Hdisp.
    intros f. apply quiet_call_WaitTimeoutNS.
  - apply always_run with (R := fun _ => True), Hdisp.
    intros f. apply quiet_call_Value.
  - apply always_run with (R := fun _ => True), Hdisp.
    intros f. apply quiet_call_Post.
Qed.

Lemma selection_only_in_first_Create_witness :
  Create (SDL_sem_impl_active World1) <> NULL /\
  Forall (fun ev : event => quiet ev.1)
    (run (SDL_CreateSemaphore 4) [0; 0; 700; 0] World1).1.1.
Proof.
  split; [done|].
  apply (proj1 (selection_only_in_first_Create World1 [0; 0; 700; 0] 0 4 0 0)).
  done.
Defined.

Lemma install_impl_atom_run (w : World)
    (e0 module p1 e4 p2 e6 e7 e8 e9 e10 e11 e12 e13 : Z) :
  Create (SDL_sem_impl_active w) = NULL ->
  module <> NULL -> p1 <> NULL -> p2 <> NULL ->
  exists tr,
    run install_impl
      [e0; 0; module; p1; e4; p2; e6; e7; e8; e9; e10; e11; e12; e13] w
    = (tr,
       {| heap := heap w; SDL_sem_impl_active := SDL_sem_impl_atom;
          g_pWaitOnAddress := p1; g_pWakeByAddressSingle := p2 |},
       Ret 0) /\
    length tr = 14%nat.
Proof.
  intros Hzero Hm H1 H2.
  apply Z.eqb_neq in Hm, H1, H2.
  unfold install_impl, choose_impl.
  cbn [bind call run exec_action]. unfold read_lval at 1.
  cbn [mbind option_bind]. rewrite Hzero.
  cbn [Z.eqb NULL bind run exec_action answer].
  unfold BOOL_of.
  repeat (progress (cbn; unfold read_lval, write_lval; rewrite ?Hm, ?H1, ?H2)).
  eexists. split; reflexivity.
Qed.

Lemma install_impl_kern_run (w : World) (e0 hint e2 e3 e4 e5 e6 : Z) :
  Create (SDL_sem_impl_active w) = NULL -> hint <> 0 ->
  exists tr,
    run install_impl [e0; hint; e2; e3; e4; e5; e6] w
    = (tr,
       {| heap := heap w; SDL_sem_impl_active := SDL_sem_impl_kern;
          g_pWaitOnAddress := g_pWaitOnAddress w;
          g_pWakeByAddressSingle := g_pWakeByAddressSingle w |},
       Ret 0) /\
    length tr = 7%nat.
Proof.
  intros Hzero Hh. apply Z.eqb_neq in Hh.
  unfold install_impl, choose_impl.
  cbn [bind call run exec_action]. unfold read_lval at 1.
  cbn [mbind option_bind]. rewrite Hzero.
  cbn [Z.eqb NULL bind run exec_action answer].
  unfold BOOL_of.
  repeat (progress (cbn; unfold read_lval, write_lval; rewrite ?Hh)).
  eexists. split; reflexivity.
Qed.

(** X17. The first semaphore of a process.  In a process whose table is
    empty, SDL_CreateSemaphore followed by SDL_GetSemaphoreValue, run
    alone with an allocation that succeeds, returns the initial value
    and leaves the chosen table installed and the new semaphore in the
    heap: with the fast implementation when the hint does not force the
    other one and the library and both functions are found, and with
    the kernel implementation, the kernel object created, when the hint
    forces it. *)
Theorem first_CreateSemaphore (w : World) (V p : Z) (env : list Z)
    (Hzero : Create (SDL_sem_impl_active w) = NULL)
    (Hp : p <> NULL) (Hfresh : heap w !! p = None) (HV : is_Uint32 V) :
  let first := sem <- SDL_CreateSemaphore V ;; SDL_GetSemaphoreValue sem in
  (forall e0 module p1 e4 p2 e6 e7 e8 e9 e10 e11 e12 e13 e14 e16 e17 e18,
     module <> NULL -> p1 <> NULL -> p2 <> NULL ->
     let r := run first
                ([e0; 0; module; p1; e4; p2; e6; e7; e8; e9; e10; e11; e12; e13]
                 ++ e14 :: p :: e16 :: e17 :: e18 :: env) w in
     r.2 = Ret V /\
     SDL_sem_impl_active r.1.2 = SDL_sem_impl_atom /\
     heap r.1.2 = <[p := atom_sem (to_LONG V)]> (heap w)) /\
  (forall e0 hint e2 e3 e4 e5 e6 e7 h e10 e11 e12 e13 e14,
     hint <> 0 -> h <> NULL ->
     let r := run first
                ([e0; hint; e2; e3; e4; e5; e6]
                 ++ e7 :: p :: h :: e10 :: e11 :: e12 :: e13 :: e14 :: env) w in
     r.2 = Ret V /\
     SDL_sem_impl_active r.1.2 = SDL_sem_impl_kern /\
     heap r.1.2 = <[p := kern_sem h (to_LONG V)]> (heap w)).
Proof.
  intros first. subst first. split.
  - intros e0 module p1 e4 p2 e6 e7 e8 e9 e10 e11 e12 e13 e14 e16 e17 e18 Hm H1 H2.
    destruct (install_impl_atom_run w e0 module p1 e4 p2 e6 e7 e8 e9 e10 e11 e12 e13
                Hzero Hm H1 H2) as (tr & Hrun & Hlen).
    set (w1 := {| heap := heap w; SDL_sem_impl_active := SDL_sem_impl_atom;
                  g_pWaitOnAddress := p1; g_pWakeByAddressSingle := p2 |}) in *.
    pose proof (run_bind install_impl
                  (fun _ => f <- call (MemLoad active_Create) ;; call_Create f V)
                  _ [e14; p; e16] w w1 tr 0 Hrun Hlen) as Hc.
    cbn [bind call] in Hc.
    erewrite run_load in Hc by reflexivity.
    change (call_Create (Create (SDL_sem_impl_active w1)) V)
      with (SDL_CreateSemaphore_atom V) in Hc.
    rewrite (CreateSemaphore_atom_run V p e16 [] w1 Hp Hfresh) in Hc.
    cbn [after fst snd] in Hc.
    set (w2 := set_heap w1 _) in Hc.
    pose proof (run_bind (SDL_CreateSemaphore V)
                  (fun sem => SDL_GetSemaphoreValue sem)
                  _ (e17 :: e18 :: env) w w2 _ p Hc) as Hg.
    rewrite !length_app, Hlen in Hg. specialize (Hg eq_refl).
    cbn [app] in Hg. cbv beta in Hg. cbv zeta. cbn [app]. rewrite Hg. clear Hg Hc.
    unfold SDL_GetSemaphoreValue. cbn [bind call].
    erewrite run_load by reflexivity.
    change (call_Value _ p) with (SDL_GetSemaphoreValue_atom p).
    erewrite GetSemaphoreValue_atom_run
      by (try done; subst w2; cbn; apply lookup_insert_eq).
    cbn. by rewrite to_Uint32_to_LONG, to_Uint32_id.
  - intros e0 hint e2 e3 e4 e5 e6 e7 h e10 e11 e12 e13 e14 Hh Hnh.
    destruct (install_impl_kern_run w e0 hint e2 e3 e4 e5 e6 Hzero Hh)
      as (tr & Hrun & Hlen).
    set (w1 := {| heap := heap w; SDL_sem_impl_active := SDL_sem_impl_kern;
                  g_pWaitOnAddress := g_pWaitOnAddress w;
                  g_pWakeByAddressSingle := g_pWakeByAddressSingle w |}) in *.
    pose proof (run_bind install_impl
                  (fun _ => f <- call (MemLoad active_Create) ;; call_Create f V)
                  _ [e7; p; h; e10; e11; e12] w w1 tr 0 Hrun Hlen) as Hc.
    cbn [bind call] in Hc.
    erewrite run_load in Hc by reflexivity.
    change (call_Create (Create (SDL_sem_impl_active w1)) V)
      with (SDL_CreateSemaphore_kern V) in Hc.
    rewrite (CreateSemaphore_kern_run V p h e10 e11 e12 [] w1 Hp Hfresh Hnh) in Hc.
    cbn [after fst snd] in Hc.
    set (w2 := set_heap w1 _) in Hc.
    pose proof (run_bind (SDL_CreateSemaphore V)
                  (fun sem => SDL_GetSemaphoreValue sem)
                  _ (e13 :: e14 :: env) w w2 _ p Hc) as Hg.
    rewrite !length_app, Hlen in Hg. specialize (Hg eq_refl).
    cbn [app] in Hg. cbv beta in Hg. cbv zeta. cbn [app]. rewrite Hg. clear Hg Hc.
    unfold SDL_GetSemaphoreValue. cbn [bind call].
    erewrite run_load by reflexivity.
    change (call_Value _ p) with (SDL_GetSemaphoreValue_kern p).
    erewrite GetSemaphoreValue_kern_run
      by (try done; subst w2; cbn; apply lookup_insert_eq).
    cbn. by rewrite to_Uint32_to_LONG, to_Uint32_id.
Qed.

Lemma first_CreateSemaphore_witness :
  (run (sem <- SDL_CreateSemaphore 3 ;; SDL_GetSemaphoreValue sem)
       ([0; 0; 9000; 7001; 0; 7002; 0; 0; 0; 0; 0; 0; 0; 0]
        ++ 0 :: 500 :: 0 :: 0 :: 0 :: []) World0).2 = Ret 3.
Proof.
  assert (Hu : is_Uint32 3) by (unfold is_Uint32; lia).
  destruct (first_CreateSemaphore World0 3 500 [] eq_refl ltac:(done) eq_refl Hu)
    as [H _].
  exact (proj1 (H 0 9000 7001 0 7002 0 0 0 0 0 0 0 0 0 0 0 0
                  ltac:(done) ltac:(done) ltac:(done))).
Defined.

(** ** Clients of a live semaphore *)

Section faultless.
Variable sem : Z.

Lemma faultless_bind (p : prog) (k : Z -> prog) :
  faultless sem p -> (forall r, faultless sem (k r)) -> faultless sem (bind p k).
Proof.
  intros Hp Hk. induction Hp; cbn; try constructor; auto.
Qed.

Lemma faultless_call (a : action) : gentle sem a -> faultless sem (call a).
Proof. intros. constructor; [done|]. constructor. Qed.

Lemma faultless_exchange (count : Z) (next : prog) :
  faultless sem next ->
  faultless sem (old <- call (InterlockedCompareExchange (sem_atom_count sem)
                                (to_LONG (count - 1)) count) ;;
                 if old =? count then Ret 0 else next).
Proof.
  intros Hn. cbn. constructor; [by cbn|].
  intros r. destruct (r =? count); [constructor|done].
Qed.

Lemma faultless_wait_zero_infinite (fuel : nat) (count : Z) (k : Z -> prog) :
  (forall c, faultless sem (k c)) ->
  faultless sem (wait_zero_infinite fuel sem count k).
Proof.
  intros Hk. revert count. induction fuel as [|fuel IH]; intros count;
    cbn [wait_zero_infinite];
    (destruct (Z.eqb_spec count 0); [|by apply Hk]); [constructor|].
  cbn. constructor; [done|]. intros ok.
  destruct (ok =? FALSE); [by apply faultless_call|].
  cbn. constructor; [done|]. intros c. apply IH.
Qed.

Lemma faultless_wait_loop_infinite (fuel : nat) :
  faultless sem (wait_loop_infinite fuel sem).
Proof.
  induction fuel as [|fuel IH]; cbn [wait_loop_infinite]; [constructor|].
  cbn. constructor; [done|]. intros count.
  apply faultless_wait_zero_infinite. intros c. by apply faultless_exchange.
Qed.

Lemma faultless_wait_zero_timed (fuel : nat) (deadline count : Z) (k : Z -> prog) :
  (forall c, faultless sem (k c)) ->
  faultless sem (wait_zero_timed fuel sem deadline count k).
Proof.
  intros Hk. revert count. induction fuel as [|fuel IH]; intros count;
    cbn [wait_zero_timed];
    (destruct (Z.eqb_spec count 0); [|by apply Hk]); [constructor|].
  cbn. constructor; [done|]. intros now.
  destruct (deadline >? now); [|constructor].
  cbn. constructor; [done|]. intros ok.
  destruct (ok =? FALSE).
  - cbn. constructor; [done|]. intros err.
    destruct (err =? ERROR_TIMEOUT); [constructor|by apply faultless_call].
  - cbn. constructor; [done|]. intros c. apply IH.
Qed.

Lemma faultless_wait_loop_timed (fuel : nat) (deadline : Z) :
  faultless sem (wait_loop_timed fuel sem deadline).
Proof.
  induction fuel as [|fuel IH]; cbn [wait_loop_timed]; [constructor|].
  cbn. constructor; [done|]. intros count.
  apply faultless_wait_zero_timed. intros c. by apply faultless_exchange.
Qed.

Lemma faultless_Wait (fuel : nat) (timeoutNS : Z) :
  faultless sem (SDL_WaitSemaphoreTimeoutNS_atom fuel sem timeoutNS).
Proof.
  unfold SDL_WaitSemaphoreTimeoutNS_atom.
  destruct (sem =? NULL); [by apply faultless_call|].
  destruct (timeoutNS =? 0).
  - cbn. constructor; [done|]. intros count.
    destruct (Z.eqb_spec count 0); [constructor|].
    cbn. constructor; [by cbn|]. intros old.
    destruct (old =? count); constructor.
  - destruct (timeoutNS <? 0); [apply faultless_wait_loop_infinite|].
    cbn. constructor; [done|]. intros now. apply faultless_wait_loop_timed.
Qed.

Lemma faultless_Post : faultless sem (SDL_PostSemaphore_atom sem).
Proof.
  unfold SDL_PostSemaphore_atom.
  destruct (sem =? NULL); [by apply faultless_call|].
  cbn. repeat (constructor; [done|]; intros ?). constructor.
Qed.

Lemma faultless_GetValue : faultless sem (SDL_GetSemaphoreValue_atom sem).
Proof.
  unfold SDL_GetSemaphoreValue_atom.
  destruct (sem =? NULL); cbn;
    repeat (constructor; [done|]; intros ?); constructor.
Qed.

Lemma client_faultless (p : prog) : client sem p -> faultless sem p.
Proof.
  induction 1; [constructor|..]; apply faultless_bind; auto.
  - apply faultless_Wait.
  - apply faultless_Post.
  - apply faultless_GetValue.
Qed.

Lemma exec_gentle (a : action) (e c : Z) (w : World) :
  gentle sem a ->
  heap w !! sem = Some (atom_sem c) ->
  g_pWaitOnAddress w <> NULL -> g_pWakeByAddressSingle w <> NULL ->
  exists r w' c',
    exec_action a e w = Some (r, w') /\
    heap w' !! sem = Some (atom_sem c') /\
    (forall p, p <> sem -> heap w' !! p = heap w !! p) /\
    SDL_sem_impl_active w' = SDL_sem_impl_active w /\
    g_pWaitOnAddress w' = g_pWaitOnAddress w /\
    g_pWakeByAddressSingle w' = g_pWakeByAddressSingle w.
Proof.
  intros Hg Hs Hwait Hwake.
  apply Z.eqb_neq in Hwait, Hwake.
  assert (Hwrite : forall v,
            exists w', write_lval w (sem_atom_count sem) v = Some w' /\
              heap w' !! sem = Some (atom_sem v) /\
              (forall p, p <> sem -> heap w' !! p = heap w !! p) /\
              SDL_sem_impl_active w' = SDL_sem_impl_active w /\
              g_pWaitOnAddress w' = g_pWaitOnAddress w /\
              g_pWakeByAddressSingle w' = g_pWakeByAddressSingle w).
  { intros v. eexists. split; [by eapply write_atom_count|].
    cbn. split; [apply lookup_insert_eq|].
    split; [|done]. intros p Hp. by apply lookup_insert_ne. }
  destruct a; cbn in Hg; try done; cbn [exec_action]; try subst l;
    rewrite ?(read_atom_count _ _ _ Hs), ?Hwait, ?Hwake; cbn [mbind option_bind];
    try (by eexists _, w, c).
  - destruct (c =? comparand); [|by eexists _, w, c].
    destruct (Hwrite exchange) as (w' & -> & H). cbn. by eexists _, w', exchange.
  - destruct (Hwrite (to_LONG (c + 1))) as (w' & -> & H). cbn.
    by eexists _, w', _.
Qed.
End faultless.

Lemma sys_step_live (sem : Z) (w0 : World) (i : nat) (e : Z) (s : sys) :
  g_pWaitOnAddress w0 <> NULL -> g_pWakeByAddressSingle w0 <> NULL ->
  live sem w0 s -> live sem w0 (sys_step i e s).
Proof.
  intros Hwait Hwake ([c Hc] & Hrest & Ht & Hp1 & Hp2 & Hth). unfold sys_step.
  destruct (threads s !! i) as [[v|a k| |]|] eqn:Ei;
    try (by repeat split; eauto).
  pose proof (Forall_lookup_1 _ _ _ _ Hth Ei) as Hact.
  inversion Hact as [| |a' k' Hg Hk]; subst a' k'.
  destruct (exec_gentle sem a e c (world s) Hg Hc)
    as (r & w' & c' & -> & Hc' & Hrest' & Ht' & Hp1' & Hp2'); [congruence..|].
  unfold live. cbn [world threads].
  split; [by exists c'|].
  split; [intros p Hp; rewrite Hrest' by done; by apply Hrest|].
  split; [congruence|]. split; [congruence|]. split; [congruence|].
  apply Forall_insert; auto.
Qed.

Lemma sys_exec_live (sem : Z) (w0 : World) (sched : list (nat * Z)) (s : sys) :
  g_pWaitOnAddress w0 <> NULL -> g_pWakeByAddressSingle w0 <> NULL ->
  live sem w0 s -> live sem w0 (sys_exec sched s).
Proof.
  intros Hwait Hwake. unfold sys_exec. revert s.
  induction sched as [|[i e] sched IH]; intros s Hs; [done|].
  cbn. apply IH. by apply sys_step_live.
Qed.

(** X18. Clients of a live semaphore of the fast implementation never
    fault and touch nothing but its count.  Take a world that holds the
    semaphore and in which the two function pointers are set, and any
    threads that wait on the semaphore (any timeout), post to it and
    read its value, run in any interleaving of their calls.  At every
    point no thread has faulted, the semaphore is still in the heap with
    a count, every other block of the heap is as it was, and so are the
    table and the two function pointers. *)
Theorem clients_never_fault (sem c : Z) (w0 : World) (ts : list prog)
    (sched : list (nat * Z))
    (Hlive : heap w0 !! sem = Some (atom_sem c))
    (Hwait : g_pWaitOnAddress w0 <> NULL)
    (Hwake : g_pWakeByAddressSingle w0 <> NULL)
    (Hts : Forall (client sem) ts) :
  let s := sys_exec sched {| world := w0; threads := ts; log := [] |} in
  Forall (fun t => t <> Crash) (threads s) /\
  (exists c', heap (world s) !! sem = Some (atom_sem c')) /\
  (forall p, p <> sem -> heap (world s) !! p = heap w0 !! p) /\
  SDL_sem_impl_active (world s) = SDL_sem_impl_active w0 /\
  g_pWaitOnAddress (world s) = g_pWaitOnAddress w0 /\
  g_pWakeByAddressSingle (world s) = g_pWakeByAddressSingle w0.
Proof.
  intros s.
  assert (Hinv : live sem w0 s).
  { apply sys_exec_live; try done. unfold live. cbn [world threads].
    split; [by exists c|]. repeat (split; [done|]).
    eapply Forall_impl; [exact Hts|]. apply client_faultless. }
  destruct Hinv as (Hc & Hrest & Ht & Hp1 & Hp2 & Hth).
  split; [|done].
  eapply Forall_impl; [exact Hth|]. intros t Hf ->. inversion Hf.
Qed.

Lemma clients_never_fault_witness :
  let ts := [(r <- SDL_WaitSemaphoreTimeoutNS_atom 3 500 5 ;; Ret r);
             (r <- SDL_PostSemaphore_atom 500 ;; Ret r);
             (r <- SDL_WaitSemaphoreTimeoutNS_atom 3 500 (-1) ;; Ret r)] in
  let sched := [(0%nat, 0); (2%nat, 0); (0%nat, 0); (2%nat, 0); (1%nat, 0);
                (2%nat, 1); (1%nat, 0); (2%nat, 0); (2%nat, 0)] in
  Forall (fun t => t <> Crash)
    (threads (sys_exec sched {| world := World1; threads := ts; log := [] |})).
Proof.
  intros ts sched.
  refine (proj1 (clients_never_fault 500 3 World1 ts sched _ _ _ _)).
  - reflexivity.
  - done.
  - done.
  - repeat constructor.
Defined.
